(** * polygon-cli, package [cmd/cdk]: fork-aware contract facade

    A shallow embedding of the Go sources of package [cdk]: the file of
    the [cdk] command (flags, forks, argument parsing), the file of the
    [rollup-manager] commands, and [cmd/cdk/ger.go]:

    - Go integers are [Z] with the wrap-around of their width written out;
    - a Go pointer or interface value is an [option] ([None] is [nil]);
    - a Go function returning [(T, error)] returns a pair whose second
      component is [option error];
    - network reads, sleeps, dials and log output are threaded through a
      small monad over the state of the chain and the list of observable
      events the call produced;
    - [log.Fatal] (process exit) and [panic] are outcomes of their own. *)

From Stdlib Require Import ZArith String Ascii List Lia Bool.
From stdpp Require Import base option gmap strings list.
Import ListNotations.

Open Scope string_scope.
Open Scope list_scope.
Open Scope Z_scope.

(** ** Machine integers *)

Definition wrap (bits : Z) (z : Z) : Z := z mod 2 ^ bits.
Definition uint32 (z : Z) : Z := wrap 32 z.
Definition uint64 (z : Z) : Z := wrap 64 z.
Definition maxUint64 : Z := 2 ^ 64 - 1.
Definition maxUint32 : Z := 2 ^ 32 - 1.

(** [strconv.IntSize] on the 64-bit platforms the tool is built for. *)
Definition intSize : Z := 64.

(** ** Errors

    Go's [error] values met in this package: messages built by
    [errors.New] / [fmt.Errorf], and [*strconv.NumError]. *)

Inductive numErrKind := ErrSyntax | ErrRange.

Inductive error :=
| errors_New (msg : string)
| NumError (Func Num : string) (Err : numErrKind).

(** ** Bytes of a string *)

Definition byte_of (c : ascii) : Z := Z.of_nat (nat_of_ascii c).

Fixpoint bytes (s : string) : list Z :=
  match s with
  | EmptyString => []
  | String c r => byte_of c :: bytes r
  end.

Definition len (s : string) : Z := Z.of_nat (String.length s).

Fixpoint join (sep : string) (l : list string) : string :=
  match l with
  | [] => EmptyString
  | [x] => x
  | x :: r => x +:+ sep +:+ join sep r
  end.

(** [slices.Sort] on strings: byte-wise lexicographic order. *)
Fixpoint insert_sorted (x : string) (l : list string) : list string :=
  match l with
  | [] => [x]
  | y :: r => if String.leb x y then x :: l else y :: insert_sorted x r
  end.

Definition slices_Sort (l : list string) : list string :=
  fold_right insert_sorted [] l.

(** ** go-ethereum [common]: addresses

    [common.Address] is 20 bytes; it is held as the big-endian number. *)

Definition Address := Z.
Definition Hash := Z.
Definition AddressLength : Z := 20.
Definition zeroAddress : Address := 0.

Definition has0xPrefix (s : string) : bool :=
  match s with
  | String "0" (String c _) => Ascii.eqb c "x" || Ascii.eqb c "X"
  | _ => false
  end.

Definition isHexCharacter (c : Z) : bool :=
  ((48 <=? c) && (c <=? 57)) || ((97 <=? c) && (c <=? 102)) || ((65 <=? c) && (c <=? 70)).

Definition isHex (s : string) : bool :=
  (len s mod 2 =? 0) && forallb isHexCharacter (bytes s).

Definition drop0x (s : string) : string :=
  if has0xPrefix s then String.substring 2 (String.length s - 2) s else s.

Definition IsHexAddress (s : string) : bool :=
  let s := drop0x s in
  (len s =? 2 * AddressLength) && isHex s.

(** [encoding/hex]: value of one hex digit. *)
Definition fromHexChar (c : Z) : option Z :=
  if (48 <=? c) && (c <=? 57) then Some (c - 48)
  else if (97 <=? c) && (c <=? 102) then Some (c - 97 + 10)
  else if (65 <=? c) && (c <=? 70) then Some (c - 65 + 10)
  else None.

(** [hex.DecodeString] with its error dropped, as [common.Hex2Bytes] does:
    the bytes decoded before the first invalid character. *)
Fixpoint hexDecode (l : list Z) : list Z :=
  match l with
  | p :: q :: r =>
      match fromHexChar p, fromHexChar q with
      | Some a, Some b => (a * 16 + b) :: hexDecode r
      | _, _ => []
      end
  | _ => []
  end.

Definition FromHex (s : string) : list Z :=
  let s := drop0x s in
  let s := if len s mod 2 =? 1 then "0" +:+ s else s in
  hexDecode (bytes s).

(** [BytesToAddress]: the last 20 bytes, right-aligned. *)
Definition BytesToAddress (b : list Z) : Address :=
  fold_left (fun acc x => acc * 256 + x) b 0 mod 2 ^ (8 * AddressLength).

Definition HexToAddress (s : string) : Address := BytesToAddress (FromHex s).

(** ** Constants of the [cdk] command *)

Definition ArgRpcURL := "rpc-url".
Definition ArgForkID := "fork-id".
Definition ArgRollupManagerAddress := "rollup-manager-address".
Definition ArgRollupChainID := "rollup-chain-id".
Definition ArgRollupID := "rollup-id".
Definition ArgRollupAddress := "rollup-address".
Definition defaultRPCURL := "http://localhost:8545".
Definition defaultForkId := "12".

Definition blueberry : Z := 4.
Definition dragonfruit : Z := 5.
Definition incaberry : Z := 6.
Definition etrog : Z := 7.
Definition elderberry : Z := 9.
Definition feijoa : Z := 10.
Definition banana : Z := 12.
Definition durian : Z := 13.

(** [200 * time.Millisecond], in nanoseconds. *)
Definition contractRequestInterval : Z := 200 * 1000000.

Definition knownRollupManagerAddresses : gmap string string :=
  list_to_map
    [ ("bali", "0xe2ef6215adc132df6913c8dd16487abf118d1764");
      ("cardona", "0x32d33D5137a7cFFb54c5Bf8371172bcEc5f310ff");
      ("mainnet", "0x5132a183e9f3cb7c848b0aac5ae0c4f0491b7ab2") ].

Definition knownForks : gmap string Z :=
  list_to_map
    [ ("7", etrog); ("etrog", etrog);
      ("9", elderberry); ("elderberry", elderberry);
      ("12", banana); ("banana", banana) ].

(** ** Data read from the contracts *)

(** What the generated bindings return for [RollupIDToRollupData] and
    [RollupTypeMap] (package [polygonrollupmanager]). *)
Module binding.
Record rollupData := {
  RollupContract : Address;
  ChainID : Z;
  Verifier : Address;
  ForkID : Z;
  LastLocalExitRoot : Hash;
  LastBatchSequenced : Z;
  LastVerifiedBatch : Z;
  LastPendingState : Z;
  LastPendingStateConsolidated : Z;
  LastVerifiedBatchBeforeUpgrade : Z;
  RollupTypeID : Z;
  RollupCompatibilityID : Z
}.
Record rollupType := {
  ConsensusImplementation : Address;
  TypeVerifier : Address;
  TypeForkID : Z;
  TypeRollupCompatibilityID : Z;
  Obsolete : bool;
  Genesis : Hash
}.
End binding.

Record RollupData := {
  RollupContract : Address;
  ChainID : Z;
  Verifier : Address;
  ForkID : Z;
  LastLocalExitRoot : Hash;
  LastBatchSequenced : Z;
  LastVerifiedBatch : Z;
  LastPendingState : Z;
  LastPendingStateConsolidated : Z;
  LastVerifiedBatchBeforeUpgrade : Z;
  RollupTypeID : Z;
  RollupCompatibilityID : Z
}.

Record RollupTypeData := {
  ConsensusImplementation : Address;
  TypeVerifier : Address;
  TypeForkID : Z;
  TypeRollupCompatibilityID : Z;
  Obsolete : bool;
  Genesis : Hash
}.

Record RollupManagerData := {
  Pol : Address;
  BridgeAddress : Address;
  RollupCount : Z;
  BatchFee : option Z;
  TotalSequencedBatches : Z;
  TotalVerifiedBatches : Z;
  LastAggregationTimestamp : Z;
  LastDeactivatedEmergencyStateTimestamp : Z
}.

Record RollupManagerDumpData := {
  Data : option RollupManagerData;
  Rollups : option (list RollupData);
  RollupTypes : option (list RollupTypeData)
}.

Record gerData := {
  gerBridgeAddress : Address;
  DepositCount : option Z;
  GetLastGlobalExitRoot : Hash;
  Root : Hash;
  LastMainnetExitRoot : Hash;
  LastRollupExitRoot : Hash;
  RollupManager : Address
}.

Record gerDumpData := { gerDump_Data : option gerData }.

(** ** Observable events *)

Inductive rm_op :=
| RM_Pol | RM_BridgeAddress | RM_RollupCount | RM_GetBatchFee
| RM_TotalSequencedBatches | RM_TotalVerifiedBatches
| RM_LastAggregationTimestamp | RM_LastDeactivatedEmergencyStateTimestamp
| RM_RollupIDToRollupData (i : Z)
| RM_RollupTypeCount
| RM_RollupTypeMap (i : Z)
| RM_ChainIDToRollupID (chainID : Z)
| RM_RollupAddressToID (a : Address).

Inductive ger_op :=
| GER_BridgeAddress | GER_DepositCount | GER_GetLastGlobalExitRoot | GER_GetRoot
| GER_LastMainnetExitRoot | GER_LastRollupExitRoot | GER_RollupManager.

Inductive value :=
| VAddress (a : Address)
| VUint32 (z : Z)
| VUint64 (z : Z)
| VBigInt (z : option Z)
| VHash (h : Hash)
| VRollupData (r : binding.rollupData)
| VRollupType (r : binding.rollupType).

Inductive contractKind := KRollupManager | KBridge | KGER.

Inductive output :=
| OutRollups (l : option (list RollupData))
| OutRollupTypes (l : option (list RollupTypeData))
| OutRollupManagerData (d : option RollupManagerData)
| OutRollupManagerDump (d : RollupManagerDumpData)
| OutGERData (d : option gerData)
| OutGERDump (d : gerDumpData).

Inductive event :=
| EvDial (url : string) (err : option error)
| EvFatal (msg : string)
| EvRollupManager (op : rm_op) (ret : value) (err : option error)
| EvGER (op : ger_op) (ret : value) (err : option error)
| EvSleep (d : Z)
| EvResolve (k : contractKind) (addr : Address) (err : option error)
| EvGetBridgeData (gerAddr : option Address) (err : option error)
| EvLogJSON (v : output)
| EvPrintJSON (v : output)
| EvWatch (addresses : list Address) (err : option error)
| EvThrow (msg : string).

(** ** The capability interfaces

    A handle is a stateful object over the state [W] of the chain behind
    it: every operation returns its Go result pair and the next state.
    Only the operations the sources call are listed. *)

Section Interfaces.
Variable W : Type.

Definition read (T : Type) : Type := W -> (T * option error) * W.

Record rollupManagerContractInterface := {
  rm_Pol : read Address;
  rm_BridgeAddress : read Address;
  rm_RollupCount : read Z;
  rm_GetBatchFee : read (option Z);
  rm_TotalSequencedBatches : read Z;
  rm_TotalVerifiedBatches : read Z;
  rm_LastAggregationTimestamp : read Z;
  rm_LastDeactivatedEmergencyStateTimestamp : read Z;
  rm_RollupIDToRollupData : Z -> read binding.rollupData;
  rm_RollupTypeCount : read Z;
  rm_RollupTypeMap : Z -> read binding.rollupType;
  rm_ChainIDToRollupID : Z -> read Z;
  rm_RollupAddressToID : Address -> read Z
}.

Record gerContractInterface := {
  ger_BridgeAddress : read Address;
  ger_DepositCount : read (option Z);
  ger_GetLastGlobalExitRoot : read Hash;
  ger_GetRoot : read Hash;
  ger_LastMainnetExitRoot : read Hash;
  ger_LastRollupExitRoot : read Hash;
  ger_RollupManager : read Address
}.
End Interfaces.

Arguments rm_Pol {W}. Arguments rm_BridgeAddress {W}. Arguments rm_RollupCount {W}.
Arguments rm_GetBatchFee {W}. Arguments rm_TotalSequencedBatches {W}.
Arguments rm_TotalVerifiedBatches {W}. Arguments rm_LastAggregationTimestamp {W}.
Arguments rm_LastDeactivatedEmergencyStateTimestamp {W}.
Arguments rm_RollupIDToRollupData {W}. Arguments rm_RollupTypeCount {W}.
Arguments rm_RollupTypeMap {W}. Arguments rm_ChainIDToRollupID {W}.
Arguments rm_RollupAddressToID {W}.
Arguments ger_BridgeAddress {W}. Arguments ger_DepositCount {W}.
Arguments ger_GetLastGlobalExitRoot {W}. Arguments ger_GetRoot {W}.
Arguments ger_LastMainnetExitRoot {W}. Arguments ger_LastRollupExitRoot {W}.
Arguments ger_RollupManager {W}.

(** ** Parsed arguments and helper structs *)

Record inputArgs := {
  in_rpcURL : option string;
  in_forkID : option string;
  in_rollupManagerAddress : option string;
  in_rollupID : option string;
  in_rollupChainID : option string;
  in_rollupAddress : option string
}.

Record parsedCDKArgs {Client : Type} := {
  rpcURL : string;
  rpcClient : option Client;
  forkID : Z
}.
Arguments parsedCDKArgs : clear implicits.

Record parsedRollupManagerArgs {W : Type} := {
  rollupManager : option (rollupManagerContractInterface W);
  rollupManagerAddress : Address
}.
Arguments parsedRollupManagerArgs : clear implicits.

Record parsedRollupArgs := {
  rollupID : Z;
  rollupChainID : Z;
  rollupAddress : Address
}.

(** [type ger struct { gerContractInterface; instance reflect.Value }] *)
Record ger {W RV : Type} := {
  ger_iface : option (gerContractInterface W);
  instance : RV
}.
Arguments ger : clear implicits.

Record customFilter {RV ABI : Type} := {
  contractInstance : RV;
  contractABI : option ABI;
  blockchainFilter_Addresses : list Address
}.
Arguments customFilter : clear implicits.

(** The element types of the slices the getters make. *)
Inductive elemType := TRollupData | TRollupTypeData.

(** ** What the sources use but do not define

    The chain client and the generated contract bindings are libraries;
    [getRollupManager], [getBridge], [getBridgeData], [getGER] and
    [watchNewLogs] are functions of package [cdk] that [ger.go] and the
    [rollup-manager] commands call and that live in other files.  They
    are taken as they are called: the constructors and resolvers build an
    in-memory handle, [getBridgeData] and [watchNewLogs] act on the chain.
    ([ger.go] takes three results from [getRollupManager], the
    [rollup-manager] commands two: the ABI is dropped there.)
    [allocates] is the machine: whether the Go runtime gets the memory
    for a slice of so many elements of a type. *)
Class Env := {
  W : Type;
  Client : Type;
  ABI : Type;
  reflectValue : Type;
  bridgeHandle : Type;
  bridgeData : Type;
  GlobalExitRootManager : bridgeData -> Address;
  DialContext : string -> W -> (option Client * option error) * W;
  etrog_NewPolygonrollupmanager :
    Address -> option Client -> option (rollupManagerContractInterface W) * option error;
  elderberry_NewPolygonrollupmanager :
    Address -> option Client -> option (rollupManagerContractInterface W) * option error;
  banana_NewPolygonrollupmanager :
    Address -> option Client -> option (rollupManagerContractInterface W) * option error;
  getRollupManager :
    option (parsedCDKArgs Client) -> option Client -> Address ->
    option (rollupManagerContractInterface W) * option ABI * option error;
  getBridge :
    option (parsedCDKArgs Client) -> option Client -> Address ->
    option bridgeHandle * option ABI * option error;
  getBridgeData : option bridgeHandle -> W -> (option bridgeData * option error) * W;
  getGER :
    option (parsedCDKArgs Client) -> option Client -> Address ->
    option (ger W reflectValue) * option ABI * option error;
  watchNewLogs : option Client -> customFilter reflectValue ABI -> W -> option error * W;
  allocates : elemType -> Z -> bool
}.

(** ** The monad of a command

    A computation takes the state of the chain and gives how it ended, the
    state it left and the events it caused, in order. *)

Inductive outcome (A : Type) :=
| Ret (a : A)
| Panic (msg : string)
| Exit (code : Z)
| OutOfFuel.
Arguments Ret {A}. Arguments Panic {A}. Arguments Exit {A}. Arguments OutOfFuel {A}.

Definition M `{Env} (A : Type) : Type := W -> outcome A * W * list event.

Definition ret `{Env} {A} (a : A) : M A := fun w => (Ret a, w, []).

Definition bind `{Env} {A B} (m : M A) (k : A -> M B) : M B :=
  fun w =>
    match m w with
    | (Ret a, w1, t1) => let '(o, w2, t2) := k a w1 in (o, w2, t1 ++ t2)
    | (Panic msg, w1, t1) => (Panic msg, w1, t1)
    | (Exit c, w1, t1) => (Exit c, w1, t1)
    | (OutOfFuel, w1, t1) => (OutOfFuel, w1, t1)
    end.

#[export] Instance M_ret `{Env} : MRet M := @ret _.
#[export] Instance M_bind `{Env} : MBind M := fun A B k m => bind m k.

(** [if err != nil { return r }] *)
Notation "'iferr' err 'return' r ; k" :=
  (match err with Some _ => ret r | None => k end)
  (at level 20, err at level 9, r at level 9, k at level 200, only parsing).

Definition panic `{Env} {A} (msg : string) : M A := fun w => (Panic msg, w, []).
Definition os_Exit `{Env} {A} (code : Z) : M A := fun w => (Exit code, w, []).
Definition emit `{Env} (e : event) : M unit := fun w => (Ret tt, w, [e]).

Definition nilDereference : string :=
  "runtime error: invalid memory address or nil pointer dereference".

(** [*p], and a method call on a nil interface. *)
Definition deref `{Env} {A} (p : option A) : M A :=
  match p with
  | Some a => ret a
  | None => panic nilDereference
  end.

Definition time_Sleep `{Env} (d : Z) : M unit := emit (EvSleep d).

(** A fatal error of the Go runtime: the message goes to standard error
    and the process exits with status 2; it cannot be recovered. *)
Definition runtime_throw `{Env} {A} (msg : string) : M A :=
  _ ← emit (EvThrow msg); os_Exit 2.

(** [make([]T, 0, cap)] with a [uint32] capacity: nothing is allocated
    for capacity [0]; otherwise the runtime asks for the memory and, when
    it does not get it, dies with "out of memory".  (The capacity times
    the element size stays below the limit at which [make] panics, the
    integers being 64 bits wide.) *)
Definition makeslice `{Env} (T : elemType) (cap : Z) : M unit :=
  if (cap =? 0) || allocates T cap then ret tt
  else runtime_throw "runtime: out of memory".
Arguments makeslice : simpl never.

(** A call of one operation of a handle: it acts on the chain and is
    recorded with what it returned. *)
Definition invoke `{Env} {H T : Type} (h : option H) (op : H -> read W T)
    (ev : T -> option error -> event) : M (T * option error) :=
  match h with
  | None => panic nilDereference
  | Some h =>
      fun w => let '((v, err), w') := op h w in (Ret (v, err), w', [ev v err])
  end.

Definition rmCall `{Env} {T} (h : option (rollupManagerContractInterface W))
    (name : rm_op) (op : rollupManagerContractInterface W -> read W T)
    (inj : T -> value) : M (T * option error) :=
  invoke h op (fun v err => EvRollupManager name (inj v) err).

Definition gerCall `{Env} {T} (h : option (gerContractInterface W))
    (name : ger_op) (op : gerContractInterface W -> read W T)
    (inj : T -> value) : M (T * option error) :=
  invoke h op (fun v err => EvGER name (inj v) err).

(** ** Rollup manager: the snapshot *)

Definition zeroRollupManagerData : RollupManagerData :=
  {| Pol := zeroAddress; BridgeAddress := zeroAddress; RollupCount := 0;
     BatchFee := None; TotalSequencedBatches := 0; TotalVerifiedBatches := 0;
     LastAggregationTimestamp := 0; LastDeactivatedEmergencyStateTimestamp := 0 |}.

Definition set_Pol v d :=
  {| Pol := v; BridgeAddress := BridgeAddress d; RollupCount := RollupCount d;
     BatchFee := BatchFee d; TotalSequencedBatches := TotalSequencedBatches d;
     TotalVerifiedBatches := TotalVerifiedBatches d;
     LastAggregationTimestamp := LastAggregationTimestamp d;
     LastDeactivatedEmergencyStateTimestamp := LastDeactivatedEmergencyStateTimestamp d |}.
Definition set_BridgeAddress v d :=
  {| Pol := Pol d; BridgeAddress := v; RollupCount := RollupCount d;
     BatchFee := BatchFee d; TotalSequencedBatches := TotalSequencedBatches d;
     TotalVerifiedBatches := TotalVerifiedBatches d;
     LastAggregationTimestamp := LastAggregationTimestamp d;
     LastDeactivatedEmergencyStateTimestamp := LastDeactivatedEmergencyStateTimestamp d |}.
Definition set_RollupCount v d :=
  {| Pol := Pol d; BridgeAddress := BridgeAddress d; RollupCount := v;
     BatchFee := BatchFee d; TotalSequencedBatches := TotalSequencedBatches d;
     TotalVerifiedBatches := TotalVerifiedBatches d;
     LastAggregationTimestamp := LastAggregationTimestamp d;
     LastDeactivatedEmergencyStateTimestamp := LastDeactivatedEmergencyStateTimestamp d |}.
Definition set_BatchFee v d :=
  {| Pol := Pol d; BridgeAddress := BridgeAddress d; RollupCount := RollupCount d;
     BatchFee := v; TotalSequencedBatches := TotalSequencedBatches d;
     TotalVerifiedBatches := TotalVerifiedBatches d;
     LastAggregationTimestamp := LastAggregationTimestamp d;
     LastDeactivatedEmergencyStateTimestamp := LastDeactivatedEmergencyStateTimestamp d |}.
Definition set_TotalSequencedBatches v d :=
  {| Pol := Pol d; BridgeAddress := BridgeAddress d; RollupCount := RollupCount d;
     BatchFee := BatchFee d; TotalSequencedBatches := v;
     TotalVerifiedBatches := TotalVerifiedBatches d;
     LastAggregationTimestamp := LastAggregationTimestamp d;
     LastDeactivatedEmergencyStateTimestamp := LastDeactivatedEmergencyStateTimestamp d |}.
Definition set_TotalVerifiedBatches v d :=
  {| Pol := Pol d; BridgeAddress := BridgeAddress d; RollupCount := RollupCount d;
     BatchFee := BatchFee d; TotalSequencedBatches := TotalSequencedBatches d;
     TotalVerifiedBatches := v;
     LastAggregationTimestamp := LastAggregationTimestamp d;
     LastDeactivatedEmergencyStateTimestamp := LastDeactivatedEmergencyStateTimestamp d |}.
Definition set_LastAggregationTimestamp v d :=
  {| Pol := Pol d; BridgeAddress := BridgeAddress d; RollupCount := RollupCount d;
     BatchFee := BatchFee d; TotalSequencedBatches := TotalSequencedBatches d;
     TotalVerifiedBatches := TotalVerifiedBatches d;
     LastAggregationTimestamp := v;
     LastDeactivatedEmergencyStateTimestamp := LastDeactivatedEmergencyStateTimestamp d |}.
Definition set_LastDeactivatedEmergencyStateTimestamp v d :=
  {| Pol := Pol d; BridgeAddress := BridgeAddress d; RollupCount := RollupCount d;
     BatchFee := BatchFee d; TotalSequencedBatches := TotalSequencedBatches d;
     TotalVerifiedBatches := TotalVerifiedBatches d;
     LastAggregationTimestamp := LastAggregationTimestamp d;
     LastDeactivatedEmergencyStateTimestamp := v |}.

Definition getRollupManagerData `{Env}
    (rollupManager : option (rollupManagerContractInterface W))
    : M (option RollupManagerData * option error) :=
  let data := zeroRollupManagerData in
  '(v, err) ← rmCall rollupManager RM_Pol rm_Pol VAddress;
  let data := set_Pol v data in
  iferr err return (None, err);
  _ ← time_Sleep contractRequestInterval;
  '(v, err) ← rmCall rollupManager RM_BridgeAddress rm_BridgeAddress VAddress;
  let data := set_BridgeAddress v data in
  iferr err return (None, err);
  _ ← time_Sleep contractRequestInterval;
  '(v, err) ← rmCall rollupManager RM_RollupCount rm_RollupCount VUint32;
  let data := set_RollupCount v data in
  iferr err return (None, err);
  _ ← time_Sleep contractRequestInterval;
  '(v, err) ← rmCall rollupManager RM_GetBatchFee rm_GetBatchFee VBigInt;
  let data := set_BatchFee v data in
  iferr err return (None, err);
  _ ← time_Sleep contractRequestInterval;
  '(v, err) ← rmCall rollupManager RM_TotalSequencedBatches
                 rm_TotalSequencedBatches VUint64;
  let data := set_TotalSequencedBatches v data in
  iferr err return (None, err);
  _ ← time_Sleep contractRequestInterval;
  '(v, err) ← rmCall rollupManager RM_TotalVerifiedBatches
                 rm_TotalVerifiedBatches VUint64;
  let data := set_TotalVerifiedBatches v data in
  iferr err return (None, err);
  _ ← time_Sleep contractRequestInterval;
  '(v, err) ← rmCall rollupManager RM_LastAggregationTimestamp
                 rm_LastAggregationTimestamp VUint64;
  let data := set_LastAggregationTimestamp v data in
  iferr err return (None, err);
  _ ← time_Sleep contractRequestInterval;
  '(v, err) ← rmCall rollupManager RM_LastDeactivatedEmergencyStateTimestamp
                 rm_LastDeactivatedEmergencyStateTimestamp VUint64;
  let data := set_LastDeactivatedEmergencyStateTimestamp v data in
  iferr err return (None, err);
  _ ← time_Sleep contractRequestInterval;
  ret (Some data, None).

(** ** Rollup manager: enumeration of rollups and rollup types *)

Definition toRollupData (r : binding.rollupData) : RollupData :=
  {| RollupContract := binding.RollupContract r;
     ChainID := binding.ChainID r;
     Verifier := binding.Verifier r;
     ForkID := binding.ForkID r;
     LastLocalExitRoot := binding.LastLocalExitRoot r;
     LastBatchSequenced := binding.LastBatchSequenced r;
     LastVerifiedBatch := binding.LastVerifiedBatch r;
     LastPendingState := binding.LastPendingState r;
     LastPendingStateConsolidated := binding.LastPendingStateConsolidated r;
     LastVerifiedBatchBeforeUpgrade := binding.LastVerifiedBatchBeforeUpgrade r;
     RollupTypeID := binding.RollupTypeID r;
     RollupCompatibilityID := binding.RollupCompatibilityID r |}.

Definition toRollupTypeData (r : binding.rollupType) : RollupTypeData :=
  {| ConsensusImplementation := binding.ConsensusImplementation r;
     TypeVerifier := binding.TypeVerifier r;
     TypeForkID := binding.TypeForkID r;
     TypeRollupCompatibilityID := binding.TypeRollupCompatibilityID r;
     Obsolete := binding.Obsolete r;
     Genesis := binding.Genesis r |}.

(** [for i := uint32(1); i <= rollupCount; i++ { ... }]: one unit of fuel
    per test of the loop condition; [i++] wraps at 32 bits. *)
Fixpoint rollupsLoop `{Env} (fuel : nat)
    (rollupManager : option (rollupManagerContractInterface W))
    (rollupCount i : Z) (rollups : list RollupData)
    : M (option (list RollupData) * option error) :=
  match fuel with
  | O => fun w => (OutOfFuel, w, [])
  | S fuel =>
      if i <=? rollupCount then
        '(rollupData, err) ←
            rmCall rollupManager (RM_RollupIDToRollupData i)
              (fun h => rm_RollupIDToRollupData h i) VRollupData;
        iferr err return (None, err);
        let rollups := rollups ++ [toRollupData rollupData] in
        _ ← time_Sleep contractRequestInterval;
        rollupsLoop fuel rollupManager rollupCount (uint32 (i + 1)) rollups
      else ret (Some rollups, None)
  end.

Definition getRollupManagerRollups `{Env} (fuel : nat)
    (rollupManager : option (rollupManagerContractInterface W))
    : M (option (list RollupData) * option error) :=
  '(rollupCount, err) ← rmCall rollupManager RM_RollupCount rm_RollupCount VUint32;
  iferr err return (None, err);
  _ ← makeslice TRollupData rollupCount;
  let rollups := [] in
  rollupsLoop fuel rollupManager rollupCount (uint32 1) rollups.

Fixpoint rollupTypesLoop `{Env} (fuel : nat)
    (rollupManager : option (rollupManagerContractInterface W))
    (rollupTypeCount i : Z) (rollupTypes : list RollupTypeData)
    : M (option (list RollupTypeData) * option error) :=
  match fuel with
  | O => fun w => (OutOfFuel, w, [])
  | S fuel =>
      if i <=? rollupTypeCount then
        '(rollupType, err) ←
            rmCall rollupManager (RM_RollupTypeMap i)
              (fun h => rm_RollupTypeMap h i) VRollupType;
        iferr err return (None, err);
        let rollupTypes := rollupTypes ++ [toRollupTypeData rollupType] in
        _ ← time_Sleep contractRequestInterval;
        rollupTypesLoop fuel rollupManager rollupTypeCount (uint32 (i + 1)) rollupTypes
      else ret (Some rollupTypes, None)
  end.

Definition getRollupManagerRollupTypes `{Env} (fuel : nat)
    (rollupManager : option (rollupManagerContractInterface W))
    : M (option (list RollupTypeData) * option error) :=
  '(rollupTypeCount, err) ←
      rmCall rollupManager RM_RollupTypeCount rm_RollupTypeCount VUint32;
  iferr err return (None, err);
  _ ← makeslice TRollupTypeData rollupTypeCount;
  let rollupTypes := [] in
  rollupTypesLoop fuel rollupManager rollupTypeCount (uint32 1) rollupTypes.

(** ** [ger.go]: snapshot of the global exit root manager *)

Definition zeroGerData : gerData :=
  {| gerBridgeAddress := zeroAddress; DepositCount := None;
     GetLastGlobalExitRoot := 0; Root := 0; LastMainnetExitRoot := 0;
     LastRollupExitRoot := 0; RollupManager := zeroAddress |}.

Definition set_gerBridgeAddress v d :=
  {| gerBridgeAddress := v; DepositCount := DepositCount d;
     GetLastGlobalExitRoot := GetLastGlobalExitRoot d; Root := Root d;
     LastMainnetExitRoot := LastMainnetExitRoot d;
     LastRollupExitRoot := LastRollupExitRoot d; RollupManager := RollupManager d |}.
Definition set_DepositCount v d :=
  {| gerBridgeAddress := gerBridgeAddress d; DepositCount := v;
     GetLastGlobalExitRoot := GetLastGlobalExitRoot d; Root := Root d;
     LastMainnetExitRoot := LastMainnetExitRoot d;
     LastRollupExitRoot := LastRollupExitRoot d; RollupManager := RollupManager d |}.
Definition set_GetLastGlobalExitRoot v d :=
  {| gerBridgeAddress := gerBridgeAddress d; DepositCount := DepositCount d;
     GetLastGlobalExitRoot := v; Root := Root d;
     LastMainnetExitRoot := LastMainnetExitRoot d;
     LastRollupExitRoot := LastRollupExitRoot d; RollupManager := RollupManager d |}.
Definition set_Root v d :=
  {| gerBridgeAddress := gerBridgeAddress d; DepositCount := DepositCount d;
     GetLastGlobalExitRoot := GetLastGlobalExitRoot d; Root := v;
     LastMainnetExitRoot := LastMainnetExitRoot d;
     LastRollupExitRoot := LastRollupExitRoot d; RollupManager := RollupManager d |}.
Definition set_LastMainnetExitRoot v d :=
  {| gerBridgeAddress := gerBridgeAddress d; DepositCount := DepositCount d;
     GetLastGlobalExitRoot := GetLastGlobalExitRoot d; Root := Root d;
     LastMainnetExitRoot := v;
     LastRollupExitRoot := LastRollupExitRoot d; RollupManager := RollupManager d |}.
Definition set_LastRollupExitRoot v d :=
  {| gerBridgeAddress := gerBridgeAddress d; DepositCount := DepositCount d;
     GetLastGlobalExitRoot := GetLastGlobalExitRoot d; Root := Root d;
     LastMainnetExitRoot := LastMainnetExitRoot d;
     LastRollupExitRoot := v; RollupManager := RollupManager d |}.
Definition set_RollupManager v d :=
  {| gerBridgeAddress := gerBridgeAddress d; DepositCount := DepositCount d;
     GetLastGlobalExitRoot := GetLastGlobalExitRoot d; Root := Root d;
     LastMainnetExitRoot := LastMainnetExitRoot d;
     LastRollupExitRoot := LastRollupExitRoot d; RollupManager := v |}.

Definition getGERData `{Env} (ger : option (gerContractInterface W))
    : M (option gerData * option error) :=
  let data := zeroGerData in
  '(v, err) ← gerCall ger GER_BridgeAddress ger_BridgeAddress VAddress;
  let data := set_gerBridgeAddress v data in
  iferr err return (None, err);
  _ ← time_Sleep contractRequestInterval;
  '(v, err) ← gerCall ger GER_DepositCount ger_DepositCount VBigInt;
  let data := set_DepositCount v data in
  iferr err return (None, err);
  _ ← time_Sleep contractRequestInterval;
  '(v, err) ← gerCall ger GER_GetLastGlobalExitRoot ger_GetLastGlobalExitRoot VHash;
  let data := set_GetLastGlobalExitRoot v data in
  iferr err return (None, err);
  _ ← time_Sleep contractRequestInterval;
  '(v, err) ← gerCall ger GER_GetRoot ger_GetRoot VHash;
  let data := set_Root v data in
  iferr err return (None, err);
  _ ← time_Sleep contractRequestInterval;
  '(v, err) ← gerCall ger GER_LastMainnetExitRoot ger_LastMainnetExitRoot VHash;
  let data := set_LastMainnetExitRoot v data in
  iferr err return (None, err);
  _ ← time_Sleep contractRequestInterval;
  '(v, err) ← gerCall ger GER_LastRollupExitRoot ger_LastRollupExitRoot VHash;
  let data := set_LastRollupExitRoot v data in
  iferr err return (None, err);
  _ ← time_Sleep contractRequestInterval;
  '(v, err) ← gerCall ger GER_RollupManager ger_RollupManager VAddress;
  let data := set_RollupManager v data in
  iferr err return (None, err);
  _ ← time_Sleep contractRequestInterval;
  ret (Some data, None).

(** ** Go's [strconv], base 10

    [ParseUint], [ParseInt] and [Atoi] as the Go library computes them:
    the digit loop with its two overflow tests, the sign and range test
    of [ParseInt], and the short-string fast path of [Atoi]. *)
Module strconv.

Definition syntaxError (fn str : string) : error := NumError fn str ErrSyntax.
Definition rangeError (fn str : string) : error := NumError fn str ErrRange.

(** [lower(c)]: [c | ('x' - 'X')] *)
Definition lower (c : Z) : Z := Z.lor c 32.

Fixpoint parseUintLoop (s0 : string) (base maxVal : Z) (cs : list Z) (n : Z)
    : Z * option error :=
  match cs with
  | [] => (n, None)
  | c :: cs =>
      let digit :=
        if (48 <=? c) && (c <=? 57) then Some (c - 48)
        else if (97 <=? lower c) && (lower c <=? 122) then Some (lower c - 97 + 10)
        else None in
      match digit with
      | None => (0, Some (syntaxError "ParseUint" s0))
      | Some d =>
          if d >=? base then (0, Some (syntaxError "ParseUint" s0))
          else if n >=? maxUint64 / base + 1 then
            (maxVal, Some (rangeError "ParseUint" s0))
          else
            let n := uint64 (n * base) in
            let n1 := uint64 (n + d) in
            if (n1 <? n) || (n1 >? maxVal) then
              (maxVal, Some (rangeError "ParseUint" s0))
            else parseUintLoop s0 base maxVal cs n1
      end
  end.

(** [ParseUint(s, 10, bitSize)] *)
Definition ParseUint (s : string) (bitSize : Z) : Z * option error :=
  if String.eqb s EmptyString then (0, Some (syntaxError "ParseUint" s))
  else
    let bitSize := if bitSize =? 0 then intSize else bitSize in
    let maxVal := 2 ^ bitSize - 1 in
    parseUintLoop s 10 maxVal (bytes s) 0.

(** [ParseInt(s, 10, bitSize)].  [ParseUint] only returns [*NumError]
    values, so the branch for another kind of error is never taken. *)
Definition ParseInt (s : string) (bitSize : Z) : Z * option error :=
  match s with
  | EmptyString => (0, Some (syntaxError "ParseInt" s))
  | String c r =>
      let s0 := s in
      let '(neg, s) :=
        if Ascii.eqb c "+" then (false, r)
        else if Ascii.eqb c "-" then (true, r)
        else (false, s) in
      let '(un, err) := ParseUint s bitSize in
      match err with
      | Some (NumError _ _ ErrSyntax) => (0, Some (syntaxError "ParseInt" s0))
      | Some (errors_New _) => (0, err)
      | _ =>
          let bitSize := if bitSize =? 0 then intSize else bitSize in
          let cutoff := 2 ^ (bitSize - 1) in
          if negb neg && (un >=? cutoff) then
            (cutoff - 1, Some (rangeError "ParseInt" s0))
          else if neg && (un >? cutoff) then
            (- cutoff, Some (rangeError "ParseInt" s0))
          else (if neg then - un else un, None)
      end
  end.

Fixpoint atoiLoop (s0 : string) (cs : list Z) (n : Z) : Z * option error :=
  match cs with
  | [] => (n, None)
  | ch :: cs =>
      let ch := wrap 8 (ch - 48) in
      if ch >? 9 then (0, Some (syntaxError "Atoi" s0))
      else atoiLoop s0 cs (n * 10 + ch)
  end.

Definition Atoi (s : string) : Z * option error :=
  let sLen := len s in
  if ((intSize =? 32) && (0 <? sLen) && (sLen <? 10))
     || ((intSize =? 64) && (0 <? sLen) && (sLen <? 19)) then
    let s0 := s in
    match s with
    | EmptyString => (0, Some (syntaxError "Atoi" s0))
    | String c r =>
        let signed := Ascii.eqb c "-" || Ascii.eqb c "+" in
        let s := if signed then r else s in
        if signed && (len s <? 1) then (0, Some (syntaxError "Atoi" s0))
        else
          match atoiLoop s0 (bytes s) 0 with
          | (n, None) => (if Ascii.eqb c "-" then - n else n, None)
          | bad => bad
          end
    end
  else
    match ParseInt s 0 with
    | (i64, Some (NumError _ num kind)) => (i64, Some (NumError "Atoi" num kind))
    | r => r
    end.

End strconv.

(** ** The [cdk] command: arguments *)

Definition checkAddressArg (argFlagName address : string) : option error :=
  let prefix := "invalid flag " +:+ argFlagName +:+ ": " in
  if negb (IsHexAddress address) then Some (errors_New (prefix +:+ "invalid address"))
  else None.

Definition log_Fatal `{Env} {A} (msg : string) : M A :=
  _ ← emit (EvFatal msg); os_Exit 1.

Definition ethclient_DialContext `{Env} (rpcURL : string)
    : M (option Client * option error) :=
  fun w => let '((c, err), w') := DialContext rpcURL w in
           (Ret (c, err), w', [EvDial rpcURL err]).

Definition mustGetRPCClient `{Env} (rpcURL : string) : M (option Client) :=
  '(rpcClient, err) ← ethclient_DialContext rpcURL;
  match err with
  | Some _ => log_Fatal "Unable to Dial RPC"
  | None => ret rpcClient
  end.

(** [json.MarshalIndent] does not fail on the records printed here, so
    the panic of [mustLogJSONIndent] is not reached: it logs. *)
Definition mustLogJSONIndent `{Env} (v : output) : M unit := emit (EvLogJSON v).

(** [mustPrintJSONIndent] is called by [ger.go] and defined elsewhere; it
    is taken to print its argument. *)
Definition mustPrintJSONIndent `{Env} (v : output) : M unit := emit (EvPrintJSON v).

(** The message of the unknown-fork error: the key slice is made with
    [len(knownForks)] empty strings, the keys are appended, the whole is
    sorted and joined. *)
Definition invalidForkIDMessage : string :=
  let keys := replicate (size knownForks) EmptyString in
  let keys := keys ++ map fst (map_to_list knownForks) in
  let keys := slices_Sort keys in
  "invalid forkID. supported forkIDs are " +:+ join ", " keys.

Definition parseCDKArgs `{Env} (inputArgs : inputArgs)
    : M (option (parsedCDKArgs Client) * option error) :=
  url ← deref (in_rpcURL inputArgs);
  client ← mustGetRPCClient url;
  let args := {| rpcURL := url; rpcClient := client; forkID := 0 |} in
  match in_forkID inputArgs with
  | Some f =>
      if len f >? 0 then
        match knownForks !! f with
        | None => ret (None, Some (errors_New invalidForkIDMessage))
        | Some id =>
            ret (Some {| rpcURL := url; rpcClient := client; forkID := id |}, None)
        end
      else ret (Some args, None)
  | None => ret (Some args, None)
  end.

(** The receiver is [inputArgs]; the body also reads the package variable
    [cdkInputArgs]. *)
Definition parseRollupManagerArgs `{Env} (cdkInputArgs inputArgs : inputArgs)
    (cdkArgs : parsedCDKArgs Client)
    : M (option (parsedRollupManagerArgs W) * option error) :=
  key ← deref (in_rollupManagerAddress cdkInputArgs);
  r ← match knownRollupManagerAddresses !! key with
      | Some knownRollupManagerAddress =>
          ret (inl (HexToAddress knownRollupManagerAddress))
      | None =>
          a ← deref (in_rollupManagerAddress inputArgs);
          match checkAddressArg ArgRollupManagerAddress a with
          | Some e => ret (inr (Some e))
          | None =>
              a' ← deref (in_rollupManagerAddress cdkInputArgs);
              ret (inl (HexToAddress a'))
          end
      end;
  match r with
  | inr err => ret (None, err)
  | inl address =>
      let bound (c : option (rollupManagerContractInterface W) * option error) :=
        let '(rollupManager, err) := c in
        iferr err return (None, err);
        ret (Some {| rollupManager := rollupManager;
                     rollupManagerAddress := address |}, None) in
      if forkID cdkArgs =? etrog then
        bound (etrog_NewPolygonrollupmanager address (rpcClient cdkArgs))
      else if forkID cdkArgs =? elderberry then
        bound (elderberry_NewPolygonrollupmanager address (rpcClient cdkArgs))
      else if forkID cdkArgs =? banana then
        bound (banana_NewPolygonrollupmanager address (rpcClient cdkArgs))
      else
        ret (Some {| rollupManager := None; rollupManagerAddress := address |}, None)
  end.

Definition nonEmpty (p : option string) : option string :=
  match p with
  | Some s => if len s >? 0 then Some s else None
  | None => None
  end.

Definition invalidRollupChainID (s : string) : error :=
  errors_New ("invalid rollupChainID: " +:+ s +:+ ", it must be a valid uint64").

Definition invalidRollupID (s : string) : error :=
  errors_New ("invalid rollupID: " +:+ s +:+ ", it must be a valid uint32").

Definition noRollupSelector : error :=
  errors_New (ArgRollupID +:+ ", " +:+ ArgRollupChainID +:+ ", or "
              +:+ ArgRollupAddress +:+ " must be provided").

(** The three blocks of [parseRollupArgs]; a block either falls through
    with the value it computed ([inl]) or returns from the function
    ([inr]). *)
Definition parseRollupArgs_chainID `{Env} (cdkInputArgs : inputArgs)
    : M (Z + option error) :=
  match nonEmpty (in_rollupChainID cdkInputArgs) with
  | Some s =>
      let '(rollupChainIDN, err) := strconv.ParseInt s 64 in
      if bool_decide (err ≠ None) || (rollupChainIDN <? 0) then
        shown ← deref (in_rollupID cdkInputArgs);
        ret (inr (Some (invalidRollupChainID shown)))
      else ret (inl (uint64 rollupChainIDN))
  | None => ret (inl 0)
  end.

Definition parseRollupArgs_address (inputArgs : inputArgs) : Address + option error :=
  match nonEmpty (in_rollupAddress inputArgs) with
  | Some s =>
      match checkAddressArg ArgRollupAddress s with
      | Some e => inr (Some e)
      | None => inl (HexToAddress s)
      end
  | None => inl zeroAddress
  end.

Definition parseRollupArgs_rollupID `{Env} (cdkInputArgs : inputArgs)
    (rollupManagerArgs : option (parsedRollupManagerArgs W))
    (rollupChainID : Z) (rollupAddress : Address)
    : M (Z + option error) :=
  match nonEmpty (in_rollupID cdkInputArgs) with
  | Some s =>
      let '(rollupIDN, err) := strconv.Atoi s in
      if bool_decide (err ≠ None) || (rollupIDN <? 0) then
        ret (inr (Some (invalidRollupID s)))
      else ret (inl (uint32 rollupIDN))
  | None =>
      if (rollupChainID =? 0) && (rollupAddress =? zeroAddress) then
        ret (inr (Some noRollupSelector))
      else if negb (rollupChainID =? 0) then
        a ← deref rollupManagerArgs;
        '(rollupID, err) ←
            rmCall (rollupManager a) (RM_ChainIDToRollupID rollupChainID)
              (fun h => rm_ChainIDToRollupID h rollupChainID) VUint32;
        iferr err return (inr err);
        ret (inl rollupID)
      else if negb (rollupAddress =? zeroAddress) then
        a ← deref rollupManagerArgs;
        '(rollupID, err) ←
            rmCall (rollupManager a) (RM_RollupAddressToID rollupAddress)
              (fun h => rm_RollupAddressToID h rollupAddress) VUint32;
        iferr err return (inr err);
        ret (inl rollupID)
      else ret (inl 0)
  end.

Definition parseRollupArgs `{Env} (cdkInputArgs inputArgs : inputArgs)
    (rollupManagerArgs : option (parsedRollupManagerArgs W))
    : M (option parsedRollupArgs * option error) :=
  c ← parseRollupArgs_chainID cdkInputArgs;
  match c with
  | inr err => ret (None, err)
  | inl rollupChainID =>
      match parseRollupArgs_address inputArgs with
      | inr err => ret (None, err)
      | inl rollupAddress =>
          i ← parseRollupArgs_rollupID cdkInputArgs rollupManagerArgs
                rollupChainID rollupAddress;
          match i with
          | inr err => ret (None, err)
          | inl rollupID =>
              ret (Some {| rollupID := rollupID; rollupChainID := rollupChainID;
                           rollupAddress := rollupAddress |}, None)
          end
      end
  end.

(** ** Resolution of the dependent contracts, as the commands call it *)

Definition resolveRollupManager `{Env} (cdkArgs : option (parsedCDKArgs Client))
    (rpcClient : option Client) (addr : Address)
    : M (option (rollupManagerContractInterface W) * option ABI * option error) :=
  let r := getRollupManager cdkArgs rpcClient addr in
  _ ← emit (EvResolve KRollupManager addr r.2); ret r.

Definition resolveBridge `{Env} (cdkArgs : option (parsedCDKArgs Client))
    (rpcClient : option Client) (addr : Address)
    : M (option bridgeHandle * option ABI * option error) :=
  let r := getBridge cdkArgs rpcClient addr in
  _ ← emit (EvResolve KBridge addr r.2); ret r.

Definition resolveGER `{Env} (cdkArgs : option (parsedCDKArgs Client))
    (rpcClient : option Client) (addr : Address)
    : M (option (ger W reflectValue) * option ABI * option error) :=
  let r := getGER cdkArgs rpcClient addr in
  _ ← emit (EvResolve KGER addr r.2); ret r.

Definition callGetBridgeData `{Env} (bridge : option bridgeHandle)
    : M (option bridgeData * option error) :=
  fun w => let '((d, err), w') := getBridgeData bridge w in
           (Ret (d, err), w', [EvGetBridgeData (GlobalExitRootManager <$> d) err]).

Definition callWatchNewLogs `{Env} (rpcClient : option Client)
    (filter : customFilter reflectValue ABI) : M (option error) :=
  fun w => let '(err, w') := watchNewLogs rpcClient filter w in
           (Ret err, w', [EvWatch (blockchainFilter_Addresses filter) err]).

(** ** Rollup manager: commands

    Every command reads the package variable [cdkInputArgs] and returns
    Go's [error]. *)

Definition rollupManagerListRollups `{Env} (fuel : nat) (cdkInputArgs : inputArgs)
    : M (option error) :=
  '(cdkArgs, err) ← parseCDKArgs cdkInputArgs;
  iferr err return err;
  a ← deref cdkArgs;
  rpcClient ← mustGetRPCClient (rpcURL a);
  a ← deref cdkArgs;
  '(rollupManagerArgs, err) ← parseRollupManagerArgs cdkInputArgs cdkInputArgs a;
  iferr err return err;
  rma ← deref rollupManagerArgs;
  '(rollupManager, _, err) ←
      resolveRollupManager cdkArgs rpcClient (rollupManagerAddress rma);
  iferr err return err;
  '(rollups, err) ← getRollupManagerRollups fuel rollupManager;
  iferr err return err;
  _ ← mustLogJSONIndent (OutRollups rollups);
  ret None.

Definition rollupManagerListRollupTypes `{Env} (fuel : nat) (cdkInputArgs : inputArgs)
    : M (option error) :=
  '(cdkArgs, err) ← parseCDKArgs cdkInputArgs;
  iferr err return err;
  a ← deref cdkArgs;
  rpcClient ← mustGetRPCClient (rpcURL a);
  a ← deref cdkArgs;
  '(rollupManagerArgs, err) ← parseRollupManagerArgs cdkInputArgs cdkInputArgs a;
  iferr err return err;
  rma ← deref rollupManagerArgs;
  '(rollupManager, _, err) ←
      resolveRollupManager cdkArgs rpcClient (rollupManagerAddress rma);
  iferr err return err;
  '(rollupTypes, err) ← getRollupManagerRollupTypes fuel rollupManager;
  iferr err return err;
  _ ← mustLogJSONIndent (OutRollupTypes rollupTypes);
  ret None.

Definition rollupManagerInspect `{Env} (cdkInputArgs : inputArgs) : M (option error) :=
  '(cdkArgs, err) ← parseCDKArgs cdkInputArgs;
  iferr err return err;
  a ← deref cdkArgs;
  rpcClient ← mustGetRPCClient (rpcURL a);
  a ← deref cdkArgs;
  '(rollupManagerArgs, err) ← parseRollupManagerArgs cdkInputArgs cdkInputArgs a;
  iferr err return err;
  rma ← deref rollupManagerArgs;
  '(rollupManager, _, err) ←
      resolveRollupManager cdkArgs rpcClient (rollupManagerAddress rma);
  iferr err return err;
  '(data, err) ← getRollupManagerData rollupManager;
  iferr err return err;
  _ ← mustLogJSONIndent (OutRollupManagerData data);
  ret None.

Definition rollupManagerDump `{Env} (fuel : nat) (cdkInputArgs : inputArgs)
    : M (option error) :=
  '(cdkArgs, err) ← parseCDKArgs cdkInputArgs;
  iferr err return err;
  a ← deref cdkArgs;
  rpcClient ← mustGetRPCClient (rpcURL a);
  a ← deref cdkArgs;
  '(rollupManagerArgs, err) ← parseRollupManagerArgs cdkInputArgs cdkInputArgs a;
  iferr err return err;
  rma ← deref rollupManagerArgs;
  '(rollupManager, _, err) ←
      resolveRollupManager cdkArgs rpcClient (rollupManagerAddress rma);
  iferr err return err;
  let data := {| Data := None; Rollups := None; RollupTypes := None |} in
  '(d, err) ← getRollupManagerData rollupManager;
  let data := {| Data := d; Rollups := Rollups data; RollupTypes := RollupTypes data |} in
  iferr err return err;
  '(rs, err) ← getRollupManagerRollups fuel rollupManager;
  let data := {| Data := Data data; Rollups := rs; RollupTypes := RollupTypes data |} in
  iferr err return err;
  '(ts, err) ← getRollupManagerRollupTypes fuel rollupManager;
  let data := {| Data := Data data; Rollups := Rollups data; RollupTypes := ts |} in
  iferr err return err;
  _ ← mustLogJSONIndent (OutRollupManagerDump data);
  ret None.

Definition rollupManagerMonitor `{Env} (cdkInputArgs : inputArgs) : M (option error) :=
  panic "not implemented".

(** ** [ger.go]: commands *)

Definition asGerContractInterface {W RV} (g : option (ger W RV))
    : option (gerContractInterface W) :=
  match g with
  | Some g => ger_iface g
  | None => None
  end.

Definition gerInspect `{Env} (cdkInputArgs : inputArgs) : M (option error) :=
  '(cdkArgs, err) ← parseCDKArgs cdkInputArgs;
  iferr err return err;
  a ← deref cdkArgs;
  rpcClient ← mustGetRPCClient (rpcURL a);
  a ← deref cdkArgs;
  '(rollupManagerArgs, err) ← parseRollupManagerArgs cdkInputArgs cdkInputArgs a;
  iferr err return err;
  rma ← deref rollupManagerArgs;
  '(rollupManager, _, err) ←
      resolveRollupManager cdkArgs rpcClient (rollupManagerAddress rma);
  iferr err return err;
  '(rollupManagerData, err) ← getRollupManagerData rollupManager;
  iferr err return err;
  rmd ← deref rollupManagerData;
  '(bridge, _, err) ← resolveBridge cdkArgs rpcClient (BridgeAddress rmd);
  iferr err return err;
  '(bridgeData, err) ← callGetBridgeData bridge;
  iferr err return err;
  bd ← deref bridgeData;
  '(ger, _, err) ← resolveGER cdkArgs rpcClient (GlobalExitRootManager bd);
  iferr err return err;
  '(data, err) ← getGERData (asGerContractInterface ger);
  iferr err return err;
  _ ← mustPrintJSONIndent (OutGERData data);
  ret None.

Definition gerDump `{Env} (cdkInputArgs : inputArgs) : M (option error) :=
  '(cdkArgs, err) ← parseCDKArgs cdkInputArgs;
  iferr err return err;
  a ← deref cdkArgs;
  rpcClient ← mustGetRPCClient (rpcURL a);
  a ← deref cdkArgs;
  '(rollupManagerArgs, err) ← parseRollupManagerArgs cdkInputArgs cdkInputArgs a;
  iferr err return err;
  rma ← deref rollupManagerArgs;
  '(rollupManager, _, err) ←
      resolveRollupManager cdkArgs rpcClient (rollupManagerAddress rma);
  iferr err return err;
  '(rollupManagerData, err) ← getRollupManagerData rollupManager;
  iferr err return err;
  rmd ← deref rollupManagerData;
  '(bridge, _, err) ← resolveBridge cdkArgs rpcClient (BridgeAddress rmd);
  iferr err return err;
  '(bridgeData, err) ← callGetBridgeData bridge;
  iferr err return err;
  bd ← deref bridgeData;
  '(ger, _, err) ← resolveGER cdkArgs rpcClient (GlobalExitRootManager bd);
  iferr err return err;
  '(d, err) ← getGERData (asGerContractInterface ger);
  let data := {| gerDump_Data := d |} in
  iferr err return err;
  _ ← mustPrintJSONIndent (OutGERDump data);
  ret None.

Definition gerMonitor `{Env} (cdkInputArgs : inputArgs) : M (option error) :=
  '(cdkArgs, err) ← parseCDKArgs cdkInputArgs;
  iferr err return err;
  a ← deref cdkArgs;
  rpcClient ← mustGetRPCClient (rpcURL a);
  a ← deref cdkArgs;
  '(rollupManagerArgs, err) ← parseRollupManagerArgs cdkInputArgs cdkInputArgs a;
  iferr err return err;
  rma ← deref rollupManagerArgs;
  '(rollupManager, _, err) ←
      resolveRollupManager cdkArgs rpcClient (rollupManagerAddress rma);
  iferr err return err;
  '(rollupManagerData, err) ← getRollupManagerData rollupManager;
  iferr err return err;
  rmd ← deref rollupManagerData;
  '(bridge, _, err) ← resolveBridge cdkArgs rpcClient (BridgeAddress rmd);
  iferr err return err;
  '(bridgeData, err) ← callGetBridgeData bridge;
  iferr err return err;
  bd ← deref bridgeData;
  '(ger, gerABI, err) ← resolveGER cdkArgs rpcClient (GlobalExitRootManager bd);
  iferr err return err;
  g ← deref ger;
  let filter := {| contractInstance := instance g;
                   contractABI := gerABI;
                   blockchainFilter_Addresses := [GlobalExitRootManager bd] |} in
  err ← callWatchNewLogs rpcClient filter;
  iferr err return err;
  ret None.

(** ** The event monitor

    [watchNewLogs] is called by [gerMonitor] and defined in another file
    of the package; the monitor is taken from section 4.4 of the
    specification. *)
Module EventMonitor.

Record rawLog := {
  log_address : Address;
  log_topics : list Hash;
  log_data : list Z;
  log_blockNumber : Z;
  log_index : Z
}.

(** One event of an ABI: its name, its topic signature and how the
    indexed and non-indexed fields of an entry decode into named
    arguments ([None]: the entry does not have the event's structure). *)
Record eventDef := {
  ev_name : string;
  ev_signature : Hash;
  ev_decode : rawLog -> option (list (string * Z))
}.

Record DecodedEvent := {
  name : string;
  emitter : Address;
  position : Z * Z;
  arguments : list (string * Z)
}.

Inductive report :=
| Yield (e : DecodedEvent)
| DecodeError (entry : rawLog).

(** What the transport hands to the monitor, in order: an entry that
    matched the filter, or the cancellation signal. *)
Inductive delivery :=
| Delivered (entry : rawLog)
| Cancelled.

Record filterSpec := {
  filter_addresses : list Address;
  filter_topics : option (list Hash)
}.

(** Modelled from the spec: the lookup of [watchNewLogs] (not in the
    sources at hand), the event definition of the ABI whose signature is
    the first topic of the entry. *)
Definition lookupEvent (abi : list eventDef) (entry : rawLog) : option eventDef :=
  match log_topics entry with
  | [] => None
  | sig :: _ => List.find (fun d => ev_signature d =? sig) abi
  end.

Definition decoded (d : eventDef) (entry : rawLog) (args : list (string * Z))
    : DecodedEvent :=
  {| name := ev_name d; emitter := log_address entry;
     position := (log_blockNumber entry, log_index entry); arguments := args |}.

(** Modelled from the spec: what [watchNewLogs] (not in the sources at
    hand) does with one entry: nothing when no event matches, a decode
    error when the entry does not decode, the decoded event otherwise. *)
Definition handleLog (abi : list eventDef) (entry : rawLog) : list report :=
  match lookupEvent abi entry with
  | None => []
  | Some d =>
      match ev_decode d entry with
      | Some args => [Yield (decoded d entry args)]
      | None => [DecodeError entry]
      end
  end.

(** Modelled from the spec: the loop of [watchNewLogs] (not in the
    sources at hand) over what the transport delivers, in order, until
    the cancellation signal. *)
Fixpoint process (abi : list eventDef) (ds : list delivery) : list report :=
  match ds with
  | [] => []
  | Cancelled :: _ => []
  | Delivered entry :: rest => handleLog abi entry ++ process abi rest
  end.

(** Modelled from the spec: [watchNewLogs], the event monitor, is not in
    the sources at hand.  Section 4.4: for each raw log entry received
    from the transport, look up the event definition in the handle's ABI
    by the entry's topic signature; skip the entry when there is none;
    report a decode error for the entry when it does not decode; yield
    the decoded event otherwise; keep the order of delivery; stop at the
    cancellation signal. *)
Definition watch (abi : list eventDef) (transport : filterSpec -> list delivery)
    (spec : filterSpec) : list report :=
  process abi (transport spec).

Definition is_delivered (d : delivery) : bool :=
  match d with Delivered _ => true | Cancelled => false end.

Definition yields (rs : list report) : list DecodedEvent :=
  omap (fun r => match r with Yield e => Some e | _ => None end) rs.

Definition decodeErrors (rs : list report) : list rawLog :=
  omap (fun r => match r with DecodeError l => Some l | _ => None end) rs.

(** The scenario of three entries: a transfer event of two words, and a
    transport that delivers a valid entry, one of the same signature with
    a truncated body, and one of an unknown signature. *)
Definition transferEvent : eventDef :=
  {| ev_name := "Transfer"; ev_signature := 0xddf252ad;
     ev_decode := fun l =>
       match log_topics l, log_data l with
       | [_; from], [amount] => Some [("from", from); ("amount", amount)]
       | _, _ => None
       end |}.

Definition validEntry : rawLog :=
  {| log_address := 0xBBBB; log_topics := [0xddf252ad; 0x11];
     log_data := [500]; log_blockNumber := 10; log_index := 0 |}.
Definition malformedEntry : rawLog :=
  {| log_address := 0xBBBB; log_topics := [0xddf252ad];
     log_data := []; log_blockNumber := 10; log_index := 1 |}.
Definition unknownEntry : rawLog :=
  {| log_address := 0xBBBB; log_topics := [0x8c5be1e5; 0x11];
     log_data := [1]; log_blockNumber := 11; log_index := 0 |}.

Definition scenarioTransport (spec : filterSpec) : list delivery :=
  map Delivered
    (List.filter (fun l => bool_decide (log_address l ∈ filter_addresses spec))
       [validEntry; malformedEntry; unknownEntry]).

Definition scenarioFilter : filterSpec :=
  {| filter_addresses := [0xBBBB]; filter_topics := None |}.

End EventMonitor.

(** ** Observations on a run *)

Definition outcome_of {A S} (r : outcome A * S * list event) : outcome A := r.1.1.
Definition trace_of {A S} (r : outcome A * S * list event) : list event := r.2.

Definition is_read (ev : event) : bool :=
  match ev with
  | EvRollupManager _ _ _ | EvGER _ _ _ => true
  | _ => false
  end.

(** The read calls of a run, in order. *)
Definition reads (t : list event) : list event := List.filter is_read t.

Definition read_error (ev : event) : option error :=
  match ev with
  | EvRollupManager _ _ err | EvGER _ _ err => err
  | _ => None
  end.

(** The error of a failed step: a read, a resolution, the bridge data or
    the watch. *)
Definition step_error (ev : event) : option error :=
  match ev with
  | EvRollupManager _ _ err | EvGER _ _ err | EvResolve _ _ err
  | EvGetBridgeData _ err | EvWatch _ err => err
  | _ => None
  end.

Definition failures (t : list event) : list error := omap step_error t.

Definition rmOps (t : list event) : list rm_op :=
  omap (fun ev => match ev with EvRollupManager op _ _ => Some op | _ => None end) t.

Definition rollupIndices (t : list event) : list Z :=
  omap (fun ev => match ev with
                  | EvRollupManager (RM_RollupIDToRollupData i) _ _ => Some i
                  | _ => None end) t.

Definition rollupValues (t : list event) : list binding.rollupData :=
  omap (fun ev => match ev with
                  | EvRollupManager (RM_RollupIDToRollupData _) (VRollupData r) None => Some r
                  | _ => None end) t.

Definition rollupTypeValues (t : list event) : list binding.rollupType :=
  omap (fun ev => match ev with
                  | EvRollupManager (RM_RollupTypeMap _) (VRollupType r) None => Some r
                  | _ => None end) t.

Definition contractKind_eqb (a b : contractKind) : bool :=
  match a, b with
  | KRollupManager, KRollupManager | KBridge, KBridge | KGER, KGER => true
  | _, _ => false
  end.

(** The addresses at which contracts of kind [k] were resolved. *)
Definition resolvedAt (k : contractKind) (t : list event) : list Address :=
  omap (fun ev => match ev with
                  | EvResolve k' a _ => if contractKind_eqb k k' then Some a else None
                  | _ => None end) t.

(** The bridge addresses the rollup manager reported. *)
Definition reportedBridge (t : list event) : list Address :=
  omap (fun ev => match ev with
                  | EvRollupManager RM_BridgeAddress (VAddress a) None => Some a
                  | _ => None end) t.

(** The exit-root-manager addresses the bridge reported. *)
Definition reportedGER (t : list event) : list Address :=
  omap (fun ev => match ev with
                  | EvGetBridgeData (Some a) None => Some a
                  | _ => None end) t.

(** The events before the first resolution of a contract of kind [k]. *)
Fixpoint beforeResolve (k : contractKind) (t : list event) : option (list event) :=
  match t with
  | [] => None
  | ev :: r =>
      match ev with
      | EvResolve k' _ _ =>
          if contractKind_eqb k k' then Some []
          else cons ev <$> beforeResolve k r
      | _ => cons ev <$> beforeResolve k r
      end
  end.

Definition watched (t : list event) : list (list Address) :=
  omap (fun ev => match ev with EvWatch a _ => Some a | _ => None end) t.

(** The eight reads of the rollup-manager snapshot, in the order of
    [getRollupManagerData]. *)
Definition rollupManagerSnapshotOps : list rm_op :=
  [RM_Pol; RM_BridgeAddress; RM_RollupCount; RM_GetBatchFee;
   RM_TotalSequencedBatches; RM_TotalVerifiedBatches;
   RM_LastAggregationTimestamp; RM_LastDeactivatedEmergencyStateTimestamp].

(** ** Test doubles

    A chain whose state is the number of calls made so far; the call of
    number [failAt] fails. *)
Module Stub.

Definition reverted : error := errors_New "execution reverted".

Definition failing (failAt : option nat) (n : nat) : option error :=
  if bool_decide (failAt = Some n) then Some reverted else None.

Definition answer {T} (failAt : option nat) (v : T) : read nat T :=
  fun n => ((v, failing failAt n), S n).

Definition rollup (i : Z) : binding.rollupData :=
  {| binding.RollupContract := 0xC000 + i; binding.ChainID := 1000 + i;
     binding.Verifier := 0xD000; binding.ForkID := 12;
     binding.LastLocalExitRoot := 0; binding.LastBatchSequenced := 10 * i;
     binding.LastVerifiedBatch := 9 * i; binding.LastPendingState := 0;
     binding.LastPendingStateConsolidated := 0;
     binding.LastVerifiedBatchBeforeUpgrade := 0;
     binding.RollupTypeID := 1; binding.RollupCompatibilityID := 0 |}.

Definition rollupType (i : Z) : binding.rollupType :=
  {| binding.ConsensusImplementation := 0xE000 + i;
     binding.TypeVerifier := 0xD000; binding.TypeForkID := 12;
     binding.TypeRollupCompatibilityID := 0; binding.Obsolete := false;
     binding.Genesis := i |}.

Definition bridgeAddress : Address := 0xBBBB.
Definition gerAddress : Address := 0xCCCC.

Definition rollupManager (failAt : option nat) (count : Z)
    : rollupManagerContractInterface nat :=
  {| rm_Pol := answer failAt 0x9999;
     rm_BridgeAddress := answer failAt bridgeAddress;
     rm_RollupCount := answer failAt count;
     rm_GetBatchFee := answer failAt (Some 100);
     rm_TotalSequencedBatches := answer failAt 70;
     rm_TotalVerifiedBatches := answer failAt 60;
     rm_LastAggregationTimestamp := answer failAt 1700000000;
     rm_LastDeactivatedEmergencyStateTimestamp := answer failAt 0;
     rm_RollupIDToRollupData := fun i => answer failAt (rollup i);
     rm_RollupTypeCount := answer failAt count;
     rm_RollupTypeMap := fun i => answer failAt (rollupType i);
     rm_ChainIDToRollupID := fun c => answer failAt (c - 1000);
     rm_RollupAddressToID := fun a => answer failAt (a - 0xC000) |}.

Definition gerContract (failAt : option nat) : gerContractInterface nat :=
  {| ger_BridgeAddress := answer failAt bridgeAddress;
     ger_DepositCount := answer failAt (Some 5);
     ger_GetLastGlobalExitRoot := answer failAt 0x1111;
     ger_GetRoot := answer failAt 0x2222;
     ger_LastMainnetExitRoot := answer failAt 0x3333;
     ger_LastRollupExitRoot := answer failAt 0x4444;
     ger_RollupManager := answer failAt 0xAAAA |}.

(** The stub chain on a machine that has room for slices of up to [room]
    elements. *)
Definition envWith (room : Z) (dialError : option error) (failAt : option nat)
    (count : Z) : Env :=
  {| W := nat; Client := string; ABI := unit; reflectValue := unit;
     bridgeHandle := unit; bridgeData := Address;
     GlobalExitRootManager := fun a => a;
     DialContext := fun url n =>
       match dialError with
       | Some e => ((None, Some e), n)
       | None => ((Some url, None), n)
       end;
     etrog_NewPolygonrollupmanager := fun _ _ => (Some (rollupManager failAt count), None);
     elderberry_NewPolygonrollupmanager := fun _ _ => (Some (rollupManager failAt count), None);
     banana_NewPolygonrollupmanager := fun _ _ => (Some (rollupManager failAt count), None);
     getRollupManager := fun _ _ _ => (Some (rollupManager failAt count), Some tt, None);
     getBridge := fun _ _ _ => (Some tt, Some tt, None);
     getBridgeData := fun _ n => ((Some gerAddress, failing failAt n), S n);
     getGER := fun _ _ _ =>
       (Some {| ger_iface := Some (gerContract failAt); instance := tt |}, Some tt, None);
     watchNewLogs := fun _ _ n => (None, n);
     allocates := fun _ cap => cap <=? room |}.

Definition env : option error -> option nat -> Z -> Env := envWith (2 ^ 20).

Definition args (fork : string) : inputArgs :=
  {| in_rpcURL := Some defaultRPCURL;
     in_forkID := Some fork;
     in_rollupManagerAddress := Some "0xAAAAaaaaAAAAaaaaAAAAaaaaAAAAaaaaAAAAaaaa";
     in_rollupID := Some EmptyString;
     in_rollupChainID := Some EmptyString;
     in_rollupAddress := Some EmptyString |}.

Definition rollupArgs (fork rollupID chainID : string) : inputArgs :=
  {| in_rpcURL := Some defaultRPCURL;
     in_forkID := Some fork;
     in_rollupManagerAddress := Some "0xAAAAaaaaAAAAaaaaAAAAaaaaAAAAaaaaAAAAaaaa";
     in_rollupID := Some rollupID;
     in_rollupChainID := Some chainID;
     in_rollupAddress := Some EmptyString |}.

End Stub.

(** ** Dial failures and the commands *)

Definition is_dial (ev : event) : bool :=
  match ev with EvDial _ _ => true | _ => false end.

(** A computation in which a failed dial ends the process. *)
Definition dial_fatal `{Env} {A} (m : M A) : Prop :=
  forall w url e, In (EvDial url (Some e)) (trace_of (m w)) -> outcome_of (m w) = Exit 1.

(** The command functions of the [rollup-manager] and [ger] commands. *)
Definition commands `{Env} (fuel : nat) : list (inputArgs -> M (option error)) :=
  [ rollupManagerListRollups fuel; rollupManagerListRollupTypes fuel;
    rollupManagerInspect; rollupManagerDump fuel; rollupManagerMonitor;
    gerInspect; gerDump; gerMonitor ].

(** ** The chain walk of the [ger] commands *)

Definition gerCommands `{Env} : list (inputArgs -> M (option error)) :=
  [gerInspect; gerDump; gerMonitor].

(** A computation that neither touches the chain nor causes an event. *)
Definition silent `{Env} {A} (m : M A) : Prop :=
  forall w, exists o,
    m w = (o, w, []) /\ ((exists a, o = Ret a) \/ (exists msg, o = Panic msg)).

(** What a run of a [ger] command has done, read off its outcome [o] and
    its events [t]: what came before the bridge and the exit-root manager
    were resolved and where they were resolved, how a failed step ends
    the run, and what was watched ([monitor] tells the monitor command
    from the other two). *)
Definition walk_ok (monitor : bool) (o : outcome (option error)) (t : list event) : Prop :=
  (forall t1, beforeResolve KBridge t = Some t1 ->
     rmOps t1 = rollupManagerSnapshotOps /\ failures t1 = [] /\
     reportedBridge t1 = resolvedAt KBridge t /\
     length (resolvedAt KBridge t) = 1%nat) /\
  (forall t2, beforeResolve KGER t = Some t2 ->
     failures t2 = [] /\
     reportedGER t2 = resolvedAt KGER t /\
     length (resolvedAt KGER t) = 1%nat) /\
  (forall e, In e (failures t) ->
     o = Ret (Some e) /\ failures t = [e] /\ last t ≫= step_error = Some e) /\
  (o = Ret None ->
     length (resolvedAt KBridge t) = 1%nat /\ length (resolvedAt KGER t) = 1%nat /\
     failures t = [] /\
     watched t = if monitor then [resolvedAt KGER t] else []) /\
  (monitor = false -> watched t = []).

(** The arguments of a [ger] command have been read: [parseCDKArgs]
    returned [a], the command's own dial the client [c] and
    [parseRollupManagerArgs] the arguments [rma]; this left the chain in
    state [w3] and caused the events [t0]. *)
Definition opened `{Env} (args : inputArgs) (w : W) (a : parsedCDKArgs Client)
    (c : option Client) (rma : parsedRollupManagerArgs W) (w3 : W) (t0 : list event)
    : Prop :=
  exists w1 w2 t1 t2 t3,
    parseCDKArgs args w = (Ret (Some a, None), w1, t1) /\
    mustGetRPCClient (rpcURL a) w1 = (Ret c, w2, t2) /\
    parseRollupManagerArgs args args a w2 = (Ret (Some rma, None), w3, t3) /\
    t0 = t1 ++ t2 ++ t3.

(** What a [ger] command does with the exit-root manager it resolved,
    the handle [g] with the ABI [gabi] at [address], from the state [w5]
    on: [gerInspect] and [gerDump] run [getGERData] on the handle and
    print at most one document; [gerMonitor] hands the instance of the
    handle, its ABI and its one address to [watchNewLogs], and does
    nothing more on a nil handle. *)
Definition atExitRootManager `{Env} (c : option Client)
    (g : option (ger W reflectValue)) (gabi : option ABI) (address : Address) (w5 : W)
    (rest : list event) : Prop :=
  (exists out,
      rest = trace_of (getGERData (asGerContractInterface g) w5) ++ out /\
      (out = [] \/ exists v, out = [EvPrintJSON v])) \/
  (exists g',
      g = Some g' /\
      rest = [EvWatch [address]
                (watchNewLogs c {| contractInstance := instance g';
                                   contractABI := gabi;
                                   blockchainFilter_Addresses := [address] |} w5).1]) \/
  (g = None /\ rest = []).

(** The calls of [getBridgeData] in a run: the exit-root-manager address
    of the data and the error of each. *)
Definition bridgeDataCalls (t : list event) : list (option Address * option error) :=
  omap (fun ev => match ev with
                  | EvGetBridgeData g err => Some (g, err)
                  | _ => None end) t.

(** ** Decimal numerals

    The value of a signed decimal numeral, [[+-]?[0-9]+], stated apart
    from [strconv]; [None] for any other string. *)

Definition isDigit (c : Z) : bool := (48 <=? c) && (c <=? 57).

Fixpoint digitsValue (cs : list Z) (acc : Z) : option Z :=
  match cs with
  | [] => Some acc
  | c :: cs => if isDigit c then digitsValue cs (acc * 10 + (c - 48)) else None
  end.

Definition numericValue (s : string) : option Z :=
  match s with
  | EmptyString => None
  | String c r =>
      if Ascii.eqb c "+" then
        match r with EmptyString => None | _ => digitsValue (bytes r) 0 end
      else if Ascii.eqb c "-" then
        match r with EmptyString => None | _ => Z.opp <$> digitsValue (bytes r) 0 end
      else digitsValue (bytes s) 0
  end.

Definition minInt64 : Z := - 2 ^ 63.
Definition maxInt64 : Z := 2 ^ 63 - 1.

Definition fitsInt (v : Z) : option Z :=
  if (minInt64 <=? v) && (v <=? maxInt64) then Some v else None.

Definition accepted (r : Z * option error) : option Z :=
  match r with
  | (v, None) => Some v
  | (_, Some _) => None
  end.

(** The other two selectors of [parseRollupArgs] pass their own checks. *)
Definition chainIDAccepted (p : option string) : Prop :=
  match nonEmpty p with
  | None => True
  | Some c => exists n, accepted (strconv.ParseInt c 64) = Some n /\ 0 <= n
  end.

Definition addressAccepted (p : option string) : Prop :=
  match nonEmpty p with
  | None => True
  | Some a => IsHexAddress a = true
  end.

(** ** Values of the flags

    What the argument functions make of a flag, stated apart from them. *)

(** The value [parseRollupArgs] takes for the chain ID: [0] when the flag
    is nil or empty, the numeral's value when it is one between [0] and
    [2^63 - 1], nothing otherwise. *)
Definition chainIDValue (p : option string) : option Z :=
  match nonEmpty p with
  | None => Some 0
  | Some c =>
      match numericValue c ≫= fitsInt with
      | Some n => if n <? 0 then None else Some n
      | None => None
      end
  end.

(** The value it takes for the rollup address: the zero address when the
    flag is nil or empty, the address of a valid literal, nothing
    otherwise. *)
Definition rollupAddressValue (p : option string) : option Address :=
  match nonEmpty p with
  | None => Some zeroAddress
  | Some a => if IsHexAddress a then Some (HexToAddress a) else None
  end.

(** The address [parseRollupManagerArgs] resolves: that of a known
    network name, or a valid literal. *)
Definition rollupManagerAddressValue (key : string) : option Address :=
  match knownRollupManagerAddresses !! key with
  | Some known => Some (HexToAddress known)
  | None => if IsHexAddress key then Some (HexToAddress key) else None
  end.

(** The error of [checkAddressArg] for the flag [flag]. *)
Definition invalidAddress (flag : string) : error :=
  errors_New ("invalid flag " +:+ flag +:+ ": invalid address").

(** What [parseRollupManagerArgs] makes of the result of a binding
    constructor. *)
Definition boundAt {W} (address : Address)
    (c : option (rollupManagerContractInterface W) * option error)
    : option (parsedRollupManagerArgs W) * option error :=
  match c with
  | (_, Some e) => (None, Some e)
  | (h, None) => (Some {| rollupManager := h; rollupManagerAddress := address |}, None)
  end.

(** Flags with the rollup-manager address given and the defaults of
    [init] for the rest. *)
Definition managerArgs (address : string) : inputArgs :=
  {| in_rpcURL := Some defaultRPCURL;
     in_forkID := Some defaultForkId;
     in_rollupManagerAddress := Some address;
     in_rollupID := Some EmptyString;
     in_rollupChainID := Some EmptyString;
     in_rollupAddress := Some EmptyString |}.

(** Flags for a rollup command, the three selectors given. *)
Definition selectorArgs (rollupID chainID address : string) : inputArgs :=
  {| in_rpcURL := Some defaultRPCURL;
     in_forkID := Some defaultForkId;
     in_rollupManagerAddress := Some "mainnet";
     in_rollupID := Some rollupID;
     in_rollupChainID := Some chainID;
     in_rollupAddress := Some address |}.

(** ** The events of complete runs *)

(** [time.Sleep(contractRequestInterval)] *)
Definition pause : event := EvSleep contractRequestInterval.

(** The events of a complete rollup-manager snapshot that holds [d]. *)
Definition rollupManagerSnapshotTrace (d : RollupManagerData) : list event :=
  [ EvRollupManager RM_Pol (VAddress (Pol d)) None; pause;
    EvRollupManager RM_BridgeAddress (VAddress (BridgeAddress d)) None; pause;
    EvRollupManager RM_RollupCount (VUint32 (RollupCount d)) None; pause;
    EvRollupManager RM_GetBatchFee (VBigInt (BatchFee d)) None; pause;
    EvRollupManager RM_TotalSequencedBatches (VUint64 (TotalSequencedBatches d)) None; pause;
    EvRollupManager RM_TotalVerifiedBatches (VUint64 (TotalVerifiedBatches d)) None; pause;
    EvRollupManager RM_LastAggregationTimestamp
      (VUint64 (LastAggregationTimestamp d)) None; pause;
    EvRollupManager RM_LastDeactivatedEmergencyStateTimestamp
      (VUint64 (LastDeactivatedEmergencyStateTimestamp d)) None; pause ].

(** The events of a complete snapshot of the global exit root manager
    that holds [d]. *)
Definition gerSnapshotTrace (d : gerData) : list event :=
  [ EvGER GER_BridgeAddress (VAddress (gerBridgeAddress d)) None; pause;
    EvGER GER_DepositCount (VBigInt (DepositCount d)) None; pause;
    EvGER GER_GetLastGlobalExitRoot (VHash (GetLastGlobalExitRoot d)) None; pause;
    EvGER GER_GetRoot (VHash (Root d)) None; pause;
    EvGER GER_LastMainnetExitRoot (VHash (LastMainnetExitRoot d)) None; pause;
    EvGER GER_LastRollupExitRoot (VHash (LastRollupExitRoot d)) None; pause;
    EvGER GER_RollupManager (VAddress (RollupManager d)) None; pause ].

(** The events of one turn of the enumeration loops: the read of index
    [i] that returned [v], and the pause. *)
Definition rollupTurn (i : Z) (v : binding.rollupData) : list event :=
  [EvRollupManager (RM_RollupIDToRollupData i) (VRollupData v) None; pause].

Definition rollupTypeTurn (i : Z) (v : binding.rollupType) : list event :=
  [EvRollupManager (RM_RollupTypeMap i) (VRollupType v) None; pause].

(** The events of a complete enumeration that read the count [N] and
    then the records [vs]: the count, then one turn per index from [1]. *)
Definition rollupsTrace (N : Z) (vs : list binding.rollupData) : list event :=
  EvRollupManager RM_RollupCount (VUint32 N) None
  :: concat (zip_with rollupTurn (seqZ 1 N) vs).

Definition rollupTypesTrace (N : Z) (vs : list binding.rollupType) : list event :=
  EvRollupManager RM_RollupTypeCount (VUint32 N) None
  :: concat (zip_with rollupTypeTurn (seqZ 1 N) vs).

(** The events every command starts with when nothing fails: the dial of
    [parseCDKArgs], the dial of the command itself, the resolution of the
    rollup manager. *)
Definition opening (url : string) (address : Address) : list event :=
  [EvDial url None; EvDial url None; EvResolve KRollupManager address None].

(** The events between the two snapshots of a [ger] command when nothing
    fails: the bridge is resolved, asked for its data, and the exit-root
    manager is resolved. *)
Definition descent (bridge globalExitRootManager : Address) : list event :=
  [ EvResolve KBridge bridge None;
    EvGetBridgeData (Some globalExitRootManager) None;
    EvResolve KGER globalExitRootManager None ].

(** ** More to read off a run *)

(** The pauses of a run, in order. *)
Definition sleeps (t : list event) : list Z :=
  omap (fun ev => match ev with EvSleep d => Some d | _ => None end) t.

(** A read of a contract that did not fail. *)
Definition succeeded (ev : event) : bool :=
  match ev with
  | EvRollupManager _ _ None | EvGER _ _ None => true
  | _ => false
  end.

(** What a run writes: a JSON document to the log or to standard output,
    the line of [log.Fatal], the message of a fatal error of the
    runtime. *)
Definition written (ev : event) : bool :=
  match ev with
  | EvLogJSON _ | EvPrintJSON _ | EvFatal _ | EvThrow _ => true
  | _ => false
  end.

Definition writes (t : list event) : list event := List.filter written t.

(** The JSON document of a command. *)
Definition isDocument (ev : event) : bool :=
  match ev with
  | EvLogJSON _ | EvPrintJSON _ => true
  | _ => false
  end.

(** A trace of a process that ended with status [code]: nothing is
    written before its last event, which is the line of [log.Fatal]
    (status 1) or the out-of-memory message of the runtime (status 2). *)
Definition endsWith (code : Z) (t : list event) : Prop :=
  exists pre,
    writes pre = [] /\
    (code = 1 /\ t = pre ++ [EvFatal "Unable to Dial RPC"] \/
     code = 2 /\ t = pre ++ [EvThrow "runtime: out of memory"]).

(** A Go result pair that is a value with a nil error or nil with an
    error. *)
Definition exclusive {A} (r : option A * option error) : Prop :=
  match r with
  | (Some _, None) | (None, Some _) => True
  | _ => False
  end.

(** A getter that returns gives a value or an error, not both and not
    neither. *)
Definition exclusiveResult {A} (o : outcome (option A * option error)) : Prop :=
  match o with
  | Ret r => exclusive r
  | _ => True
  end.

(** A computation none of whose events shows under [f]: with
    [step_error], one without a failed step. *)
Definition free `{Env} {A X} (f : event -> option X) (m : M A) : Prop :=
  forall w, omap f (trace_of (m w)) = [].

(** A step that writes nothing unless it ends the process. *)
Definition tidy `{Env} {A} (m : M A) : Prop :=
  forall w,
    match outcome_of (m w) with
    | Exit code => endsWith code (trace_of (m w))
    | _ => writes (trace_of (m w)) = []
    end.

(** A command that writes only as its last event: its document when it
    returns nil, else the line that ends the process. *)
Definition reporting `{Env} (m : M (option error)) : Prop :=
  forall w,
    match outcome_of (m w) with
    | Ret None =>
        exists pre v,
          trace_of (m w) = pre ++ [v] /\ writes pre = [] /\ isDocument v = true
    | Exit code => endsWith code (trace_of (m w))
    | _ => writes (trace_of (m w)) = []
    end.

(** A step whose result carries an error ([err] reads it off the
    result): when it returns one, the failed call is its last event and
    its only failure, and the error is that of the call; otherwise no
    step failed. *)
Definition guarded `{Env} {A} (err : A -> option error) (m : M A) : Prop :=
  forall w,
    match outcome_of (m w) with
    | Ret a =>
        match err a with
        | Some e =>
            failures (trace_of (m w)) = [e] /\
            last (trace_of (m w)) ≫= step_error = Some e
        | None => failures (trace_of (m w)) = []
        end
    | _ => failures (trace_of (m w)) = []
    end.

(** A command that returns the error of the step that failed. *)
Definition returnsTheFailure `{Env} (m : M (option error)) : Prop :=
  forall w e,
    In e (failures (trace_of (m w))) ->
    outcome_of (m w) = Ret (Some e) /\
    failures (trace_of (m w)) = [e] /\
    last (trace_of (m w)) ≫= step_error = Some e.

(** The commands that walk the chain: all but [rollupManagerMonitor]. *)
Definition chainCommands `{Env} (fuel : nat) : list (inputArgs -> M (option error)) :=
  [ rollupManagerListRollups fuel; rollupManagerListRollupTypes fuel;
    rollupManagerInspect; rollupManagerDump fuel; gerInspect; gerDump; gerMonitor ].

(** The commands that print a document. *)
Definition printingCommands `{Env} (fuel : nat)
    : list (inputArgs -> M (option error)) :=
  [ rollupManagerListRollups fuel; rollupManagerListRollupTypes fuel;
    rollupManagerInspect; rollupManagerDump fuel; gerInspect; gerDump ].

(** The commands of [rollup-manager] that read the chain. *)
Definition rollupManagerCommands `{Env} (fuel : nat)
    : list (inputArgs -> M (option error)) :=
  [ rollupManagerListRollups fuel; rollupManagerListRollupTypes fuel;
    rollupManagerInspect; rollupManagerDump fuel ].

(** * Properties *)

(** ** Running the monad *)

Ltac unfold_go :=
  unfold rmCall, gerCall, invoke, time_Sleep, emit, deref, panic, os_Exit, log_Fatal,
    mustLogJSONIndent, mustPrintJSONIndent;
  unfold mbind, M_bind, bind, ret; cbn.

(** One call of a handle operation: split on the state it leaves and on
    whether it failed. *)
Ltac run_read :=
  match goal with
  | |- context [match ?op ?h ?w with _ => _ end] =>
      let v := fresh "v" in
      let e := fresh "e" in
      let w' := fresh "w" in
      destruct (op h w) as [[v [e|]] w'] eqn:?; cbn
  end.

(** Find the event of position [N] in a finished run. *)
Ltac pick_read N HN He :=
  repeat (destruct N as [|N]; cbn in HN;
          [ inversion HN; subst; cbn in He; congruence
          | try discriminate ]).

Section Snapshots.
Context `{Env}.

Lemma getRollupManagerData_atomic (h : option (rollupManagerContractInterface W))
    (w : W) (N : nat) (ev : event) (e : error) :
  reads (trace_of (getRollupManagerData h w)) !! N = Some ev ->
  read_error ev = Some e ->
  outcome_of (getRollupManagerData h w) = Ret (None, Some e).
Proof.
  unfold getRollupManagerData. unfold_go.
  destruct h as [h|]; cbn; [|destruct N; discriminate].
  repeat run_read; intros HN He; pick_read N HN He.
Qed.

Lemma getGERData_atomic (h : option (gerContractInterface W))
    (w : W) (N : nat) (ev : event) (e : error) :
  reads (trace_of (getGERData h w)) !! N = Some ev ->
  read_error ev = Some e ->
  outcome_of (getGERData h w) = Ret (None, Some e).
Proof.
  unfold getGERData. unfold_go.
  destruct h as [h|]; cbn; [|destruct N; discriminate].
  repeat run_read; intros HN He; pick_read N HN He.
Qed.

(** A snapshot that is returned is complete: every read was made, none
    failed, and the error is nil. *)
Lemma getRollupManagerData_complete (h : option (rollupManagerContractInterface W))
    (w : W) (d : RollupManagerData) (err : option error) :
  outcome_of (getRollupManagerData h w) = Ret (Some d, err) ->
  err = None /\
  rmOps (trace_of (getRollupManagerData h w)) = rollupManagerSnapshotOps /\
  failures (trace_of (getRollupManagerData h w)) = [] /\
  reportedBridge (trace_of (getRollupManagerData h w)) = [BridgeAddress d].
Proof.
  unfold getRollupManagerData. unfold_go.
  destruct h as [h|]; cbn; [|discriminate].
  repeat run_read; intros Hr; inversion Hr; subst; auto.
Qed.

Lemma getGERData_complete (h : option (gerContractInterface W))
    (w : W) (d : gerData) (err : option error) :
  outcome_of (getGERData h w) = Ret (Some d, err) ->
  err = None /\
  length (reads (trace_of (getGERData h w))) = 7%nat /\
  failures (trace_of (getGERData h w)) = [].
Proof.
  unfold getGERData. unfold_go.
  destruct h as [h|]; cbn; [|discriminate].
  repeat run_read; intros Hr; inversion Hr; subst; auto.
Qed.

End Snapshots.

(** C1. Snapshot assembly is atomic.  Whatever the handle and the state of
    the chain, if the read call at any position [N] of a run of
    [getRollupManagerData] or of [getGERData] fails with error [e], the
    function returns [(nil, e)]: a non-nil error and no snapshot.
    Conversely a snapshot that is returned comes with a nil error and
    with every read made and successful. *)
Theorem assemble_atomic `{Env} :
  (forall h w N ev e,
      reads (trace_of (getRollupManagerData h w)) !! N = Some ev ->
      read_error ev = Some e ->
      outcome_of (getRollupManagerData h w) = Ret (None, Some e)) /\
  (forall h w N ev e,
      reads (trace_of (getGERData h w)) !! N = Some ev ->
      read_error ev = Some e ->
      outcome_of (getGERData h w) = Ret (None, Some e)) /\
  (forall h w d err,
      outcome_of (getRollupManagerData h w) = Ret (Some d, err) ->
      err = None /\ failures (trace_of (getRollupManagerData h w)) = [] /\
      rmOps (trace_of (getRollupManagerData h w)) = rollupManagerSnapshotOps) /\
  (forall h w d err,
      outcome_of (getGERData h w) = Ret (Some d, err) ->
      err = None /\ failures (trace_of (getGERData h w)) = [] /\
      length (reads (trace_of (getGERData h w))) = 7%nat).
Proof.
  split; [|split; [|split]].
  - apply @getRollupManagerData_atomic.
  - apply @getGERData_atomic.
  - intros h w d err Hr.
    destruct (getRollupManagerData_complete h w d err Hr) as (? & ? & ? & ?); auto.
  - intros h w d err Hr.
    destruct (getGERData_complete h w d err Hr) as (? & ? & ?); auto.
Qed.

(** A stub that fails on its fourth call ([GetBatchFee], resp. [GetRoot]). *)
Lemma assemble_atomic_witness :
  outcome_of (@getRollupManagerData (Stub.env None (Some 3%nat) 3)
                (Some (Stub.rollupManager (Some 3%nat) 3)) 0%nat)
    = Ret (None, Some Stub.reverted) /\
  outcome_of (@getGERData (Stub.env None (Some 3%nat) 3)
                (Some (Stub.gerContract (Some 3%nat))) 0%nat)
    = Ret (None, Some Stub.reverted).
Proof.
  split.
  - apply (proj1 (@assemble_atomic (Stub.env None (Some 3%nat) 3))
             (Some (Stub.rollupManager (Some 3%nat) 3)) 0%nat 3%nat
             (EvRollupManager RM_GetBatchFee (VBigInt (Some 100)) (Some Stub.reverted)));
      reflexivity.
  - apply (proj1 (proj2 (@assemble_atomic (Stub.env None (Some 3%nat) 3)))
             (Some (Stub.gerContract (Some 3%nat))) 0%nat 3%nat
             (EvGER GER_GetRoot (VHash 0x2222) (Some Stub.reverted)));
      reflexivity.
Defined.

(** ** The error of a failed assembly *)

Ltac pick_event N HN He :=
  repeat (destruct N as [|N]; cbn in HN;
          [ inversion HN; subst; cbn in He;
            first [discriminate | inversion He; subst; repeat split; reflexivity]
          | try discriminate ]).

Section FirstFailure.
Context `{Env}.

Lemma getRollupManagerData_first_failure
    (h : option (rollupManagerContractInterface W)) (w : W)
    (N : nat) (ev : event) (e : error) :
  trace_of (getRollupManagerData h w) !! N = Some ev ->
  read_error ev = Some e ->
  outcome_of (getRollupManagerData h w) = Ret (None, Some e) /\
  length (trace_of (getRollupManagerData h w)) = S N /\
  failures (trace_of (getRollupManagerData h w)) = [e].
Proof.
  unfold getRollupManagerData. unfold_go.
  destruct h as [h|]; cbn; [|destruct N; discriminate].
  repeat run_read; intros HN He; pick_event N HN He.
Qed.

Lemma getGERData_first_failure
    (h : option (gerContractInterface W)) (w : W)
    (N : nat) (ev : event) (e : error) :
  trace_of (getGERData h w) !! N = Some ev ->
  read_error ev = Some e ->
  outcome_of (getGERData h w) = Ret (None, Some e) /\
  length (trace_of (getGERData h w)) = S N /\
  failures (trace_of (getGERData h w)) = [e].
Proof.
  unfold getGERData. unfold_go.
  destruct h as [h|]; cbn; [|destruct N; discriminate].
  repeat run_read; intros HN He; pick_event N HN He.
Qed.

End FirstFailure.

(** C5, as the code has it.  When a read call fails during
    [getRollupManagerData] or [getGERData], that call is the last event of
    the run (no later read, no later sleep), it is the only failure of the
    run, and the error returned is the error of that call itself,
    unchanged: nothing is added to it. *)
Theorem first_failure_returned_unchanged `{Env} :
  (forall h w N ev e,
      trace_of (getRollupManagerData h w) !! N = Some ev ->
      read_error ev = Some e ->
      outcome_of (getRollupManagerData h w) = Ret (None, Some e) /\
      length (trace_of (getRollupManagerData h w)) = S N /\
      failures (trace_of (getRollupManagerData h w)) = [e]) /\
  (forall h w N ev e,
      trace_of (getGERData h w) !! N = Some ev ->
      read_error ev = Some e ->
      outcome_of (getGERData h w) = Ret (None, Some e) /\
      length (trace_of (getGERData h w)) = S N /\
      failures (trace_of (getGERData h w)) = [e]).
Proof.
  split.
  - apply @getRollupManagerData_first_failure.
  - apply @getGERData_first_failure.
Qed.

(** The third read ([RollupCount]) of a stub fails: events 0 to 4 are two
    reads, two sleeps and the failing read. *)
Lemma first_failure_returned_unchanged_witness :
  (outcome_of (@getRollupManagerData (Stub.env None (Some 2%nat) 3)
                 (Some (Stub.rollupManager (Some 2%nat) 3)) 0%nat)
     = Ret (None, Some Stub.reverted) /\
   length (trace_of (@getRollupManagerData (Stub.env None (Some 2%nat) 3)
                       (Some (Stub.rollupManager (Some 2%nat) 3)) 0%nat)) = 5%nat /\
   failures (trace_of (@getRollupManagerData (Stub.env None (Some 2%nat) 3)
                         (Some (Stub.rollupManager (Some 2%nat) 3)) 0%nat))
     = [Stub.reverted]) /\
  (outcome_of (@getGERData (Stub.env None (Some 0%nat) 3)
                 (Some (Stub.gerContract (Some 0%nat))) 0%nat)
     = Ret (None, Some Stub.reverted) /\
   length (trace_of (@getGERData (Stub.env None (Some 0%nat) 3)
                       (Some (Stub.gerContract (Some 0%nat))) 0%nat)) = 1%nat /\
   failures (trace_of (@getGERData (Stub.env None (Some 0%nat) 3)
                         (Some (Stub.gerContract (Some 0%nat))) 0%nat))
     = [Stub.reverted]).
Proof.
  split.
  - apply (proj1 (@first_failure_returned_unchanged (Stub.env None (Some 2%nat) 3))
             (Some (Stub.rollupManager (Some 2%nat) 3)) 0%nat 4%nat
             (EvRollupManager RM_RollupCount (VUint32 3) (Some Stub.reverted)));
      reflexivity.
  - apply (proj2 (@first_failure_returned_unchanged (Stub.env None (Some 0%nat) 3))
             (Some (Stub.gerContract (Some 0%nat))) 0%nat 0%nat
             (EvGER GER_BridgeAddress (VAddress Stub.bridgeAddress) (Some Stub.reverted)));
      reflexivity.
Defined.

(** C5 as stated fails: no function of the returned error tells which
    field was being fetched.  A stub whose first read ([Pol]) fails and a
    stub whose second read ([BridgeAddress]) fails return the same error. *)
Lemma returned_error_names_no_field :
  ~ (exists fieldOf : error -> rm_op,
       forall (E : Env) (h : option (rollupManagerContractInterface W)) (w : W)
              (op : rm_op) (v : value) (e : error),
         In (EvRollupManager op v (Some e)) (trace_of (getRollupManagerData h w)) ->
         exists e', outcome_of (getRollupManagerData h w) = Ret (None, Some e') /\
                    fieldOf e' = op).
Proof.
  intros [fieldOf Hf].
  destruct (Hf (Stub.env None None 3) (Some (Stub.rollupManager (Some 0%nat) 3)) 0%nat
              RM_Pol (VAddress 0x9999) Stub.reverted) as (e1 & He1 & Hop1).
  { cbn. left. reflexivity. }
  destruct (Hf (Stub.env None None 3) (Some (Stub.rollupManager (Some 1%nat) 3)) 0%nat
              RM_BridgeAddress (VAddress Stub.bridgeAddress) Stub.reverted)
    as (e2 & He2 & Hop2).
  { cbn. right. right. left. reflexivity. }
  cbn in He1, He2. inversion He1; subst. inversion He2; subst. congruence.
Qed.

(** ** Enumeration of rollups and rollup types *)

Lemma uint32_small (z : Z) : 0 <= z <= maxUint32 -> uint32 z = z.
Proof.
  intros Hz. unfold uint32, wrap. apply Z.mod_small.
  unfold maxUint32 in Hz. lia.
Qed.

Lemma uint32_range (z : Z) : 0 <= uint32 z <= maxUint32.
Proof.
  unfold uint32, wrap, maxUint32.
  pose proof (Z.mod_pos_bound z (2 ^ 32) ltac:(lia)). lia.
Qed.

Section Enumeration.
Context `{Env}.




End Enumeration.

Section Allocation.
Context `{Env}.

Lemma makeslice_run T cap w :
  makeslice T cap w
  = if (cap =? 0) || allocates T cap then (Ret tt, w, [])
    else (Exit 2, w, [EvThrow "runtime: out of memory"]).
Proof. unfold makeslice. destruct ((cap =? 0) || allocates T cap); reflexivity. Qed.


Lemma refused T N : N <> 0 -> allocates T N = false -> (N =? 0) || allocates T N = false.
Proof. intros HN ->. destruct (Z.eqb_spec N 0); [contradiction|reflexivity]. Qed.


Lemma getRollupManagerRollups_out_of_memory h w w1 N fuel :
  rm_RollupCount h w = ((N, None), w1) ->
  N <> 0 -> allocates TRollupData N = false ->
  getRollupManagerRollups fuel (Some h) w
  = (Exit 2, w1, [EvRollupManager RM_RollupCount (VUint32 N) None;
                  EvThrow "runtime: out of memory"]).
Proof.
  intros Hcount HN Halloc. unfold getRollupManagerRollups, rmCall, invoke.
  unfold mbind, M_bind, bind. rewrite Hcount, makeslice_run, (refused _ _ HN Halloc).
  reflexivity.
Qed.



End Allocation.




(** The statement fails as well, short of that count, on a machine that
    has not the memory: for a handle that reports [2^32 - 2] rollups and
    answers every read, with room for [2^20] records, the slice is not
    allocated and no indexed read is made. *)
Lemma enumeration_dies_at_allocation :
  ~ (forall (E : Env) (h : rollupManagerContractInterface W) (w w1 : W) (N : Z),
        rm_RollupCount h w = ((N, None), w1) ->
        0 <= N < maxUint32 ->
        (forall i w, (rm_RollupIDToRollupData h i w).1.2 = None) ->
        exists fuel : nat,
          rollupIndices (trace_of (getRollupManagerRollups fuel (Some h) w)) = seqZ 1 N).
Proof.
  intros Hall.
  destruct (Hall (Stub.env None None (2 ^ 32 - 2)) (Stub.rollupManager None (2 ^ 32 - 2))
              0%nat 1%nat (2 ^ 32 - 2) eq_refl ltac:(unfold maxUint32; lia)
              ltac:(intros i w; reflexivity)) as [fuel Hrun].
  rewrite (@getRollupManagerRollups_out_of_memory (Stub.env None None (2 ^ 32 - 2))
             (Stub.rollupManager None (2 ^ 32 - 2)) 0%nat 1%nat (2 ^ 32 - 2) fuel
             eq_refl ltac:(lia) eq_refl) in Hrun.
  rewrite (seqZ_cons 1) in Hrun by lia. discriminate.
Qed.

(** And it fails for a handle that reports three rollups and whose read
    of index 2 fails: two indexed reads are made, not three. *)
Lemma enumeration_stops_at_failure :
  ~ (forall (E : Env) (h : rollupManagerContractInterface W) (w w1 : W) (N : Z)
            (fuel : nat),
        rm_RollupCount h w = ((N, None), w1) ->
        N < Z.of_nat fuel ->
        rollupIndices (trace_of (getRollupManagerRollups fuel (Some h) w)) = seqZ 1 N).
Proof.
  intros Hall.
  specialize (Hall (Stub.env None None 3) (Stub.rollupManager (Some 2%nat) 3)
                0%nat 1%nat 3 4%nat eq_refl ltac:(lia)).
  vm_compute in Hall. discriminate.
Qed.

(** ** A failed dial ends the process *)

Create HintDb dial discriminated.

Section DialFatal.
Context `{Env}.

Lemma dial_fatal_ret {A} (a : A) : dial_fatal (ret a).
Proof. intros w url e []. Qed.

Lemma dial_fatal_panic {A} msg : dial_fatal (@panic _ A msg).
Proof. intros w url e []. Qed.

Lemma dial_fatal_out_of_fuel {A} : dial_fatal (fun w : W => (@OutOfFuel A, w, [])).
Proof. intros w url e []. Qed.

Lemma dial_fatal_emit ev : is_dial ev = false -> dial_fatal (emit ev).
Proof. intros Hev w url e [->|[]]. discriminate. Qed.

(** The property goes through sequencing: a failed dial in the first part
    ends the process there, so a run that goes on had none. *)
Lemma dial_fatal_bind {A B} (m : M A) (k : A -> M B) :
  dial_fatal m -> (forall a, dial_fatal (k a)) -> dial_fatal (m ≫= k).
Proof.
  intros Hm Hk w url e. unfold mbind, M_bind, bind.
  specialize (Hm w url e).
  destruct (m w) as [[[a|msg|c|] w1] t1]; cbn in *;
    try (intros Hin; specialize (Hm Hin);
         first [discriminate | injection Hm as ->; reflexivity]).
  specialize (Hk a w1 url e).
  destruct (k a w1) as [[o2 w2] t2]; cbn in *.
  intros [Hin|Hin]%in_app_or; auto.
  specialize (Hm Hin). discriminate.
Qed.

Lemma dial_fatal_invoke {Hd T} (h : option Hd) (op : Hd -> read W T) ev :
  (forall v err, is_dial (ev v err) = false) -> dial_fatal (invoke h op ev).
Proof.
  intros Hev w url e. unfold invoke. destruct h as [h|]; cbn; [|intros []].
  destruct (op h w) as [[v err] w1]; cbn. intros [Heq|[]].
  specialize (Hev v err). rewrite Heq in Hev. discriminate.
Qed.

Lemma dial_fatal_mustGetRPCClient url : dial_fatal (mustGetRPCClient url).
Proof.
  intros w url' e. unfold mustGetRPCClient, ethclient_DialContext. unfold_go.
  destruct (DialContext url w) as [[c [e'|]] w1]; cbn; auto.
  intros [[=]|[]].
Qed.

Lemma dial_fatal_makeslice T cap : dial_fatal (makeslice T cap).
Proof.
  intros w url e. rewrite makeslice_run.
  destruct ((cap =? 0) || allocates T cap); cbn; [intros []|intros [[=]|[]]].
Qed.

Lemma dial_fatal_callGetBridgeData b : dial_fatal (callGetBridgeData b).
Proof.
  intros w url e. unfold callGetBridgeData.
  destruct (getBridgeData b w) as [[d err] w1]; cbn. intros [[=]|[]].
Qed.

Lemma dial_fatal_callWatchNewLogs c f : dial_fatal (callWatchNewLogs c f).
Proof.
  intros w url e. unfold callWatchNewLogs.
  destruct (watchNewLogs c f w) as [err w1]; cbn. intros [[=]|[]].
Qed.

End DialFatal.

#[export] Hint Resolve dial_fatal_ret dial_fatal_panic dial_fatal_out_of_fuel
  dial_fatal_makeslice dial_fatal_mustGetRPCClient dial_fatal_callGetBridgeData
  dial_fatal_callWatchNewLogs : dial.

(** [dial_fatal] by the structure of the computation. *)
Ltac dial_fatal_step :=
  lazymatch goal with
  | |- dial_fatal (mbind _ _) => apply dial_fatal_bind; [|intros ?]
  | |- dial_fatal (ret _) => apply dial_fatal_ret
  | |- dial_fatal (panic _) => apply dial_fatal_panic
  | |- dial_fatal (emit _) => apply dial_fatal_emit; reflexivity
  | |- dial_fatal (invoke _ _ _) => apply dial_fatal_invoke; reflexivity
  | |- dial_fatal (match ?x with _ => _ end) => destruct x
  | |- dial_fatal _ => solve [auto with dial]
  end.

Ltac dial_fatal_tac := cbv beta; repeat (dial_fatal_step; cbv beta).

Section DialFatalFunctions.
Context `{Env}.

Lemma dial_fatal_getRollupManagerData h : dial_fatal (getRollupManagerData h).
Proof. unfold getRollupManagerData, rmCall, time_Sleep. dial_fatal_tac. Qed.

Lemma dial_fatal_getGERData h : dial_fatal (getGERData h).
Proof. unfold getGERData, gerCall, time_Sleep. dial_fatal_tac. Qed.

Lemma dial_fatal_rollupsLoop fuel h N : forall i acc, dial_fatal (rollupsLoop fuel h N i acc).
Proof.
  induction fuel as [|fuel IH]; intros i acc; cbn [rollupsLoop].
  - apply dial_fatal_out_of_fuel.
  - unfold rmCall, time_Sleep. dial_fatal_tac.
Qed.

Lemma dial_fatal_rollupTypesLoop fuel h N :
  forall i acc, dial_fatal (rollupTypesLoop fuel h N i acc).
Proof.
  induction fuel as [|fuel IH]; intros i acc; cbn [rollupTypesLoop].
  - apply dial_fatal_out_of_fuel.
  - unfold rmCall, time_Sleep. dial_fatal_tac.
Qed.

Lemma dial_fatal_getRollupManagerRollups fuel h :
  dial_fatal (getRollupManagerRollups fuel h).
Proof.
  pose proof (dial_fatal_rollupsLoop fuel h).
  unfold getRollupManagerRollups, rmCall. dial_fatal_tac.
Qed.

Lemma dial_fatal_getRollupManagerRollupTypes fuel h :
  dial_fatal (getRollupManagerRollupTypes fuel h).
Proof.
  pose proof (dial_fatal_rollupTypesLoop fuel h).
  unfold getRollupManagerRollupTypes, rmCall. dial_fatal_tac.
Qed.

Lemma dial_fatal_parseCDKArgs args : dial_fatal (parseCDKArgs args).
Proof. unfold parseCDKArgs, deref. dial_fatal_tac. Qed.

Lemma dial_fatal_parseRollupManagerArgs g a c : dial_fatal (parseRollupManagerArgs g a c).
Proof. unfold parseRollupManagerArgs, deref. dial_fatal_tac. Qed.

Lemma dial_fatal_resolveRollupManager a c x : dial_fatal (resolveRollupManager a c x).
Proof. unfold resolveRollupManager. dial_fatal_tac. Qed.

Lemma dial_fatal_resolveBridge a c x : dial_fatal (resolveBridge a c x).
Proof. unfold resolveBridge. dial_fatal_tac. Qed.

Lemma dial_fatal_resolveGER a c x : dial_fatal (resolveGER a c x).
Proof. unfold resolveGER. dial_fatal_tac. Qed.

End DialFatalFunctions.

#[export] Hint Resolve dial_fatal_getRollupManagerData dial_fatal_getGERData
  dial_fatal_getRollupManagerRollups dial_fatal_getRollupManagerRollupTypes
  dial_fatal_parseCDKArgs dial_fatal_parseRollupManagerArgs
  dial_fatal_resolveRollupManager dial_fatal_resolveBridge dial_fatal_resolveGER : dial.

Lemma dial_fatal_commands `{Env} (fuel : nat) (cmd : inputArgs -> M (option error))
    (args : inputArgs) :
  In cmd (commands fuel) -> dial_fatal (cmd args).
Proof.
  unfold commands. cbn [In].
  intros Hcmd;
    repeat match type of Hcmd with
           | _ \/ _ => destruct Hcmd as [<-|Hcmd]
           | False => destruct Hcmd
           end.
  - unfold rollupManagerListRollups, deref, mustLogJSONIndent. dial_fatal_tac.
  - unfold rollupManagerListRollupTypes, deref, mustLogJSONIndent. dial_fatal_tac.
  - unfold rollupManagerInspect, deref, mustLogJSONIndent. dial_fatal_tac.
  - unfold rollupManagerDump, deref, mustLogJSONIndent. dial_fatal_tac.
  - unfold rollupManagerMonitor. dial_fatal_tac.
  - unfold gerInspect, deref, mustPrintJSONIndent. dial_fatal_tac.
  - unfold gerDump, deref, mustPrintJSONIndent. dial_fatal_tac.
  - unfold gerMonitor, deref. dial_fatal_tac.
Qed.

(** C9.  When the dial fails, [mustGetRPCClient] ends the process with
    [log.Fatal] (exit status 1) and returns nothing; so does every run of
    [parseCDKArgs] and of every command function in which a dial fails:
    none returns, hence none returns the dial failure as an error. *)
Theorem dial_failure_is_fatal `{Env} :
  (forall url w e,
      (DialContext url w).1.2 = Some e ->
      outcome_of (mustGetRPCClient url w) = Exit 1 /\
      trace_of (mustGetRPCClient url w) = [EvDial url (Some e); EvFatal "Unable to Dial RPC"]) /\
  (forall args w url e,
      In (EvDial url (Some e)) (trace_of (parseCDKArgs args w)) ->
      outcome_of (parseCDKArgs args w) = Exit 1) /\
  (forall fuel cmd args w url e,
      In cmd (commands fuel) ->
      In (EvDial url (Some e)) (trace_of (cmd args w)) ->
      outcome_of (cmd args w) = Exit 1).
Proof.
  split; [|split].
  - intros url w e. unfold mustGetRPCClient, ethclient_DialContext. unfold_go.
    destruct (DialContext url w) as [[c [e'|]] w1]; cbn; [|discriminate].
    intros [= ->]. split; reflexivity.
  - intros args w url e. apply dial_fatal_parseCDKArgs.
  - intros fuel cmd args w url e Hcmd. apply (dial_fatal_commands fuel cmd args Hcmd).
Qed.

(** A node that refuses the connection. *)
Lemma dial_failure_is_fatal_witness :
  outcome_of (@mustGetRPCClient (Stub.env (Some Stub.reverted) None 3) defaultRPCURL 0%nat)
    = Exit 1 /\
  outcome_of (@parseCDKArgs (Stub.env (Some Stub.reverted) None 3) (Stub.args "banana") 0%nat)
    = Exit 1 /\
  outcome_of (@gerInspect (Stub.env (Some Stub.reverted) None 3) (Stub.args "banana") 0%nat)
    = Exit 1.
Proof.
  split; [|split].
  - apply (proj1 (@dial_failure_is_fatal (Stub.env (Some Stub.reverted) None 3))
             defaultRPCURL 0%nat Stub.reverted).
    reflexivity.
  - apply (proj1 (proj2 (@dial_failure_is_fatal (Stub.env (Some Stub.reverted) None 3)))
             (Stub.args "banana") 0%nat defaultRPCURL Stub.reverted).
    left. reflexivity.
  - apply (proj2 (proj2 (@dial_failure_is_fatal (Stub.env (Some Stub.reverted) None 3)))
             4%nat gerInspect (Stub.args "banana") 0%nat defaultRPCURL Stub.reverted).
    + do 5 right. left. reflexivity.
    + left. reflexivity.
Defined.

(** ** Events a computation does not cause *)

Section Free.
Context `{Env} {X : Type} (f : event -> option X).

Lemma free_ret {A} (a : A) : free f (ret a).
Proof. intros w. reflexivity. Qed.

Lemma free_panic {A} msg : free f (@panic _ A msg).
Proof. intros w. reflexivity. Qed.

Lemma free_out_of_fuel {A} : free f (fun w : W => (@OutOfFuel A, w, [])).
Proof. intros w. reflexivity. Qed.

Lemma free_os_Exit {A} c : free f (@os_Exit _ A c).
Proof. intros w. reflexivity. Qed.

Lemma free_emit ev : f ev = None -> free f (emit ev).
Proof. intros Hev w. cbn. now rewrite Hev. Qed.

Lemma free_bind {A B} (m : M A) (k : A -> M B) :
  free f m -> (forall a, free f (k a)) -> free f (m ≫= k).
Proof.
  intros Hm Hk w. unfold mbind, M_bind, bind. specialize (Hm w).
  destruct (m w) as [[[a|msg|c|] w1] t1]; change (omap f t1 = []) in Hm; auto.
  specialize (Hk a w1). destruct (k a w1) as [[o2 w2] t2].
  change (omap f t2 = []) in Hk. change (omap f (t1 ++ t2) = []).
  now rewrite omap_app, Hm, Hk.
Qed.

Lemma free_invoke {Hd T} (h : option Hd) (op : Hd -> read W T) ev :
  (forall v err, f (ev v err) = None) -> free f (invoke h op ev).
Proof.
  intros Hev w. unfold invoke. destruct h as [h|]; cbn; [|reflexivity].
  destruct (op h w) as [[v err] w1]; cbn. now rewrite Hev.
Qed.

Lemma free_ethclient_DialContext url :
  (forall err, f (EvDial url err) = None) -> free f (ethclient_DialContext url).
Proof.
  intros Hev w. unfold ethclient_DialContext.
  destruct (DialContext url w) as [[c e] w1]. cbn. now rewrite Hev.
Qed.

Lemma free_callGetBridgeData b :
  (forall g err, f (EvGetBridgeData g err) = None) -> free f (callGetBridgeData b).
Proof.
  intros Hev w. unfold callGetBridgeData.
  destruct (getBridgeData b w) as [[d err] w1]. cbn. now rewrite Hev.
Qed.

Lemma free_callWatchNewLogs c x :
  (forall a err, f (EvWatch a err) = None) -> free f (callWatchNewLogs c x).
Proof.
  intros Hev w. unfold callWatchNewLogs.
  destruct (watchNewLogs c x w) as [err w1]. cbn. now rewrite Hev.
Qed.

End Free.

(** [free] by the structure of the computation. *)
Ltac free_step :=
  lazymatch goal with
  | |- free _ (mbind _ _) => apply free_bind; [|intros ?]
  | |- free _ (ret _) => apply free_ret
  | |- free _ (panic _) => apply free_panic
  | |- free _ (os_Exit _) => apply free_os_Exit
  | |- free _ (emit _) => apply free_emit; first [reflexivity|solve [auto]]
  | |- free _ (invoke _ _ _) => apply free_invoke; first [reflexivity|solve [auto]]
  | |- free _ (ethclient_DialContext _) =>
      apply free_ethclient_DialContext; first [reflexivity|solve [auto]]
  | |- free _ (callGetBridgeData _) =>
      apply free_callGetBridgeData; first [reflexivity|solve [auto]]
  | |- free _ (callWatchNewLogs _ _) =>
      apply free_callWatchNewLogs; first [reflexivity|solve [auto]]
  | |- free _ (match ?x with _ => _ end) => destruct x
  | |- free _ _ => solve [auto]
  end.

Ltac free_tac := cbv beta zeta; repeat (free_step; cbv beta zeta).

(** ** The chain walk *)

Section ArgumentPhase.
Context `{Env}.

(** The four ways [parseCDKArgs] ends: with arguments, with the
    unknown-fork error, in a nil dereference, or in [log.Fatal]. *)
Lemma parseCDKArgs_run args w o w' t :
  parseCDKArgs args w = (o, w', t) ->
  (exists a url, o = Ret (Some a, None) /\ t = [EvDial url None]) \/
  (exists e url, o = Ret (None, Some e) /\ t = [EvDial url None]) \/
  (exists msg, o = Panic msg /\ t = []) \/
  (exists e url, o = Exit 1 /\ t = [EvDial url (Some e); EvFatal "Unable to Dial RPC"]).
Proof.
  unfold parseCDKArgs, mustGetRPCClient, ethclient_DialContext. unfold_go.
  destruct (in_rpcURL args) as [url|]; cbn.
  2:{ intros [= <- <- <-]. right. right. left. eauto. }
  destruct (DialContext url w) as [[c [e|]] w1]; cbn.
  { intros [= <- <- <-]. right. right. right. eauto. }
  destruct (in_forkID args) as [f|]; cbn.
  2:{ intros [= <- <- <-]. left. eauto. }
  destruct (len f >? 0); cbn.
  2:{ intros [= <- <- <-]. left. eauto. }
  match goal with
  | |- context [match ?m !! f with _ => _ end] => destruct (m !! f)
  end; cbn; intros [= <- <- <-]; [left|right; left]; eauto.
Qed.

Lemma silent_ret {A} (a : A) : silent (ret a).
Proof. intros w. exists (Ret a). eauto. Qed.

Lemma silent_panic {A} msg : silent (@panic _ A msg).
Proof. intros w. exists (Panic msg). eauto. Qed.

Lemma silent_bind {A B} (m : M A) (k : A -> M B) :
  silent m -> (forall a, silent (k a)) -> silent (m ≫= k).
Proof.
  intros Hm Hk w. unfold mbind, M_bind, bind.
  destruct (Hm w) as (o & -> & [[a ->]|[msg ->]]).
  - destruct (Hk a w) as (o2 & -> & Ho2). exists o2. auto.
  - exists (Panic msg). eauto.
Qed.

End ArgumentPhase.

(** [silent] goes through sequencing and case analysis. *)
Ltac silent_step :=
  lazymatch goal with
  | |- silent (mbind _ _) => apply silent_bind; [|intros ?]
  | |- silent (ret _) => apply silent_ret
  | |- silent (panic _) => apply silent_panic
  | |- silent (match ?x with _ => _ end) => destruct x
  end.

(** Resolving the rollup manager from the arguments makes no network
    call. *)
Lemma silent_parseRollupManagerArgs `{Env} g a c : silent (parseRollupManagerArgs g a c).
Proof. unfold parseRollupManagerArgs, deref. cbv beta. repeat (silent_step; cbv beta). Qed.

(** Split on the innermost thing the run is waiting for. *)
Ltac run_any :=
  match goal with
  | |- context [match ?x with _ => _ end] =>
      lazymatch x with
      | context [match _ with _ => _ end] => fail
      | _ => destruct x eqn:?; cbn
      end
  end.

(** A finished run: its events are known, [walk_ok] is read off them. *)
Ltac walk_leaf :=
  intros [= <- <- <-];
  unfold walk_ok; cbn;
  repeat split; intros;
  repeat match goal with
         | H : _ \/ _ |- _ => destruct H
         | H : False |- _ => destruct H
         | H : Some _ = Some _ |- _ => injection H as <-
         | H : Ret _ = Ret _ |- _ => injection H as ?
         end;
  subst; try discriminate; try reflexivity.

(** The start of a [ger] command: [parseCDKArgs], the second dial and
    [parseRollupManagerArgs], by their run lemmas. *)
Ltac args_phase cmd :=
  unfold cmd, resolveRollupManager, resolveBridge, resolveGER, callGetBridgeData,
    callWatchNewLogs, mustGetRPCClient, ethclient_DialContext, getRollupManagerData,
    getGERData, asGerContractInterface;
  unfold_go;
  match goal with
  | |- context [parseCDKArgs ?a ?w] =>
      let E := fresh "E" in
      destruct (parseCDKArgs a w) as [[? ?] ?] eqn:E;
      apply parseCDKArgs_run in E;
      destruct E as [(? & ? & -> & ->)|[(? & ? & -> & ->)|[(? & -> & ->)|(? & ? & -> & ->)]]];
      cbn; [|solve [walk_leaf]..]
  end;
  match goal with
  | |- context [DialContext ?u ?w] =>
      destruct (DialContext u w) as [[? [?|]] ?]; cbn; [solve [walk_leaf]|]
  end;
  match goal with
  | |- context [parseRollupManagerArgs ?g ?a ?c ?w] =>
      let o := fresh "o" in
      destruct (silent_parseRollupManagerArgs g a c w)
        as (o & -> & [[[[?|] [?|]] ->]|[? ->]]);
      cbn; try solve [walk_leaf]
  end.

Section Walk.
Context `{Env}.
Local Arguments parseCDKArgs : simpl never.
Local Arguments parseRollupManagerArgs : simpl never.

Lemma gerInspect_walk args w o w' t :
  gerInspect args w = (o, w', t) -> walk_ok false o t.
Proof. args_phase (@gerInspect); repeat run_any; walk_leaf. Qed.

Lemma gerDump_walk args w o w' t :
  gerDump args w = (o, w', t) -> walk_ok false o t.
Proof. args_phase (@gerDump); repeat run_any; walk_leaf. Qed.

Lemma gerMonitor_walk args w o w' t :
  gerMonitor args w = (o, w', t) -> walk_ok true o t.
Proof. args_phase (@gerMonitor); repeat run_any; walk_leaf. Qed.

End Walk.

Lemma beforeResolve_resolved (k : contractKind) (t : list event) :
  resolvedAt k t <> [] -> exists t1, beforeResolve k t = Some t1.
Proof.
  induction t as [|ev t IH]; cbn; [congruence|].
  destruct ev as [| | | | |k' a err| | | | |]; cbn; intros Hne;
    try (destruct (IH Hne) as [t1 ->]; cbn; eauto).
  destruct (contractKind_eqb k k'); cbn in *; [eauto|].
  destruct (IH Hne) as [t1 ->]; cbn; eauto.
Qed.

Lemma singleton_of_length {A} (l : list A) (a : A) :
  length l = 1%nat -> In a l -> l = [a].
Proof. destruct l as [|x [|y l]]; cbn; try discriminate. intros _ [->|[]]. reflexivity. Qed.

Lemma gerCommands_walk `{Env} cmd args w :
  In cmd gerCommands ->
  exists monitor, walk_ok monitor (outcome_of (cmd args w)) (trace_of (cmd args w)).
Proof.
  unfold gerCommands. cbn [In]. intros [<-|[<-|[<-|[]]]].
  - exists false. destruct (gerInspect args w) as [[o w'] t] eqn:E.
    exact (gerInspect_walk _ _ _ _ _ E).
  - exists false. destruct (gerDump args w) as [[o w'] t] eqn:E.
    exact (gerDump_walk _ _ _ _ _ E).
  - exists true. destruct (gerMonitor args w) as [[o w'] t] eqn:E.
    exact (gerMonitor_walk _ _ _ _ _ E).
Qed.

(** In every run of a [ger] command, whatever becomes of its arguments:
    the bridge is resolved at most once, at the address the rollup
    manager's [BridgeAddress] read returned before; the exit-root manager
    is resolved at most once, at the [GlobalExitRootManager] address
    [getBridgeData] returned before; a step that fails is the last event
    of the run and its error is what the command returns; and a run that
    returns nil resolved both. *)
Lemma ger_walk_resolves_once `{Env} (cmd : inputArgs -> M (option error))
    (args : inputArgs) (w : W) :
  In cmd gerCommands ->
  (forall a, In a (resolvedAt KBridge (trace_of (cmd args w))) ->
     resolvedAt KBridge (trace_of (cmd args w)) = [a] /\
     exists t1, beforeResolve KBridge (trace_of (cmd args w)) = Some t1 /\
                reportedBridge t1 = [a]) /\
  (forall g, In g (resolvedAt KGER (trace_of (cmd args w))) ->
     resolvedAt KGER (trace_of (cmd args w)) = [g] /\
     exists t2, beforeResolve KGER (trace_of (cmd args w)) = Some t2 /\
                reportedGER t2 = [g]) /\
  (forall e, In e (failures (trace_of (cmd args w))) ->
     outcome_of (cmd args w) = Ret (Some e) /\
     failures (trace_of (cmd args w)) = [e] /\
     last (trace_of (cmd args w)) ≫= step_error = Some e) /\
  (outcome_of (cmd args w) = Ret None ->
     exists a g, resolvedAt KBridge (trace_of (cmd args w)) = [a] /\
                 resolvedAt KGER (trace_of (cmd args w)) = [g] /\
                 failures (trace_of (cmd args w)) = []).
Proof.
  intros Hcmd. destruct (gerCommands_walk cmd args w Hcmd) as (m & HB & HG & HF & HS & _).
  set (t := trace_of (cmd args w)) in *. set (o := outcome_of (cmd args w)) in *.
  split; [|split; [|split]].
  - intros a Ha.
    destruct (beforeResolve_resolved KBridge t) as [t1 Ht1].
    { intros Hnil. rewrite Hnil in Ha. destruct Ha. }
    destruct (HB t1 Ht1) as (_ & _ & Hrep & Hlen).
    pose proof (singleton_of_length _ a Hlen Ha) as Hone.
    split; [exact Hone|]. exists t1. split; [exact Ht1|]. now rewrite Hrep.
  - intros g Hg.
    destruct (beforeResolve_resolved KGER t) as [t2 Ht2].
    { intros Hnil. rewrite Hnil in Hg. destruct Hg. }
    destruct (HG t2 Ht2) as (_ & Hrep & Hlen).
    pose proof (singleton_of_length _ g Hlen Hg) as Hone.
    split; [exact Hone|]. exists t2. split; [exact Ht2|]. now rewrite Hrep.
  - exact HF.
  - intros Ho. destruct (HS Ho) as (HlB & HlG & Hf & _).
    destruct (resolvedAt KBridge t) as [|a [|? ?]]; try discriminate.
    destruct (resolvedAt KGER t) as [|g [|? ?]]; try discriminate.
    exists a, g. auto.
Qed.

(** One step of a run whose next call is known. *)
Ltac exec :=
  cbv beta iota zeta
    delta [mbind M_bind bind deref ret emit panic resolveRollupManager resolveBridge
           resolveGER callGetBridgeData callWatchNewLogs mustPrintJSONIndent fst snd].

Ltac exec_with H := exec; rewrite H.

(** Events in sequence, nested to the right. *)
Ltac norm_app := repeat (rewrite <- ?app_assoc, ?app_nil_r; cbn [app]).

Lemma walk_shape {A} (t1 t2 t3 t4 mid rest l : list A) (ev : A) :
  l = t1 ++ t2 ++ t3 ++ ev :: t4 ++ mid ++ rest ->
  l = (((t1 ++ t2 ++ t3) ++ [ev]) ++ t4) ++ mid ++ rest.
Proof. intros ->. now rewrite <- !app_assoc. Qed.

(** The events of a finished run, split after the descent. *)
Ltac after_descent :=
  cbn [trace_of snd];
  lazymatch goal with
  | |- exists rest, ?l = _ /\ _ =>
      let t := fresh "t" in
      let Ht := fresh "Ht" in
      remember l as t eqn:Ht;
      repeat (rewrite <- ?app_assoc, ?app_nil_r in Ht; cbn [app] in Ht);
      eexists; split; [apply walk_shape; rewrite Ht; reflexivity|]
  end.

(** The end of a [ger] command, from the resolved exit-root manager on. *)
Ltac at_exit_root_manager :=
  lazymatch goal with
  | |- context [getGERData ?g ?w] =>
      let E := fresh "E" in
      destruct (getGERData g w) as [[[[? [?|]]|?|?|] ?] ?] eqn:E;
      exec; after_descent;
      left; rewrite E; cbn [trace_of snd];
      first [ exists []; split; [symmetry; apply app_nil_r|left; reflexivity]
            | eexists; split; [reflexivity|right; eauto] ]
  | |- context [match ?g with Some _ => _ | None => _ end] =>
      destruct g as [?|]; exec;
      [ lazymatch goal with
        | |- context [watchNewLogs ?c ?f ?w] =>
            let E := fresh "E" in
            destruct (watchNewLogs c f w) as [[?|] ?] eqn:E;
            exec; after_descent;
            right; left; eexists; (split; [reflexivity|]);
            rewrite E; reflexivity
        end
      | after_descent; right; right; auto ]
  end.

Section WalkTree.
Context `{Env}.

(** The walk of a [ger] command whose arguments are read, case by case on
    what [getRollupManager], [getRollupManagerData], [getBridge],
    [getBridgeData] and [getGER] return. *)
Lemma ger_walk (cmd : inputArgs -> M (option error)) args w a c rma w3 t0 :
  In cmd gerCommands ->
  opened args w a c rma w3 t0 ->
  match getRollupManager (Some a) c (rollupManagerAddress rma) with
  | (_, _, Some e) =>
      cmd args w
        = (Ret (Some e), w3,
           t0 ++ [EvResolve KRollupManager (rollupManagerAddress rma) (Some e)])
  | (h, _, None) =>
      let resolved := t0 ++ [EvResolve KRollupManager (rollupManagerAddress rma) None] in
      match getRollupManagerData h w3 with
      | (Ret (_, Some e), w4, t4) => cmd args w = (Ret (Some e), w4, resolved ++ t4)
      | (Ret (None, None), w4, t4) => cmd args w = (Panic nilDereference, w4, resolved ++ t4)
      | (Panic msg, w4, t4) => cmd args w = (Panic msg, w4, resolved ++ t4)
      | (Exit code, w4, t4) => cmd args w = (Exit code, w4, resolved ++ t4)
      | (OutOfFuel, w4, t4) => cmd args w = (OutOfFuel, w4, resolved ++ t4)
      | (Ret (Some d, None), w4, t4) =>
          let pre := resolved ++ t4 in
          match getBridge (Some a) c (BridgeAddress d) with
          | (_, _, Some e) =>
              cmd args w
                = (Ret (Some e), w4, pre ++ [EvResolve KBridge (BridgeAddress d) (Some e)])
          | (bridge, _, None) =>
              match getBridgeData bridge w4 with
              | ((bd, Some e), w5) =>
                  cmd args w
                    = (Ret (Some e), w5,
                       pre ++ [EvResolve KBridge (BridgeAddress d) None;
                               EvGetBridgeData (GlobalExitRootManager <$> bd) (Some e)])
              | ((None, None), w5) =>
                  cmd args w
                    = (Panic nilDereference, w5,
                       pre ++ [EvResolve KBridge (BridgeAddress d) None;
                               EvGetBridgeData None None])
              | ((Some b, None), w5) =>
                  match getGER (Some a) c (GlobalExitRootManager b) with
                  | (_, _, Some e) =>
                      cmd args w
                        = (Ret (Some e), w5,
                           pre ++ [EvResolve KBridge (BridgeAddress d) None;
                                   EvGetBridgeData (Some (GlobalExitRootManager b)) None;
                                   EvResolve KGER (GlobalExitRootManager b) (Some e)])
                  | (g, gabi, None) =>
                      exists rest,
                        trace_of (cmd args w)
                          = pre ++ descent (BridgeAddress d) (GlobalExitRootManager b) ++ rest /\
                        atExitRootManager c g gabi (GlobalExitRootManager b) w5 rest
                  end
              end
          end
      end
  end.
Proof.
  intros Hcmd (w1 & w2 & t1 & t2 & t3 & Hcdk & Hdial & Hrma & ->).
  unfold gerCommands in Hcmd. cbn [In] in Hcmd.
  destruct (getRollupManager (Some a) c (rollupManagerAddress rma))
    as [[h abi] [e|]] eqn:Hrm.
  { destruct Hcmd as [<-|[<-|[<-|[]]]];
      [unfold gerInspect|unfold gerDump|unfold gerMonitor];
      exec_with Hcdk; exec_with Hdial; exec_with Hrma; exec_with Hrm; exec;
      norm_app; reflexivity. }
  cbv zeta.
  destruct (getRollupManagerData h w3) as [[[[[d|] [e|]]|msg|code|] w4] t4] eqn:Hdata;
    try (destruct Hcmd as [<-|[<-|[<-|[]]]];
         [unfold gerInspect|unfold gerDump|unfold gerMonitor];
         exec_with Hcdk; exec_with Hdial; exec_with Hrma; exec_with Hrm; exec_with Hdata;
         exec; norm_app; reflexivity).
  destruct (getBridge (Some a) c (BridgeAddress d)) as [[bridge babi] [e|]] eqn:Hb.
  { destruct Hcmd as [<-|[<-|[<-|[]]]];
      [unfold gerInspect|unfold gerDump|unfold gerMonitor];
      exec_with Hcdk; exec_with Hdial; exec_with Hrma; exec_with Hrm; exec_with Hdata;
      exec_with Hb; exec; norm_app; reflexivity. }
  destruct (getBridgeData bridge w4) as [[[b|] [e|]] w5] eqn:Hbd;
    try (destruct Hcmd as [<-|[<-|[<-|[]]]];
         [unfold gerInspect|unfold gerDump|unfold gerMonitor];
         exec_with Hcdk; exec_with Hdial; exec_with Hrma; exec_with Hrm; exec_with Hdata;
         exec_with Hb; exec_with Hbd; exec; norm_app; reflexivity).
  destruct (getGER (Some a) c (GlobalExitRootManager b)) as [[g gabi] [e|]] eqn:Hg.
  { destruct Hcmd as [<-|[<-|[<-|[]]]];
      [unfold gerInspect|unfold gerDump|unfold gerMonitor];
      exec_with Hcdk; exec_with Hdial; exec_with Hrma; exec_with Hrm; exec_with Hdata;
      exec_with Hb; exec_with Hbd; exec_with Hg; exec; norm_app; reflexivity. }
  destruct Hcmd as [<-|[<-|[<-|[]]]];
    [unfold gerInspect|unfold gerDump|unfold gerMonitor];
    exec_with Hcdk; exec_with Hdial; exec_with Hrma; exec_with Hrm; exec_with Hdata;
    exec_with Hb; exec_with Hbd; exec_with Hg; exec.
  - at_exit_root_manager.
  - at_exit_root_manager.
  - at_exit_root_manager.
Qed.

(** What lies beside the walk: the events of the arguments, of the
    exit-root manager's snapshot and of the end of a command are none of
    those [f] looks for. *)
Section Beside.
Context {X : Type} (f : event -> option X).
Hypothesis f_dial : forall url err, f (EvDial url err) = None.
Hypothesis f_fatal : forall msg, f (EvFatal msg) = None.
Hypothesis f_sleep : forall d, f (EvSleep d) = None.
Hypothesis f_ger : forall op v err, f (EvGER op v err) = None.
Hypothesis f_print : forall v, f (EvPrintJSON v) = None.
Hypothesis f_watch : forall a err, f (EvWatch a err) = None.

Lemma opened_beside args w a c rma w3 t0 :
  opened args w a c rma w3 t0 -> omap f t0 = [].
Proof.
  intros (w1 & w2 & t1 & t2 & t3 & Hcdk & Hdial & Hrma & ->).
  assert (Hd : forall url, free f (mustGetRPCClient url)).
  { intros url. unfold mustGetRPCClient, log_Fatal. free_tac. }
  assert (H1 : free f (parseCDKArgs args)).
  { unfold parseCDKArgs, deref. free_tac. }
  assert (H3 : free f (parseRollupManagerArgs args args a)).
  { unfold parseRollupManagerArgs, deref. free_tac. }
  specialize (H1 w). specialize (Hd (rpcURL a) w1). specialize (H3 w2).
  rewrite Hcdk in H1. rewrite Hdial in Hd. rewrite Hrma in H3.
  cbn [trace_of snd] in H1, Hd, H3.
  now rewrite !omap_app, H1, Hd, H3.
Qed.

Lemma getGERData_beside h w : omap f (trace_of (getGERData h w)) = [].
Proof.
  assert (Hf : free f (getGERData h)); [|exact (Hf w)].
  unfold getGERData, gerCall, time_Sleep. free_tac.
Qed.

Lemma atExitRootManager_beside c g gabi address w5 rest :
  atExitRootManager c g gabi address w5 rest -> omap f rest = [].
Proof.
  intros [(out & -> & Hout)|[(g' & -> & ->)|[_ ->]]].
  - rewrite omap_app, getGERData_beside.
    destruct Hout as [->|[v ->]]; cbn; [reflexivity|now rewrite f_print].
  - cbn. now rewrite f_watch.
  - reflexivity.
Qed.

End Beside.

Lemma getRollupManagerData_beside {X} (f : event -> option X) h w :
  (forall op v err, f (EvRollupManager op v err) = None) ->
  (forall d, f (EvSleep d) = None) ->
  omap f (trace_of (getRollupManagerData h w)) = [].
Proof.
  intros f_rm f_sleep.
  assert (Hf : free f (getRollupManagerData h)); [|exact (Hf w)].
  unfold getRollupManagerData, rmCall, time_Sleep. free_tac.
Qed.

End WalkTree.

(** The observers of a run, on the events of a walk. *)
Ltac observe Hop Hdata Hrest :=
  rewrite !omap_app;
  lazymatch goal with
  | |- context [omap ?f _] =>
      rewrite (opened_beside f ltac:(reflexivity) ltac:(reflexivity) _ _ _ _ _ _ _ Hop);
      try rewrite (atExitRootManager_beside f ltac:(reflexivity) ltac:(reflexivity)
                     ltac:(reflexivity) ltac:(reflexivity) _ _ _ _ _ _ Hrest);
      try (rewrite <- Hdata;
           rewrite (getRollupManagerData_beside f _ _ ltac:(reflexivity) ltac:(reflexivity)))
  end;
  cbn.

(** C7.  The chain walk of [gerInspect], [gerDump] and [gerMonitor], step
    by step, once the arguments are read ([opened]).  The rollup manager
    is resolved by [getRollupManager] at the address of the arguments and
    its snapshot [d] is read by [getRollupManagerData] on the handle
    returned; the bridge is resolved by [getBridge] at [BridgeAddress d];
    [getBridgeData] is called on the handle [getBridge] returned and, when
    it returns [b], the exit-root manager is resolved by [getGER] at
    [GlobalExitRootManager b]; the handle [getGER] returned is the one the
    command then reads or watches.  In a walk that gets this far the
    bridge and the exit-root manager are each resolved once, at these two
    addresses.  A step that fails ends the run: the command returns the
    error of that step, the step is the last event of the run, and nothing
    further is resolved or called. *)
Theorem chain_walk_addresses `{Env} (cmd : inputArgs -> M (option error))
    (args : inputArgs) (w : W) (a : parsedCDKArgs Client) (c : option Client)
    (rma : parsedRollupManagerArgs W) (w3 : W) (t0 : list event) :
  In cmd gerCommands ->
  opened args w a c rma w3 t0 ->
  match getRollupManager (Some a) c (rollupManagerAddress rma) with
  | (_, _, Some e) =>
      cmd args w
        = (Ret (Some e), w3,
           t0 ++ [EvResolve KRollupManager (rollupManagerAddress rma) (Some e)])
  | (h, _, None) =>
      let resolved := t0 ++ [EvResolve KRollupManager (rollupManagerAddress rma) None] in
      match getRollupManagerData h w3 with
      | (Ret (_, Some e), w4, t4) => cmd args w = (Ret (Some e), w4, resolved ++ t4)
      | (Ret (None, None), w4, t4) => cmd args w = (Panic nilDereference, w4, resolved ++ t4)
      | (Panic msg, w4, t4) => cmd args w = (Panic msg, w4, resolved ++ t4)
      | (Exit code, w4, t4) => cmd args w = (Exit code, w4, resolved ++ t4)
      | (OutOfFuel, w4, t4) => cmd args w = (OutOfFuel, w4, resolved ++ t4)
      | (Ret (Some d, None), w4, t4) =>
          let pre := resolved ++ t4 in
          match getBridge (Some a) c (BridgeAddress d) with
          | (_, _, Some e) =>
              cmd args w
                = (Ret (Some e), w4, pre ++ [EvResolve KBridge (BridgeAddress d) (Some e)])
          | (bridge, _, None) =>
              match getBridgeData bridge w4 with
              | ((bd, Some e), w5) =>
                  cmd args w
                    = (Ret (Some e), w5,
                       pre ++ [EvResolve KBridge (BridgeAddress d) None;
                               EvGetBridgeData (GlobalExitRootManager <$> bd) (Some e)])
              | ((None, None), w5) =>
                  cmd args w
                    = (Panic nilDereference, w5,
                       pre ++ [EvResolve KBridge (BridgeAddress d) None;
                               EvGetBridgeData None None])
              | ((Some b, None), w5) =>
                  match getGER (Some a) c (GlobalExitRootManager b) with
                  | (_, _, Some e) =>
                      cmd args w
                        = (Ret (Some e), w5,
                           pre ++ [EvResolve KBridge (BridgeAddress d) None;
                                   EvGetBridgeData (Some (GlobalExitRootManager b)) None;
                                   EvResolve KGER (GlobalExitRootManager b) (Some e)])
                  | (g, gabi, None) =>
                      exists rest,
                        trace_of (cmd args w)
                          = pre ++ descent (BridgeAddress d) (GlobalExitRootManager b) ++ rest /\
                        atExitRootManager c g gabi (GlobalExitRootManager b) w5 rest /\
                        resolvedAt KBridge (trace_of (cmd args w)) = [BridgeAddress d] /\
                        resolvedAt KGER (trace_of (cmd args w))
                          = [GlobalExitRootManager b]
                  end
              end
          end
      end
  end.
Proof.
  intros Hcmd Hop. pose proof (ger_walk cmd args w a c rma w3 t0 Hcmd Hop) as Hw.
  destruct (getRollupManager (Some a) c (rollupManagerAddress rma))
    as [[h abi] [e|]]; [exact Hw|].
  cbv zeta in *.
  destruct (getRollupManagerData h w3) as [[[[[d|] [e|]]|msg|code|] w4] t4] eqn:Hdata;
    try exact Hw.
  destruct (getBridge (Some a) c (BridgeAddress d)) as [[bridge babi] [e|]]; [exact Hw|].
  destruct (getBridgeData bridge w4) as [[[b|] [e|]] w5]; try exact Hw.
  destruct (getGER (Some a) c (GlobalExitRootManager b)) as [[g gabi] [e|]]; [exact Hw|].
  destruct Hw as (rest & Ht & Hrest).
  assert (Ht4 : trace_of (getRollupManagerData h w3) = t4) by now rewrite Hdata.
  exists rest. split; [exact Ht|]. split; [exact Hrest|].
  rewrite Ht. unfold resolvedAt, descent. split; observe Hop Ht4 Hrest; reflexivity.
Qed.

(** The scenario of the specification: fork [banana], a stub rollup
    manager that reports the bridge at [0xBBBB], a stub bridge that
    reports the exit-root manager at [0xCCCC]; and the same chain when
    the call of [getBridgeData], the ninth, fails. *)
Lemma chain_walk_addresses_witness :
  (exists rest,
    trace_of (@gerInspect (Stub.env None None 3) (Stub.args "banana") 0%nat)
      = (([EvDial defaultRPCURL None; EvDial defaultRPCURL None] ++
          [EvResolve KRollupManager 0xAAAAaaaaAAAAaaaaAAAAaaaaAAAAaaaaAAAAaaaa None]) ++
         trace_of (@getRollupManagerData (Stub.env None None 3)
                     (Some (Stub.rollupManager None 3)) 0%nat)) ++
        descent Stub.bridgeAddress Stub.gerAddress ++ rest /\
    @atExitRootManager (Stub.env None None 3) (Some defaultRPCURL)
      (Some {| ger_iface := Some (Stub.gerContract None); instance := tt |}) (Some tt)
      Stub.gerAddress 9%nat rest /\
    resolvedAt KBridge
      (trace_of (@gerInspect (Stub.env None None 3) (Stub.args "banana") 0%nat))
      = [Stub.bridgeAddress] /\
    resolvedAt KGER
      (trace_of (@gerInspect (Stub.env None None 3) (Stub.args "banana") 0%nat))
      = [Stub.gerAddress]) /\
  @gerMonitor (Stub.env None (Some 8%nat) 3) (Stub.args "banana") 0%nat
    = (Ret (Some Stub.reverted), 9%nat,
       (([EvDial defaultRPCURL None; EvDial defaultRPCURL None] ++
         [EvResolve KRollupManager 0xAAAAaaaaAAAAaaaaAAAAaaaaAAAAaaaaAAAAaaaa None]) ++
        trace_of (@getRollupManagerData (Stub.env None (Some 8%nat) 3)
                    (Some (Stub.rollupManager (Some 8%nat) 3)) 0%nat)) ++
       [EvResolve KBridge Stub.bridgeAddress None;
        EvGetBridgeData (Some Stub.gerAddress) (Some Stub.reverted)]).
Proof.
  split.
  - assert (Hop : @opened (Stub.env None None 3) (Stub.args "banana") 0%nat
                    {| rpcURL := defaultRPCURL; rpcClient := Some defaultRPCURL;
                       forkID := 12 |}
                    (Some defaultRPCURL)
                    {| rollupManager := Some (Stub.rollupManager None 3);
                       rollupManagerAddress := 0xAAAAaaaaAAAAaaaaAAAAaaaaAAAAaaaaAAAAaaaa |}
                    0%nat [EvDial defaultRPCURL None; EvDial defaultRPCURL None]).
    { exists 0%nat, 0%nat, [EvDial defaultRPCURL None], [EvDial defaultRPCURL None], [].
      repeat split; vm_compute; reflexivity. }
    exact (@chain_walk_addresses (Stub.env None None 3) gerInspect (Stub.args "banana")
             0%nat _ _ _ _ _ ltac:(left; reflexivity) Hop).
  - assert (Hop : @opened (Stub.env None (Some 8%nat) 3) (Stub.args "banana") 0%nat
                    {| rpcURL := defaultRPCURL; rpcClient := Some defaultRPCURL;
                       forkID := 12 |}
                    (Some defaultRPCURL)
                    {| rollupManager := Some (Stub.rollupManager (Some 8%nat) 3);
                       rollupManagerAddress := 0xAAAAaaaaAAAAaaaaAAAAaaaaAAAAaaaaAAAAaaaa |}
                    0%nat [EvDial defaultRPCURL None; EvDial defaultRPCURL None]).
    { exists 0%nat, 0%nat, [EvDial defaultRPCURL None], [EvDial defaultRPCURL None], [].
      repeat split; vm_compute; reflexivity. }
    exact (@chain_walk_addresses (Stub.env None (Some 8%nat) 3) gerMonitor
             (Stub.args "banana") 0%nat _ _ _ _ _ ltac:(do 2 right; left; reflexivity) Hop).
Defined.

(** What is read off a run whose events [Ht] are known. *)
Ltac observed Hop Ht4 Hops Hrep :=
  unfold rmOps, reportedBridge, resolvedAt, bridgeDataCalls;
  rewrite !omap_app;
  lazymatch goal with
  | |- context [omap ?f _] =>
      rewrite (opened_beside f ltac:(reflexivity) ltac:(reflexivity) _ _ _ _ _ _ _ Hop);
      try match goal with
          | Hrest : atExitRootManager _ _ _ _ _ _ |- _ =>
              rewrite (atExitRootManager_beside f ltac:(reflexivity) ltac:(reflexivity)
                         ltac:(reflexivity) ltac:(reflexivity) _ _ _ _ _ _ Hrest)
          end;
      first [ rewrite <- Ht4;
              rewrite (getRollupManagerData_beside f _ _ ltac:(reflexivity)
                         ltac:(reflexivity))
            | rewrite Hops
            | rewrite Hrep ]
  end;
  cbn; reflexivity.

Ltac walk_leaves Ht Hop Ht4 Hops Hrep :=
  rewrite Ht;
  repeat lazymatch goal with |- _ /\ _ => split end;
  [ observed Hop Ht4 Hops Hrep
  | observed Hop Ht4 Hops Hrep
  | observed Hop Ht4 Hops Hrep
  | rewrite <- !app_assoc; cbn [app]; eexists; reflexivity
  | intros ? ?; first [discriminate | observed Hop Ht4 Hops Hrep]
  | let Hx := fresh "Hx" in
    intros ? ? Hx;
    first
      [ discriminate
      | injection Hx as <- <-;
        match goal with Hbd : getBridgeData _ _ = _ |- _ => rewrite Hbd end;
        cbn [fst snd];
        split;
        [ observed Hop Ht4 Hops Hrep
        | let Hy := fresh "Hy" in
          intros ? ? Hy;
          first [discriminate | injection Hy as <- <-; observed Hop Ht4 Hops Hrep] ] ] ].

(** C3, as the code has it.  In [gerInspect], [gerDump] and [gerMonitor]
    alike, whenever the arguments are read and the rollup manager is
    resolved and returns a snapshot [d].  The first discovery step is the
    full assembly: the eight reads of [getRollupManagerData], in its
    order, are all that the run reads of the rollup manager, and the
    bridge is resolved right after them, by [getBridge] at
    [BridgeAddress d], the address the [BridgeAddress] read returned.  The
    second step is one call of [getBridgeData], on the handle [getBridge]
    returned and in the state the snapshot left: the run makes this call
    once, and none when [getBridge] failed, and when it returns [b]
    without error the exit-root manager is resolved at
    [GlobalExitRootManager b] and nowhere else.  What [getBridgeData]
    reads of the bridge is outside this package's sources. *)
Theorem discovery_assembles_full_snapshot `{Env} (cmd : inputArgs -> M (option error))
    (args : inputArgs) (w : W) (a : parsedCDKArgs Client) (c : option Client)
    (rma : parsedRollupManagerArgs W) (w3 : W) (t0 : list event)
    (h : option (rollupManagerContractInterface W)) (abi : option ABI)
    (d : RollupManagerData) (w4 : W) (t4 : list event) :
  In cmd gerCommands ->
  opened args w a c rma w3 t0 ->
  getRollupManager (Some a) c (rollupManagerAddress rma) = (h, abi, None) ->
  getRollupManagerData h w3 = (Ret (Some d, None), w4, t4) ->
  rmOps (trace_of (cmd args w)) = rollupManagerSnapshotOps /\
  reportedBridge (trace_of (cmd args w)) = [BridgeAddress d] /\
  resolvedAt KBridge (trace_of (cmd args w)) = [BridgeAddress d] /\
  (exists rest,
     trace_of (cmd args w)
       = t0 ++ [EvResolve KRollupManager (rollupManagerAddress rma) None] ++ t4 ++
         [EvResolve KBridge (BridgeAddress d) (getBridge (Some a) c (BridgeAddress d)).2] ++
         rest) /\
  (forall e, (getBridge (Some a) c (BridgeAddress d)).2 = Some e ->
     bridgeDataCalls (trace_of (cmd args w)) = []) /\
  (forall bridge babi,
     getBridge (Some a) c (BridgeAddress d) = (bridge, babi, None) ->
     bridgeDataCalls (trace_of (cmd args w))
       = [(GlobalExitRootManager <$> (getBridgeData bridge w4).1.1,
           (getBridgeData bridge w4).1.2)] /\
     forall b w5,
       getBridgeData bridge w4 = ((Some b, None), w5) ->
       resolvedAt KGER (trace_of (cmd args w)) = [GlobalExitRootManager b]).
Proof.
  intros Hcmd Hop Hrm Hdata.
  pose proof (ger_walk cmd args w a c rma w3 t0 Hcmd Hop) as Hw.
  rewrite Hrm, Hdata in Hw. cbv zeta in Hw.
  assert (Ht4 : trace_of (getRollupManagerData h w3) = t4) by now rewrite Hdata.
  destruct (getRollupManagerData_complete h w3 d None) as (_ & Hops & _ & Hrep).
  { now rewrite Hdata. }
  rewrite Ht4 in Hops, Hrep. unfold rmOps in Hops. unfold reportedBridge in Hrep.
  destruct (getBridge (Some a) c (BridgeAddress d)) as [[bridge babi] [e|]] eqn:Hb;
    cbn [snd].
  { apply (f_equal trace_of) in Hw. cbn [trace_of snd] in Hw.
    walk_leaves Hw Hop Ht4 Hops Hrep. }
  destruct (getBridgeData bridge w4) as [[bd [e|]] w5] eqn:Hbd.
  { assert (Ht : trace_of (cmd args w)
                 = ((t0 ++ [EvResolve KRollupManager (rollupManagerAddress rma) None]) ++ t4)
                   ++ [EvResolve KBridge (BridgeAddress d) None;
                       EvGetBridgeData (GlobalExitRootManager <$> bd) (Some e)]).
    { destruct bd; now rewrite Hw. }
    walk_leaves Ht Hop Ht4 Hops Hrep. }
  destruct bd as [b|].
  2:{ apply (f_equal trace_of) in Hw. cbn [trace_of snd] in Hw.
      walk_leaves Hw Hop Ht4 Hops Hrep. }
  destruct (getGER (Some a) c (GlobalExitRootManager b)) as [[g gabi] [e|]] eqn:Hg.
  { apply (f_equal trace_of) in Hw. cbn [trace_of snd] in Hw.
    walk_leaves Hw Hop Ht4 Hops Hrep. }
  destruct Hw as (rest & Ht & Hrest). unfold descent in Ht.
  walk_leaves Ht Hop Ht4 Hops Hrep.
Qed.

(** The monitor command on the stubs: the eight reads of the snapshot
    are all it reads of the rollup manager, the bridge is asked for its
    data once, and the exit-root manager is resolved at the address of
    that data. *)
Lemma discovery_assembles_full_snapshot_witness :
  rmOps (trace_of (@gerMonitor (Stub.env None None 3) (Stub.args "banana") 0%nat))
    = rollupManagerSnapshotOps /\
  reportedBridge (trace_of (@gerMonitor (Stub.env None None 3) (Stub.args "banana") 0%nat))
    = [Stub.bridgeAddress] /\
  bridgeDataCalls (trace_of (@gerMonitor (Stub.env None None 3) (Stub.args "banana") 0%nat))
    = [(Some Stub.gerAddress, None)] /\
  resolvedAt KGER (trace_of (@gerMonitor (Stub.env None None 3) (Stub.args "banana") 0%nat))
    = [Stub.gerAddress].
Proof.
  assert (Hop : @opened (Stub.env None None 3) (Stub.args "banana") 0%nat
                  {| rpcURL := defaultRPCURL; rpcClient := Some defaultRPCURL;
                     forkID := 12 |}
                  (Some defaultRPCURL)
                  {| rollupManager := Some (Stub.rollupManager None 3);
                     rollupManagerAddress := 0xAAAAaaaaAAAAaaaaAAAAaaaaAAAAaaaaAAAAaaaa |}
                  0%nat [EvDial defaultRPCURL None; EvDial defaultRPCURL None]).
  { exists 0%nat, 0%nat, [EvDial defaultRPCURL None], [EvDial defaultRPCURL None], [].
    repeat split; vm_compute; reflexivity. }
  destruct (@discovery_assembles_full_snapshot (Stub.env None None 3) gerMonitor
              (Stub.args "banana") 0%nat _ _ _ _ _ _ _
              {| Pol := 0x9999; BridgeAddress := Stub.bridgeAddress; RollupCount := 3;
                 BatchFee := Some 100; TotalSequencedBatches := 70;
                 TotalVerifiedBatches := 60; LastAggregationTimestamp := 1700000000;
                 LastDeactivatedEmergencyStateTimestamp := 0 |}
              8%nat
              (trace_of (@getRollupManagerData (Stub.env None None 3)
                           (Some (Stub.rollupManager None 3)) 0%nat))
              ltac:(do 2 right; left; reflexivity) Hop eq_refl eq_refl)
    as (Hops & Hrep & _ & _ & _ & Hcalls).
  destruct (Hcalls (Some tt) (Some tt) eq_refl) as [Hc Hg].
  split; [exact Hops|]. split; [exact Hrep|]. split; [exact Hc|].
  exact (Hg Stub.gerAddress 9%nat eq_refl).
Defined.

(** C3 as stated fails: before the bridge is resolved, [gerMonitor], which
    is asked for neither an inspect nor a dump, has read more of the
    rollup manager than its bridge address. *)
Lemma discovery_is_not_a_single_read :
  ~ (forall (E : Env) (args : inputArgs) (w : W) (t1 : list event),
        beforeResolve KBridge (trace_of (gerMonitor args w)) = Some t1 ->
        rmOps t1 = [RM_BridgeAddress]).
Proof.
  intros Hall.
  pose proof (Hall (Stub.env None None 3) (Stub.args "banana") 0%nat _ eq_refl) as Hops.
  vm_compute in Hops. discriminate.
Qed.

(** C6: the rollup-manager monitor command.  Whatever its arguments and
    the state of the chain, [rollupManagerMonitor] panics with
    "not implemented" before any event: it dials nothing, resolves nothing
    and watches nothing.  Its sibling [gerMonitor], on the stubs, ends in
    a watch of the resolved exit-root manager. *)
Theorem rollupManagerMonitor_not_implemented `{Env} :
  (forall args w, rollupManagerMonitor args w = (Panic "not implemented", w, [])) /\
  watched (trace_of (@gerMonitor (Stub.env None None 3) (Stub.args "banana") 0%nat))
    = [[Stub.gerAddress]] /\
  watched (trace_of (@rollupManagerMonitor (Stub.env None None 3)
                       (Stub.args "banana") 0%nat)) = [].
Proof. repeat split. Qed.

(** Every run of [gerMonitor] that returns nil has handed the resolved
    exit-root manager to the watch. *)
Lemma gerMonitor_watches `{Env} args w :
  outcome_of (gerMonitor args w) = Ret None ->
  watched (trace_of (gerMonitor args w))
    = [resolvedAt KGER (trace_of (gerMonitor args w))].
Proof.
  destruct (gerMonitor args w) as [[o w'] t] eqn:E.
  destruct (gerMonitor_walk _ _ _ _ _ E) as (_ & _ & _ & HS & _).
  cbn. intros Ho. destruct (HS Ho) as (_ & _ & _ & Hw). exact Hw.
Qed.

(** ** Fork identifiers and the rollup-manager handle *)

Section Forks.
Context `{Env}.

(** A fork name that is not a key of [knownForks] is refused. *)
Lemma parseCDKArgs_unknown_fork args f w a err :
  in_forkID args = Some f ->
  len f > 0 ->
  knownForks !! f = None ->
  outcome_of (parseCDKArgs args w) = Ret (a, err) ->
  a = None /\ err = Some (errors_New invalidForkIDMessage).
Proof.
  intros Hf Hlen Hnone.
  unfold parseCDKArgs, mustGetRPCClient, ethclient_DialContext. unfold_go.
  destruct (in_rpcURL args) as [url|]; cbn; [|discriminate].
  destruct (DialContext url w) as [[c [e|]] w1]; cbn; [discriminate|].
  rewrite Hf. cbn. destruct (Z.gtb_spec (len f) 0) as [_|]; [|lia].
  match goal with
  | |- context [match ?m !! f with _ => _ end] => change m with knownForks
  end. rewrite Hnone. cbn.
  intros [= <- <-]. auto.
Qed.

(** The fork number that [parseCDKArgs] returns is [0] (no fork name
    given) or one of the three supported forks. *)
Lemma parseCDKArgs_forkID args w a err :
  outcome_of (parseCDKArgs args w) = Ret (Some a, err) ->
  err = None /\
  ((forkID a = 0 /\ nonEmpty (in_forkID args) = None) \/
   (forkID a = etrog \/ forkID a = elderberry \/ forkID a = banana)).
Proof.
  unfold parseCDKArgs, mustGetRPCClient, ethclient_DialContext, nonEmpty. unfold_go.
  destruct (in_rpcURL args) as [url|]; cbn; [|discriminate].
  destruct (DialContext url w) as [[c [e|]] w1]; cbn; [discriminate|].
  destruct (in_forkID args) as [f|]; cbn; [|intros [= <- <-]; auto].
  destruct (len f >? 0); cbn; [|intros [= <- <-]; auto].
  match goal with
  | |- context [match ?m !! f with _ => _ end] => change m with knownForks
  end.
  destruct (knownForks !! f) as [id|] eqn:Hid; cbn; [|discriminate].
  intros [= <- <-]. split; [reflexivity|]. right. cbn.
  apply elem_of_list_to_map_2 in Hid.
  repeat (apply elem_of_cons in Hid as [[= _ <-]|Hid]; [auto|]).
  apply elem_of_nil in Hid. destruct Hid.
Qed.

(** Outside the three supported forks, [parseRollupManagerArgs] returns
    its arguments with a nil handle and a nil error. *)
Lemma parseRollupManagerArgs_unsupported g a c w r err :
  forkID c <> etrog -> forkID c <> elderberry -> forkID c <> banana ->
  outcome_of (parseRollupManagerArgs g a c w) = Ret (Some r, err) ->
  rollupManager r = None /\ err = None.
Proof.
  intros H7 H9 H12.
  unfold parseRollupManagerArgs. unfold_go.
  destruct (Z.eqb_spec (forkID c) etrog) as [|_]; [contradiction|].
  destruct (Z.eqb_spec (forkID c) elderberry) as [|_]; [contradiction|].
  destruct (Z.eqb_spec (forkID c) banana) as [|_]; [contradiction|].
  repeat run_any; intros [= <- <-]; auto.
Qed.

End Forks.

(** C2 at its failing input: the fork flag is the empty string.
    [parseCDKArgs] accepts it and leaves the fork number at [0];
    [parseRollupManagerArgs], whose switch has no default case, then
    returns a nil error with a nil rollup-manager handle; the first call
    through that handle, here in [parseRollupArgs], is a nil dereference. *)
Theorem empty_fork_gets_nil_handle :
  outcome_of (@parseCDKArgs (Stub.env None None 3) (Stub.args EmptyString) 0%nat)
    = Ret (Some {| rpcURL := defaultRPCURL; rpcClient := Some defaultRPCURL; forkID := 0 |},
           None) /\
  outcome_of (@parseRollupManagerArgs (Stub.env None None 3) (Stub.args EmptyString) (Stub.args EmptyString)
                {| rpcURL := defaultRPCURL; rpcClient := Some defaultRPCURL; forkID := 0 |}
                0%nat)
    = Ret (Some {| rollupManager := None;
                   rollupManagerAddress :=
                     HexToAddress "0xAAAAaaaaAAAAaaaaAAAAaaaaAAAAaaaaAAAAaaaa" |},
           None) /\
  outcome_of (@parseRollupArgs (Stub.env None None 3)
                (Stub.rollupArgs EmptyString EmptyString "1001") (Stub.rollupArgs EmptyString EmptyString "1001")
                (Some {| rollupManager := None;
                         rollupManagerAddress :=
                           HexToAddress "0xAAAAaaaaAAAAaaaaAAAAaaaaAAAAaaaaAAAAaaaa" |})
                0%nat)
    = Panic nilDereference /\
  outcome_of (@parseCDKArgs (Stub.env None None 3) (Stub.args "blueberry") 0%nat)
    = Ret (None, Some (errors_New invalidForkIDMessage)).
Proof. repeat split; vm_compute; reflexivity. Qed.

(** ** [strconv.Atoi] and the rollup ID *)

(** Case analysis on every comparison of the goal. *)
Ltac zbool :=
  repeat match goal with
         | |- context [?a <=? ?b] => destruct (Z.leb_spec a b)
         | |- context [?a <? ?b] => destruct (Z.ltb_spec a b)
         | |- context [?a >? ?b] => destruct (Z.gtb_spec a b)
         | |- context [?a >=? ?b] => destruct (Z.geb_spec a b)
         end;
  cbn [andb orb negb].

Section Strconv.

Lemma byte_of_range c : 0 <= byte_of c < 256.
Proof.
  unfold byte_of. pose proof (nat_ascii_bounded c). lia.
Qed.

Lemma bytes_range s : Forall (fun c => 0 <= c < 256) (bytes s).
Proof. induction s; cbn; constructor; auto using byte_of_range. Qed.

Lemma bytes_length s : length (bytes s) = String.length s.
Proof. induction s; cbn; congruence. Qed.

Lemma digitsValue_bounds cs : forall acc v,
  0 <= acc -> digitsValue cs acc = Some v ->
  acc * 10 ^ Z.of_nat (length cs) <= v < (acc + 1) * 10 ^ Z.of_nat (length cs).
Proof.
  induction cs as [|c cs IH]; intros acc v Hacc; cbn [digitsValue length].
  - intros [= <-]. cbn. lia.
  - unfold isDigit. destruct (Z.leb_spec 48 c); cbn; [|discriminate].
    destruct (Z.leb_spec c 57); cbn; [|discriminate].
    intros Hv. apply IH in Hv; [|lia].
    rewrite Nat2Z.inj_succ, Z.pow_succ_r by lia.
    nia.
Qed.

Lemma atoiLoop_spec s0 cs : forall n,
  Forall (fun c => 0 <= c < 256) cs ->
  accepted (strconv.atoiLoop s0 cs n) = digitsValue cs n.
Proof.
  induction cs as [|c cs IH]; intros n Hcs; cbn [strconv.atoiLoop digitsValue]; [reflexivity|].
  inversion Hcs as [|? ? Hc Hcs']; subst.
  unfold isDigit, wrap.
  destruct (Z.leb_spec 48 c); cbn.
  - rewrite Z.mod_small by lia.
    destruct (Z.leb_spec c 57); destruct (Z.gtb_spec (c - 48) 9); try lia; cbn; auto.
  - replace ((c - 48) mod 2 ^ 8) with (c - 48 + 256).
    2:{ apply Z.mod_unique with (q := -1); cbn; lia. }
    destruct (Z.gtb_spec (c - 48 + 256) 9); try lia. reflexivity.
Qed.

Lemma pow10_pos n : 1 <= 10 ^ Z.of_nat n.
Proof. pose proof (Z.pow_pos_nonneg 10 (Z.of_nat n)). lia. Qed.

(** The digit loop of [ParseUint]: its overflow tests are exact. *)
Lemma parseUintLoop_spec s0 cs : forall n,
  0 <= n <= maxUint64 ->
  match digitsValue cs n with
  | Some v =>
      strconv.parseUintLoop s0 10 maxUint64 cs n
      = if v <=? maxUint64 then (v, None)
        else (maxUint64, Some (strconv.rangeError "ParseUint" s0))
  | None =>
      strconv.parseUintLoop s0 10 maxUint64 cs n
        = (0, Some (strconv.syntaxError "ParseUint" s0)) \/
      strconv.parseUintLoop s0 10 maxUint64 cs n
        = (maxUint64, Some (strconv.rangeError "ParseUint" s0))
  end.
Proof.
  induction cs as [|c cs IH]; intros n Hn; cbn [strconv.parseUintLoop digitsValue].
  - destruct (Z.leb_spec n maxUint64); [reflexivity|lia].
  - unfold isDigit. destruct ((48 <=? c) && (c <=? 57)) eqn:Hd.
    + apply andb_prop in Hd as [H1%Z.leb_le H2%Z.leb_le].
      destruct (Z.geb_spec (c - 48) 10); [lia|].
      unfold maxUint64 in *.
      change ((2 ^ 64 - 1) / 10 + 1) with 1844674407370955162.
      destruct (Z.geb_spec n 1844674407370955162) as [Hcut|Hcut].
      * destruct (digitsValue cs (n * 10 + (c - 48))) as [v|] eqn:Hv; [|auto].
        apply digitsValue_bounds in Hv; [|lia].
        pose proof (pow10_pos (length cs)).
        destruct (Z.leb_spec v (2 ^ 64 - 1)); [nia|reflexivity].
      * unfold uint64, wrap.
        rewrite (Z.mod_small (n * 10)) by lia.
        destruct (Z.ltb_spec (n * 10 + (c - 48)) (2 ^ 64)) as [Hfit|Hover].
        -- rewrite Z.mod_small by lia.
           destruct (Z.ltb_spec (n * 10 + (c - 48)) (n * 10)); [lia|].
           destruct (Z.gtb_spec (n * 10 + (c - 48)) (2 ^ 64 - 1)); [lia|].
           cbn [orb]. apply IH. lia.
        -- replace ((n * 10 + (c - 48)) mod 2 ^ 64) with (n * 10 + (c - 48) - 2 ^ 64).
           2:{ apply Z.mod_unique with (q := 1); lia. }
           destruct (Z.ltb_spec (n * 10 + (c - 48) - 2 ^ 64) (n * 10)); [|lia].
           cbn [orb].
           destruct (digitsValue cs (n * 10 + (c - 48))) as [v|] eqn:Hv; [|auto].
           apply digitsValue_bounds in Hv; [|lia].
           pose proof (pow10_pos (length cs)).
           destruct (Z.leb_spec v (2 ^ 64 - 1)); [nia|reflexivity].
    + destruct ((97 <=? strconv.lower c) && (strconv.lower c <=? 122)) eqn:Hl; [|auto].
      apply andb_prop in Hl as [H1%Z.leb_le H2%Z.leb_le].
      destruct (Z.geb_spec (strconv.lower c - 97 + 10) 10); [auto|lia].
Qed.

Lemma ParseUint_spec s :
  s <> EmptyString ->
  match digitsValue (bytes s) 0 with
  | Some v =>
      strconv.ParseUint s 0
      = if v <=? maxUint64 then (v, None)
        else (maxUint64, Some (strconv.rangeError "ParseUint" s))
  | None =>
      strconv.ParseUint s 0 = (0, Some (strconv.syntaxError "ParseUint" s)) \/
      strconv.ParseUint s 0 = (maxUint64, Some (strconv.rangeError "ParseUint" s))
  end.
Proof.
  intros Hs. unfold strconv.ParseUint.
  destruct (String.eqb_spec s EmptyString) as [|_]; [contradiction|].
  cbn [Z.eqb intSize]. change (2 ^ 64 - 1) with maxUint64.
  apply parseUintLoop_spec. unfold maxUint64. lia.
Qed.

(** [ParseInt] on an unsigned body [u]: sign [neg] and range test. *)
Lemma ParseInt_body s0 neg u :
  u <> EmptyString ->
  accepted
    (let '(un, err) := strconv.ParseUint u 0 in
     match err with
     | Some (NumError _ _ ErrSyntax) => (0, Some (strconv.syntaxError "ParseInt" s0))
     | Some (errors_New _) => (0, err)
     | _ =>
         let bitSize := if 0 =? 0 then intSize else 0 in
         let cutoff := 2 ^ (bitSize - 1) in
         if negb neg && (un >=? cutoff) then
           (cutoff - 1, Some (strconv.rangeError "ParseInt" s0))
         else if neg && (un >? cutoff) then
           (- cutoff, Some (strconv.rangeError "ParseInt" s0))
         else (if neg then - un else un, None)
     end)
  = (digitsValue (bytes u) 0 ≫= fun v => fitsInt (if neg then - v else v)).
Proof.
  intros Hu. pose proof (ParseUint_spec u Hu) as Hspec.
  destruct (digitsValue (bytes u) 0) as [v|] eqn:Hv.
  - apply digitsValue_bounds in Hv; [|lia].
    assert (0 <= v) as Hv0 by lia. clear Hv.
    rewrite Hspec. cbn [mbind option_bind]. unfold fitsInt, minInt64, maxInt64, maxUint64.
    unfold strconv.rangeError, strconv.syntaxError.
    change (if 0 =? 0 then intSize else 0) with 64.
    change (2 ^ (64 - 1)) with (2 ^ 63).
    destruct (Z.leb_spec v (2 ^ 64 - 1)); cbv beta iota zeta; destruct neg; cbn [negb andb];
      zbool; cbn [accepted]; try reflexivity; lia.
  - destruct Hspec as [-> | ->]; cbn; [reflexivity|].
    destruct neg; reflexivity.
Qed.
Lemma ParseInt_spec s :
  accepted (strconv.ParseInt s 0) = numericValue s ≫= fitsInt.
Proof.
  destruct s as [|c r]; [reflexivity|].
  unfold strconv.ParseInt, numericValue.
  destruct (Ascii.eqb c "+") eqn:Hplus; [|destruct (Ascii.eqb c "-") eqn:Hminus].
  - destruct r as [|c' r']; [reflexivity|].
    exact (ParseInt_body (String c (String c' r')) false (String c' r') ltac:(discriminate)).
  - destruct r as [|c' r']; [reflexivity|].
    refine (eq_trans (ParseInt_body (String c (String c' r')) true (String c' r')
                        ltac:(discriminate)) _).
    destruct (digitsValue (bytes (String c' r')) 0); reflexivity.
  - exact (ParseInt_body (String c r) false (String c r) ltac:(discriminate)).
Qed.

Lemma digitsValue_short cs v :
  (length cs <= 18)%nat -> digitsValue cs 0 = Some v -> 0 <= v < 10 ^ 18.
Proof.
  intros Hlen Hv. apply digitsValue_bounds in Hv; [|lia].
  assert (10 ^ Z.of_nat (length cs) <= 10 ^ 18) by (apply Z.pow_le_mono_r; lia).
  lia.
Qed.

Lemma fitsInt_short v : - 10 ^ 18 < v < 10 ^ 18 -> fitsInt v = Some v.
Proof.
  intros Hv. unfold fitsInt, minInt64, maxInt64.
  destruct (Z.leb_spec (- 2 ^ 63) v); destruct (Z.leb_spec v (2 ^ 63 - 1)); cbn; auto; lia.
Qed.

(** The fast path of [Atoi] on the digits [u] of a string of fewer than
    19 bytes. *)
Lemma Atoi_fast s0 (neg : bool) u :
  (String.length u <= 18)%nat ->
  accepted
    match strconv.atoiLoop s0 (bytes u) 0 with
    | (n, None) => (if neg then - n else n, None)
    | bad => bad
    end
  = (digitsValue (bytes u) 0 ≫= fun v => fitsInt (if neg then - v else v)).
Proof.
  intros Hlen.
  pose proof (atoiLoop_spec s0 (bytes u) 0 (bytes_range u)) as Hloop.
  destruct (strconv.atoiLoop s0 (bytes u) 0) as [n [e|]]; cbn in Hloop; rewrite <- Hloop.
  - reflexivity.
  - cbn. symmetry in Hloop. apply digitsValue_short in Hloop; [|now rewrite bytes_length].
    rewrite fitsInt_short; [reflexivity|]. destruct neg; lia.
Qed.

(** [Atoi] accepts exactly the signed decimal numerals that fit the
    64-bit [int], with their value. *)
Lemma Atoi_spec s :
  accepted (strconv.Atoi s) = numericValue s ≫= fitsInt.
Proof.
  unfold strconv.Atoi. cbv zeta.
  replace (((intSize =? 32) && (0 <? len s) && (len s <? 10))
           || ((intSize =? 64) && (0 <? len s) && (len s <? 19)))
    with ((0 <? len s) && (len s <? 19)) by reflexivity.
  destruct ((0 <? len s) && (len s <? 19)) eqn:Hfast.
  - apply andb_prop in Hfast as [H0%Z.ltb_lt H19%Z.ltb_lt]. unfold len in *.
    destruct s as [|c r]; [cbn in H0; lia|].
    cbn [String.length] in H19.
    unfold numericValue.
    destruct (Ascii.eqb c "+") eqn:Hplus; [|destruct (Ascii.eqb c "-") eqn:Hminus].
    + apply Ascii.eqb_eq in Hplus. subst c. cbn [Ascii.eqb Bool.eqb orb andb].
      destruct r as [|c' r']; [reflexivity|].
      destruct (Z.ltb_spec (Z.of_nat (String.length (String c' r'))) 1) as [Hl|_];
        [cbn [String.length] in Hl; lia|].
      apply (Atoi_fast _ false). cbn [String.length] in *. lia.
    + cbn [orb andb].
      destruct r as [|c' r']; [reflexivity|].
      destruct (Z.ltb_spec (Z.of_nat (String.length (String c' r'))) 1) as [Hl|_];
        [cbn [String.length] in Hl; lia|].
      refine (eq_trans (Atoi_fast _ true (String c' r') _) _).
      { cbn [String.length] in *. lia. }
      destruct (digitsValue (bytes (String c' r')) 0); reflexivity.
    + cbn [orb andb].
      apply (Atoi_fast _ false). cbn [String.length]. lia.
  - pose proof (ParseInt_spec s) as Hslow.
    destruct (strconv.ParseInt s 0) as [i64 [[msg|fn num kind]|]]; exact Hslow.
Qed.

End Strconv.

Lemma accepted_Some r v : accepted r = Some v -> r = (v, None).
Proof. destruct r as [x [e|]]; cbn; congruence. Qed.

Lemma accepted_None r : accepted r = None -> exists x e, r = (x, Some e).
Proof. destruct r as [x [e|]]; cbn; [eauto|discriminate]. Qed.

Lemma numericValue_nonempty s v : numericValue s = Some v -> len s > 0.
Proof. destruct s; cbn; [discriminate|]. unfold len. cbn [String.length]. lia. Qed.

Lemma nonEmpty_Some s : len s > 0 -> nonEmpty (Some s) = Some s.
Proof. intros Hs. unfold nonEmpty. destruct (Z.gtb_spec (len s) 0); [reflexivity|lia]. Qed.

Section RollupID.
Context `{Env}.

Lemma parseRollupArgs_chainID_accepted g w :
  chainIDAccepted (in_rollupChainID g) ->
  exists c, parseRollupArgs_chainID g w = (Ret (inl c), w, []).
Proof.
  unfold chainIDAccepted, parseRollupArgs_chainID.
  destruct (nonEmpty (in_rollupChainID g)) as [c|]; [|eauto].
  intros (n & Hn%accepted_Some & Hpos). rewrite Hn. cbn.
  destruct (Z.ltb_spec n 0); [lia|]. cbn. eauto.
Qed.

Lemma parseRollupArgs_address_accepted a :
  addressAccepted (in_rollupAddress a) ->
  exists x, parseRollupArgs_address a = inl x.
Proof.
  unfold addressAccepted, parseRollupArgs_address, checkAddressArg.
  destruct (nonEmpty (in_rollupAddress a)) as [s|]; [|eauto].
  intros ->. cbn. eauto.
Qed.

Lemma parseRollupArgs_wraps g a rma w s v :
  in_rollupID g = Some s ->
  numericValue s = Some v ->
  2 ^ 32 <= v <= maxInt64 ->
  chainIDAccepted (in_rollupChainID g) ->
  addressAccepted (in_rollupAddress a) ->
  exists c x,
    parseRollupArgs g a rma w
    = (Ret (Some {| rollupID := v mod 2 ^ 32; rollupChainID := c; rollupAddress := x |},
            None), w, []).
Proof.
  intros Hs Hv Hrange Hc Ha.
  destruct (parseRollupArgs_chainID_accepted g w Hc) as [c Hc'].
  destruct (parseRollupArgs_address_accepted a Ha) as [x Hx].
  exists c, x. unfold parseRollupArgs. unfold mbind, M_bind, bind.
  rewrite Hc', Hx. unfold parseRollupArgs_rollupID.
  rewrite Hs, (nonEmpty_Some s (numericValue_nonempty s v Hv)).
  pose proof (Atoi_spec s) as HA. rewrite Hv in HA. cbn [mbind option_bind] in HA.
  unfold fitsInt, minInt64 in HA.
  destruct (Z.leb_spec (- 2 ^ 63) v); [|lia].
  destruct (Z.leb_spec v maxInt64); [|lia].
  apply accepted_Some in HA. rewrite HA. cbn.
  destruct (Z.ltb_spec v 0); [lia|]. reflexivity.
Qed.

Lemma fitsInt_None v : fitsInt v = None -> v < 0 \/ maxInt64 < v.
Proof.
  unfold fitsInt, minInt64, maxInt64.
  destruct (Z.leb_spec (- 2 ^ 63) v); destruct (Z.leb_spec v (2 ^ 63 - 1)); cbn;
    try discriminate; lia.
Qed.

Lemma fitsInt_Some v n : fitsInt v = Some n -> n = v /\ minInt64 <= v <= maxInt64.
Proof.
  unfold fitsInt.
  destruct (Z.leb_spec minInt64 v); destruct (Z.leb_spec v maxInt64); cbn;
    try discriminate. intros [= <-]. lia.
Qed.

Lemma Atoi_rejected s :
  (let '(n, err) := strconv.Atoi s in bool_decide (err ≠ None) || (n <? 0)) = true <->
  (numericValue s = None \/
   exists v, numericValue s = Some v /\ (v < 0 \/ maxInt64 < v)).
Proof.
  pose proof (Atoi_spec s) as HA.
  destruct (strconv.Atoi s) as [n [e|]]; cbn in HA; cbn [bool_decide decide_rel].
  - split; [intros _|reflexivity].
    destruct (numericValue s) as [v|]; [right|left; reflexivity].
    exists v. split; [reflexivity|]. apply fitsInt_None. now rewrite HA.
  - destruct (numericValue s) as [v|]; cbn in HA; [|discriminate].
    symmetry in HA. apply fitsInt_Some in HA as [-> Hr].
    rewrite bool_decide_eq_false_2 by (intros Hne; now apply Hne). cbn [orb].
    rewrite Z.ltb_lt. split.
    + intros Hneg. right. exists v. auto.
    + intros [[=]|(v' & [= <-] & [Hneg|Hbig])]; lia.
Qed.

Lemma parseRollupArgs_rejected g a rma w s :
  in_rollupID g = Some s ->
  outcome_of (parseRollupArgs g a rma w) = Ret (None, Some (invalidRollupID s)) ->
  numericValue s = None \/
  exists v, numericValue s = Some v /\ (v < 0 \/ maxInt64 < v).
Proof.
  intros Hs.
  destruct (nonEmpty (in_rollupID g)) as [s'|] eqn:Hne.
  2:{ intros _. left. rewrite Hs in Hne. unfold nonEmpty in Hne.
      destruct (Z.gtb_spec (len s) 0); [discriminate|].
      destruct s; [reflexivity|]. unfold len in *. cbn [String.length] in *. lia. }
  assert (s' = s) as ->.
  { rewrite Hs in Hne. unfold nonEmpty in Hne. destruct (len s >? 0); congruence. }
  unfold parseRollupArgs, parseRollupArgs_chainID, parseRollupArgs_address,
    parseRollupArgs_rollupID, checkAddressArg.
  rewrite Hne, Hs. unfold_go.
  pose proof (Atoi_rejected s) as HA.
  destruct (strconv.Atoi s) as [n err].
  destruct (bool_decide (err ≠ None) || (n <? 0)).
  - intros _. now apply HA.
  - repeat run_any; cbn; try discriminate.
Qed.
(** Conversely such a string is rejected, with that error and without
    any call. *)
Lemma parseRollupArgs_rejects g a rma w s :
  in_rollupID g = Some s ->
  len s > 0 ->
  chainIDAccepted (in_rollupChainID g) ->
  addressAccepted (in_rollupAddress a) ->
  (numericValue s = None \/
   exists v, numericValue s = Some v /\ (v < 0 \/ maxInt64 < v)) ->
  parseRollupArgs g a rma w = (Ret (None, Some (invalidRollupID s)), w, []).
Proof.
  intros Hs Hlen Hc Ha Hbad.
  destruct (parseRollupArgs_chainID_accepted g w Hc) as [c Hc'].
  destruct (parseRollupArgs_address_accepted a Ha) as [x Hx].
  unfold parseRollupArgs. unfold mbind, M_bind, bind.
  rewrite Hc', Hx. unfold parseRollupArgs_rollupID.
  rewrite Hs, (nonEmpty_Some s Hlen).
  apply Atoi_rejected in Hbad.
  destruct (strconv.Atoi s) as [n err]. rewrite Hbad. reflexivity.
Qed.

End RollupID.

(** C10, as the code has it.  A rollup-id string that is a decimal
    numeral of value [v], [2^32 <= v <= 2^63 - 1], is not rejected: when
    the chain-id and address arguments pass their own checks,
    [parseRollupArgs] returns a nil error and [rollupID = v mod 2^32],
    without any call.  And a string rejected with the "must be a valid
    uint32" error is not a decimal numeral, or its value is negative, or
    its value is beyond the 64-bit [int]. *)
Theorem rollupID_wraps_modulo_2_32 `{Env} :
  (forall g a rma w s v,
      in_rollupID g = Some s ->
      numericValue s = Some v ->
      2 ^ 32 <= v <= maxInt64 ->
      chainIDAccepted (in_rollupChainID g) ->
      addressAccepted (in_rollupAddress a) ->
      exists c x,
        parseRollupArgs g a rma w
        = (Ret (Some {| rollupID := v mod 2 ^ 32; rollupChainID := c; rollupAddress := x |},
                None), w, [])) /\
  (forall g a rma w s,
      in_rollupID g = Some s ->
      outcome_of (parseRollupArgs g a rma w) = Ret (None, Some (invalidRollupID s)) ->
      numericValue s = None \/
      exists v, numericValue s = Some v /\ (v < 0 \/ maxInt64 < v)).
Proof.
  split.
  - intros g a rma w s v. apply parseRollupArgs_wraps.
  - intros g a rma w s. apply parseRollupArgs_rejected.
Qed.

(** The rollup ID [4294967297 = 2^32 + 1] is stored as [1]; the string
    ["abc"] is rejected. *)
Lemma rollupID_wraps_modulo_2_32_witness :
  (exists c x,
      @parseRollupArgs (Stub.env None None 3)
        (Stub.rollupArgs "banana" "4294967297" EmptyString) (Stub.rollupArgs "banana" "4294967297" EmptyString)
        None 0%nat
      = (Ret (Some {| rollupID := 1; rollupChainID := c; rollupAddress := x |}, None),
         0%nat, [])) /\
  (numericValue "abc" = None \/
   exists v, numericValue "abc" = Some v /\ (v < 0 \/ maxInt64 < v)).
Proof.
  split.
  - apply (proj1 (@rollupID_wraps_modulo_2_32 (Stub.env None None 3))
             (Stub.rollupArgs "banana" "4294967297" EmptyString)
             (Stub.rollupArgs "banana" "4294967297" EmptyString) None 0%nat
             "4294967297" 4294967297).
    + reflexivity.
    + reflexivity.
    + unfold maxInt64. lia.
    + exact I.
    + exact I.
  - apply (proj2 (@rollupID_wraps_modulo_2_32 (Stub.env None None 3))
             (Stub.rollupArgs "banana" "abc" EmptyString) (Stub.rollupArgs "banana" "abc" EmptyString)
             None 0%nat "abc").
    + reflexivity.
    + reflexivity.
Defined.

(** C10 as stated fails on its last clause: ["9223372036854775808"]
    ([2^63]) is a decimal numeral of non-negative value, and it is
    rejected with the "must be a valid uint32" error. *)
Lemma out_of_range_numeral_rejected :
  ~ (forall (E : Env) (g a : inputArgs) (rma : option (parsedRollupManagerArgs W))
            (w : W) (s : string),
        in_rollupID g = Some s ->
        outcome_of (parseRollupArgs g a rma w) = Ret (None, Some (invalidRollupID s)) ->
        numericValue s = None \/ exists v, numericValue s = Some v /\ v < 0).
Proof.
  intros Hall.
  destruct (Hall (Stub.env None None 3)
              (Stub.rollupArgs "banana" "9223372036854775808" EmptyString)
              (Stub.rollupArgs "banana" "9223372036854775808" EmptyString)
              None 0%nat "9223372036854775808" eq_refl eq_refl)
    as [Hnone|(v & Hv & Hneg)].
  - vm_compute in Hnone. discriminate.
  - vm_compute in Hv. injection Hv as <-. lia.
Qed.

(** ** The event monitor *)

Section Watch.
Import EventMonitor.

Lemma process_app abi pre rest :
  forallb is_delivered pre = true ->
  process abi (pre ++ rest) = process abi pre ++ process abi rest.
Proof.
  induction pre as [|[entry|] pre IH]; cbn; intros Hpre; [reflexivity| |discriminate].
  rewrite IH by exact Hpre. now rewrite app_assoc.
Qed.

Lemma process_yield_sound abi ds e :
  In (Yield e) (process abi ds) ->
  exists entry d args,
    In (Delivered entry) ds /\ lookupEvent abi entry = Some d /\
    ev_decode d entry = Some args /\ e = decoded d entry args.
Proof.
  induction ds as [|[entry|] ds IH]; cbn; try tauto.
  intros [Hin|Hin]%in_app_or.
  - unfold handleLog in Hin.
    destruct (lookupEvent abi entry) as [d|] eqn:Hd; [|destruct Hin].
    destruct (ev_decode d entry) as [args|] eqn:Ha; destruct Hin as [[=]|[]].
    subst e. exists entry, d, args. auto.
  - destruct (IH Hin) as (entry' & d & args & Hin' & ?). exists entry', d, args. auto.
Qed.

Lemma process_error_sound abi ds entry :
  In (DecodeError entry) (process abi ds) ->
  In (Delivered entry) ds /\
  exists d, lookupEvent abi entry = Some d /\ ev_decode d entry = None.
Proof.
  induction ds as [|[entry'|] ds IH]; cbn; try tauto.
  intros [Hin|Hin]%in_app_or.
  - unfold handleLog in Hin.
    destruct (lookupEvent abi entry') as [d|] eqn:Hd; [|destruct Hin].
    destruct (ev_decode d entry') as [args|] eqn:Ha; destruct Hin as [[=]|[]].
    subst entry'. eauto.
  - destruct (IH Hin) as (Hin' & ?). auto.
Qed.

End Watch.

(** C8.  For an entry that the transport delivers to the monitor before
    any cancellation, the reports of the watch are those of the entries
    before it, then the report of this entry, then those of the entries
    after it: nothing when its topic is the signature of no event of the
    ABI, one decode error when the event is known and the entry does not
    decode, one decoded event when it decodes.  Every decoded event of a
    watch comes from a delivered entry of known signature that decodes,
    and every decode error from a delivered entry of known signature that
    does not. *)
Theorem watch_decode_policy (abi : list EventMonitor.eventDef)
    (transport : EventMonitor.filterSpec -> list EventMonitor.delivery)
    (spec : EventMonitor.filterSpec)
    (pre post : list EventMonitor.delivery) (entry : EventMonitor.rawLog) :
  transport spec = pre ++ EventMonitor.Delivered entry :: post ->
  forallb EventMonitor.is_delivered pre = true ->
  (exists report,
      EventMonitor.watch abi transport spec
      = EventMonitor.process abi pre ++ report ++ EventMonitor.process abi post /\
      (EventMonitor.lookupEvent abi entry = None -> report = []) /\
      (forall d, EventMonitor.lookupEvent abi entry = Some d ->
                 EventMonitor.ev_decode d entry = None ->
                 report = [EventMonitor.DecodeError entry]) /\
      (forall d args, EventMonitor.lookupEvent abi entry = Some d ->
                      EventMonitor.ev_decode d entry = Some args ->
                      report = [EventMonitor.Yield (EventMonitor.decoded d entry args)])) /\
  (forall e, In (EventMonitor.Yield e) (EventMonitor.watch abi transport spec) ->
     exists entry' d args,
       In (EventMonitor.Delivered entry') (transport spec) /\
       EventMonitor.lookupEvent abi entry' = Some d /\
       EventMonitor.ev_decode d entry' = Some args /\
       e = EventMonitor.decoded d entry' args) /\
  (forall entry', In (EventMonitor.DecodeError entry') (EventMonitor.watch abi transport spec) ->
     In (EventMonitor.Delivered entry') (transport spec) /\
     exists d, EventMonitor.lookupEvent abi entry' = Some d /\
               EventMonitor.ev_decode d entry' = None).
Proof.
  intros Ht Hpre. split; [|split].
  - exists (EventMonitor.handleLog abi entry). split.
    + unfold EventMonitor.watch. rewrite Ht, process_app by exact Hpre. reflexivity.
    + unfold EventMonitor.handleLog. repeat split.
      * intros ->. reflexivity.
      * intros d -> ->. reflexivity.
      * intros d args -> ->. reflexivity.
  - intros e. apply process_yield_sound.
  - intros entry'. apply process_error_sound.
Qed.

(** The scenario of three entries, at the malformed one in the middle:
    one decode error for it, between the event of the valid entry and
    nothing for the unknown one. *)
Lemma watch_decode_policy_witness :
  EventMonitor.watch [EventMonitor.transferEvent] EventMonitor.scenarioTransport
    EventMonitor.scenarioFilter
  = [EventMonitor.Yield
       (EventMonitor.decoded EventMonitor.transferEvent EventMonitor.validEntry
          [("from", 0x11); ("amount", 500)]);
     EventMonitor.DecodeError EventMonitor.malformedEntry].
Proof.
  destruct (proj1 (watch_decode_policy [EventMonitor.transferEvent]
                     EventMonitor.scenarioTransport EventMonitor.scenarioFilter
                     [EventMonitor.Delivered EventMonitor.validEntry]
                     [EventMonitor.Delivered EventMonitor.unknownEntry]
                     EventMonitor.malformedEntry eq_refl eq_refl))
    as (report & Hwatch & _ & Herr & _).
  rewrite Hwatch, (Herr EventMonitor.transferEvent eq_refl eq_refl). reflexivity.
Defined.

(** The three-entry scenario yields exactly one decoded event and reports
    exactly one decode error. *)
Lemma watch_scenario_counts :
  length (EventMonitor.yields
            (EventMonitor.watch [EventMonitor.transferEvent]
               EventMonitor.scenarioTransport EventMonitor.scenarioFilter)) = 1%nat /\
  EventMonitor.decodeErrors
    (EventMonitor.watch [EventMonitor.transferEvent]
       EventMonitor.scenarioTransport EventMonitor.scenarioFilter)
  = [EventMonitor.malformedEntry].
Proof. split; reflexivity. Qed.

(** * Further properties

    The argument functions, the getters and the commands, run by run. *)

(** ** [parseCDKArgs] and [parseRollupManagerArgs] *)

Lemma knownForks_names f id :
  knownForks !! f = Some id ->
  (f = "7" \/ f = "etrog") /\ id = etrog \/
  (f = "9" \/ f = "elderberry") /\ id = elderberry \/
  (f = "12" \/ f = "banana") /\ id = banana.
Proof.
  intros Hid. apply elem_of_list_to_map_2 in Hid.
  repeat (apply elem_of_cons in Hid as [[= -> ->]|Hid]; [auto 10|]).
  apply elem_of_nil in Hid. destruct Hid.
Qed.

(** X1.  [parseCDKArgs] dials before it looks at the fork: a fork name
    that is not empty and not a key of [knownForks] is refused only once
    the dial has succeeded. The message lists the slice the source
    builds: as many empty entries as there are keys, then the keys,
    sorted. *)
Theorem unknown_fork_refused_after_dial `{Env} args url f w c w1 :
  in_rpcURL args = Some url ->
  in_forkID args = Some f ->
  f <> EmptyString ->
  knownForks !! f = None ->
  DialContext url w = ((c, None), w1) ->
  parseCDKArgs args w
  = (Ret (None,
          Some (errors_New ("invalid forkID. supported forkIDs are "
                            +:+ ", , , , , , 12, 7, 9, banana, elderberry, etrog"))),
     w1, [EvDial url None]).
Proof.
  intros Hurl Hf Hne Hnone Hdial.
  unfold parseCDKArgs, mustGetRPCClient, ethclient_DialContext. unfold_go.
  rewrite Hurl. cbn. rewrite Hdial. cbn. rewrite Hf. cbn.
  destruct f as [|ch f]; [contradiction|].
  destruct (Z.gtb_spec (len (String ch f)) 0) as [_|Hlen]; [|unfold len in Hlen; cbn in Hlen; lia].
  match goal with
  | |- context [match ?m !! _ with _ => _ end] => change m with knownForks
  end.
  rewrite Hnone. reflexivity.
Qed.

Lemma unknown_fork_refused_after_dial_witness :
  @parseCDKArgs (Stub.env None None 3) (Stub.args "blueberry") 0%nat
  = (Ret (None,
          Some (errors_New ("invalid forkID. supported forkIDs are "
                            +:+ ", , , , , , 12, 7, 9, banana, elderberry, etrog"))),
     0%nat, [EvDial defaultRPCURL None]).
Proof.
  apply (@unknown_fork_refused_after_dial (Stub.env None None 3) (Stub.args "blueberry")
           defaultRPCURL "blueberry" 0%nat (Some defaultRPCURL) 0%nat);
    try reflexivity.
  discriminate.
Defined.

(** X2.  Arguments that [parseCDKArgs] returns carry a nil error, the
    URL of the flag, and the fork number of the flag: [0] when the flag
    is nil or empty, else the number of the fork named, by numeral or by
    name, which is one of the three supported forks. *)
Theorem fork_number_of_flag `{Env} args w a err :
  outcome_of (parseCDKArgs args w) = Ret (Some a, err) ->
  err = None /\
  in_rpcURL args = Some (rpcURL a) /\
  match nonEmpty (in_forkID args) with
  | None => forkID a = 0
  | Some f =>
      (f = "7" \/ f = "etrog") /\ forkID a = etrog \/
      (f = "9" \/ f = "elderberry") /\ forkID a = elderberry \/
      (f = "12" \/ f = "banana") /\ forkID a = banana
  end.
Proof.
  unfold parseCDKArgs, mustGetRPCClient, ethclient_DialContext, nonEmpty. unfold_go.
  destruct (in_rpcURL args) as [url|]; cbn; [|discriminate].
  destruct (DialContext url w) as [[c [e|]] w1]; cbn; [discriminate|].
  destruct (in_forkID args) as [f|]; cbn; [|intros [= <- <-]; auto].
  destruct (len f >? 0); cbn; [|intros [= <- <-]; auto].
  match goal with
  | |- context [match ?m !! f with _ => _ end] => change m with knownForks
  end.
  destruct (knownForks !! f) as [id|] eqn:Hid; cbn; [|discriminate].
  intros [= <- <-]. cbn. auto using knownForks_names.
Qed.

Lemma fork_number_of_flag_witness :
  (None : option error) = None /\
  in_rpcURL (Stub.args "elderberry") = Some defaultRPCURL /\
  (("elderberry" = "7" \/ "elderberry" = "etrog") /\ 9 = etrog \/
   ("elderberry" = "9" \/ "elderberry" = "elderberry") /\ 9 = elderberry \/
   ("elderberry" = "12" \/ "elderberry" = "banana") /\ 9 = banana).
Proof.
  exact (@fork_number_of_flag (Stub.env None None 3) (Stub.args "elderberry") 0%nat
           {| rpcURL := defaultRPCURL; rpcClient := Some defaultRPCURL; forkID := 9 |}
           None eq_refl).
Defined.

Section ManagerArgs.
Context `{Env}.

(** The address block and the fork switch of [parseRollupManagerArgs],
    when the receiver is the package variable (as every caller has it). *)
Lemma parseRollupManagerArgs_run g c w key :
  in_rollupManagerAddress g = Some key ->
  parseRollupManagerArgs g g c w
  = (Ret match rollupManagerAddressValue key with
         | None => (None, Some (invalidAddress ArgRollupManagerAddress))
         | Some address =>
             if forkID c =? etrog then
               boundAt address (etrog_NewPolygonrollupmanager address (rpcClient c))
             else if forkID c =? elderberry then
               boundAt address (elderberry_NewPolygonrollupmanager address (rpcClient c))
             else if forkID c =? banana then
               boundAt address (banana_NewPolygonrollupmanager address (rpcClient c))
             else (Some {| rollupManager := None; rollupManagerAddress := address |}, None)
         end, w, []).
Proof.
  intros Hkey. unfold parseRollupManagerArgs, rollupManagerAddressValue, checkAddressArg,
    invalidAddress, boundAt.
  rewrite Hkey. unfold_go.
  match goal with
  | |- context [match ?m !! key with _ => _ end] =>
      change m with knownRollupManagerAddresses
  end.
  destruct (knownRollupManagerAddresses !! key) as [known|]; cbn.
  - repeat run_any; reflexivity.
  - destruct (IsHexAddress key); cbn; [|reflexivity].
    repeat run_any; reflexivity.
Qed.

End ManagerArgs.

(** X3.  A rollup-manager address that is neither the name of a known
    network nor a 20-byte hexadecimal literal is refused whatever the
    fork, before any contract is bound. The empty string, the default of
    the flag, is such an address. *)
Theorem rollupManager_address_refused `{Env} g c w key :
  in_rollupManagerAddress g = Some key ->
  knownRollupManagerAddresses !! key = None ->
  IsHexAddress key = false ->
  parseRollupManagerArgs g g c w
  = (Ret (None,
          Some (errors_New "invalid flag rollup-manager-address: invalid address")),
     w, []).
Proof.
  intros Hkey Hnone Hhex. rewrite (parseRollupManagerArgs_run g c w key Hkey).
  unfold rollupManagerAddressValue. rewrite Hnone, Hhex. reflexivity.
Qed.

(** The flag left at its default. *)
Lemma rollupManager_address_refused_witness :
  @parseRollupManagerArgs (Stub.env None None 3)
    (managerArgs EmptyString) (managerArgs EmptyString)
    {| rpcURL := defaultRPCURL; rpcClient := Some defaultRPCURL; forkID := banana |} 0%nat
  = (Ret (None,
          Some (errors_New "invalid flag rollup-manager-address: invalid address")),
     0%nat, []).
Proof.
  apply (@rollupManager_address_refused (Stub.env None None 3) (managerArgs EmptyString)
           {| rpcURL := defaultRPCURL; rpcClient := Some defaultRPCURL; forkID := banana |}
           0%nat EmptyString); reflexivity.
Defined.

(** X4.  Under one of the three supported forks the handle is what the
    binding constructor of that fork returns for the resolved address,
    the registered one for a network name, and for the client that
    [parseCDKArgs] dialled; an error of the constructor is returned as
    it is, with nil arguments. Nothing is called on the chain. *)
Theorem supported_fork_binds_its_contract `{Env} g c w key address :
  in_rollupManagerAddress g = Some key ->
  rollupManagerAddressValue key = Some address ->
  (forkID c = etrog ->
   parseRollupManagerArgs g g c w
   = (Ret (boundAt address (etrog_NewPolygonrollupmanager address (rpcClient c))),
      w, [])) /\
  (forkID c = elderberry ->
   parseRollupManagerArgs g g c w
   = (Ret (boundAt address (elderberry_NewPolygonrollupmanager address (rpcClient c))),
      w, [])) /\
  (forkID c = banana ->
   parseRollupManagerArgs g g c w
   = (Ret (boundAt address (banana_NewPolygonrollupmanager address (rpcClient c))),
      w, [])).
Proof.
  intros Hkey Haddr. rewrite (parseRollupManagerArgs_run g c w key Hkey), Haddr.
  repeat split; intros ->; reflexivity.
Qed.

(** The network name [mainnet] under fork [banana]. *)
Lemma supported_fork_binds_its_contract_witness :
  @parseRollupManagerArgs (Stub.env None None 3)
    (managerArgs "mainnet") (managerArgs "mainnet")
    {| rpcURL := defaultRPCURL; rpcClient := Some defaultRPCURL; forkID := banana |} 0%nat
  = (Ret (Some {| rollupManager := Some (Stub.rollupManager None 3);
                  rollupManagerAddress := 0x5132a183e9f3cb7c848b0aac5ae0c4f0491b7ab2 |},
          None),
     0%nat, []).
Proof.
  apply (proj2 (proj2 (@supported_fork_binds_its_contract (Stub.env None None 3)
           (managerArgs "mainnet")
           {| rpcURL := defaultRPCURL; rpcClient := Some defaultRPCURL; forkID := banana |}
           0%nat "mainnet" 0x5132a183e9f3cb7c848b0aac5ae0c4f0491b7ab2
           eq_refl eq_refl)) eq_refl).
Defined.

(** ** [parseRollupArgs] *)

Lemma ParseInt_64 s : strconv.ParseInt s 64 = strconv.ParseInt s 0.
Proof. destruct s; reflexivity. Qed.

Lemma uint64_small z : 0 <= z <= maxInt64 -> uint64 z = z.
Proof.
  intros Hz. unfold uint64, wrap. apply Z.mod_small. unfold maxInt64 in Hz. lia.
Qed.

Section RollupArgs.
Context `{Env}.

(** The chain-ID block of [parseRollupArgs]. *)
Lemma parseRollupArgs_chainID_run g w :
  match chainIDValue (in_rollupChainID g) with
  | Some n => parseRollupArgs_chainID g w = (Ret (inl n), w, [])
  | None =>
      match in_rollupID g with
      | Some r => parseRollupArgs_chainID g w
                  = (Ret (inr (Some (invalidRollupChainID r))), w, [])
      | None => parseRollupArgs_chainID g w = (Panic nilDereference, w, [])
      end
  end.
Proof.
  unfold chainIDValue, parseRollupArgs_chainID.
  destruct (nonEmpty (in_rollupChainID g)) as [c|]; [|reflexivity].
  pose proof (ParseInt_spec c) as HP. rewrite <- ParseInt_64 in HP.
  destruct (strconv.ParseInt c 64) as [n [e|]]; cbn in HP; rewrite <- HP; cbn.
  - destruct (in_rollupID g); reflexivity.
  - symmetry in HP. destruct (numericValue c) as [v|]; cbn in HP; [|discriminate].
    apply fitsInt_Some in HP as [-> [Hlo Hhi]].
    destruct (Z.ltb_spec v 0); cbn.
    + destruct (in_rollupID g); reflexivity.
    + rewrite uint64_small by lia. reflexivity.
Qed.

Lemma parseRollupArgs_address_run a :
  parseRollupArgs_address a
  = match rollupAddressValue (in_rollupAddress a) with
    | Some x => inl x
    | None => inr (Some (invalidAddress ArgRollupAddress))
    end.
Proof.
  unfold parseRollupArgs_address, rollupAddressValue, checkAddressArg, invalidAddress.
  destruct (nonEmpty (in_rollupAddress a)) as [s|]; [|reflexivity].
  destruct (IsHexAddress s); reflexivity.
Qed.

(** The rollup-ID block when the flag is not empty. *)
Lemma parseRollupArgs_rollupID_given g rma c x w s :
  nonEmpty (in_rollupID g) = Some s ->
  parseRollupArgs_rollupID g rma c x w
  = (Ret match numericValue s ≫= fitsInt with
         | Some n => if n <? 0 then inr (Some (invalidRollupID s)) else inl (n mod 2 ^ 32)
         | None => inr (Some (invalidRollupID s))
         end, w, []).
Proof.
  intros Hs. unfold parseRollupArgs_rollupID. rewrite Hs.
  pose proof (Atoi_spec s) as HA.
  destruct (strconv.Atoi s) as [n [e|]]; cbn in HA; rewrite <- HA; cbn; [reflexivity|].
  destruct (n <? 0); reflexivity.
Qed.

Lemma parseRollupArgs_steps g a rma w :
  parseRollupArgs g a rma w
  = match chainIDValue (in_rollupChainID g) with
    | Some c =>
        match rollupAddressValue (in_rollupAddress a) with
        | Some x =>
            match parseRollupArgs_rollupID g rma c x w with
            | (Ret (inl i), w', t) =>
                (Ret (Some {| rollupID := i; rollupChainID := c; rollupAddress := x |}, None),
                 w', t)
            | (Ret (inr err), w', t) => (Ret (None, err), w', t)
            | (Panic msg, w', t) => (Panic msg, w', t)
            | (Exit n, w', t) => (Exit n, w', t)
            | (OutOfFuel, w', t) => (OutOfFuel, w', t)
            end
        | None => (Ret (None, Some (invalidAddress ArgRollupAddress)), w, [])
        end
    | None =>
        match in_rollupID g with
        | Some r => (Ret (None, Some (invalidRollupChainID r)), w, [])
        | None => (Panic nilDereference, w, [])
        end
    end.
Proof.
  unfold parseRollupArgs. unfold mbind, M_bind, bind.
  pose proof (parseRollupArgs_chainID_run g w) as Hc.
  destruct (chainIDValue (in_rollupChainID g)) as [c|].
  - rewrite Hc, parseRollupArgs_address_run.
    destruct (rollupAddressValue (in_rollupAddress a)) as [x|]; [|reflexivity].
    destruct (parseRollupArgs_rollupID g rma c x w) as [[[[i|err]|msg|n|] w'] t]; cbn;
      try reflexivity.
    + now rewrite app_nil_r.
    + now rewrite app_nil_r.
  - destruct (in_rollupID g); rewrite Hc; reflexivity.
Qed.

End RollupArgs.

(** X5.  An unusable chain ID is reported first, whatever the other two
    selectors are, and the message quotes the rollup-ID flag; a numeral
    beyond [2^63 - 1] is unusable although it fits [uint64]. *)
Theorem chainID_checked_first `{Env} :
  (forall g a rma w r,
      in_rollupID g = Some r ->
      chainIDValue (in_rollupChainID g) = None ->
      parseRollupArgs g a rma w = (Ret (None, Some (invalidRollupChainID r)), w, [])) /\
  (forall c v,
      numericValue c = Some v -> maxInt64 < v -> chainIDValue (Some c) = None).
Proof.
  split.
  - intros g a rma w r Hr Hc. rewrite parseRollupArgs_steps, Hc, Hr. reflexivity.
  - intros c v Hv Hbig. unfold chainIDValue.
    rewrite (nonEmpty_Some c (numericValue_nonempty c v Hv)), Hv. cbn.
    unfold fitsInt. destruct (Z.leb_spec v maxInt64); [lia|].
    now rewrite andb_false_r.
Qed.

Lemma chainID_checked_first_witness :
  @parseRollupArgs (Stub.env None None 3)
    (Stub.rollupArgs "banana" "7" "18446744073709551615")
    (Stub.rollupArgs "banana" "7" "18446744073709551615") None 0%nat
  = (Ret (None, Some (errors_New "invalid rollupChainID: 7, it must be a valid uint64")),
     0%nat, []).
Proof.
  apply (proj1 (@chainID_checked_first (Stub.env None None 3))
           (Stub.rollupArgs "banana" "7" "18446744073709551615")
           (Stub.rollupArgs "banana" "7" "18446744073709551615") None 0%nat "7").
  - reflexivity.
  - apply (proj2 (@chainID_checked_first (Stub.env None None 3))
             "18446744073709551615" 18446744073709551615).
    + reflexivity.
    + unfold maxInt64. lia.
Defined.

(** X6.  With a usable chain ID, an invalid rollup address is reported
    before the rollup ID is looked at. *)
Theorem rollupAddress_checked_second `{Env} g a rma w c :
  chainIDValue (in_rollupChainID g) = Some c ->
  rollupAddressValue (in_rollupAddress a) = None ->
  parseRollupArgs g a rma w
  = (Ret (None, Some (errors_New "invalid flag rollup-address: invalid address")), w, []).
Proof.
  intros Hc Hx. rewrite parseRollupArgs_steps, Hc, Hx. reflexivity.
Qed.

Lemma rollupAddress_checked_second_witness :
  @parseRollupArgs (Stub.env None None 3)
    (selectorArgs "7" "1001" "0x1234") (selectorArgs "7" "1001" "0x1234") None 0%nat
  = (Ret (None, Some (errors_New "invalid flag rollup-address: invalid address")),
     0%nat, []).
Proof.
  apply (@rollupAddress_checked_second (Stub.env None None 3)
           (selectorArgs "7" "1001" "0x1234") (selectorArgs "7" "1001" "0x1234")
           None 0%nat 1001); reflexivity.
Defined.

(** X7.  A rollup ID given as a numeral below [2^32] is stored as it is,
    with the chain ID and the address as parsed: no call is made, with
    or without a rollup-manager handle, and the three are not compared. *)
Theorem rollupID_given_needs_no_lookup `{Env} g a rma w s v c x :
  nonEmpty (in_rollupID g) = Some s ->
  numericValue s = Some v ->
  0 <= v < 2 ^ 32 ->
  chainIDValue (in_rollupChainID g) = Some c ->
  rollupAddressValue (in_rollupAddress a) = Some x ->
  parseRollupArgs g a rma w
  = (Ret (Some {| rollupID := v; rollupChainID := c; rollupAddress := x |}, None), w, []).
Proof.
  intros Hs Hv Hr Hc Hx.
  rewrite parseRollupArgs_steps, Hc, Hx, (parseRollupArgs_rollupID_given _ _ _ _ _ s Hs), Hv.
  cbn. rewrite fitsInt_short by lia.
  destruct (Z.ltb_spec v 0); [lia|]. rewrite Z.mod_small by lia. reflexivity.
Qed.

Lemma rollupID_given_needs_no_lookup_witness :
  @parseRollupArgs (Stub.env None None 3)
    (selectorArgs "7" "1001" "0x00000000000000000000000000000000000000ff")
    (selectorArgs "7" "1001" "0x00000000000000000000000000000000000000ff") None 0%nat
  = (Ret (Some {| rollupID := 7; rollupChainID := 1001; rollupAddress := 255 |}, None),
     0%nat, []).
Proof.
  apply (@rollupID_given_needs_no_lookup (Stub.env None None 3)
           (selectorArgs "7" "1001" "0x00000000000000000000000000000000000000ff")
           (selectorArgs "7" "1001" "0x00000000000000000000000000000000000000ff")
           None 0%nat "7" 7 1001 255); try reflexivity. lia.
Defined.

(** X8.  Without a rollup ID, a chain ID of [0] and the zero address
    count as not given: the three-selector error, and no call. *)
Theorem no_selector_rejected `{Env} g a rma w :
  nonEmpty (in_rollupID g) = None ->
  chainIDValue (in_rollupChainID g) = Some 0 ->
  rollupAddressValue (in_rollupAddress a) = Some zeroAddress ->
  parseRollupArgs g a rma w
  = (Ret (None, Some (errors_New
                        "rollup-id, rollup-chain-id, or rollup-address must be provided")),
     w, []).
Proof.
  intros Hs Hc Hx. rewrite parseRollupArgs_steps, Hc, Hx.
  unfold parseRollupArgs_rollupID. rewrite Hs. reflexivity.
Qed.

Lemma no_selector_rejected_witness :
  @parseRollupArgs (Stub.env None None 3)
    (selectorArgs EmptyString "0" "0x0000000000000000000000000000000000000000")
    (selectorArgs EmptyString "0" "0x0000000000000000000000000000000000000000")
    None 0%nat
  = (Ret (None, Some (errors_New
                        "rollup-id, rollup-chain-id, or rollup-address must be provided")),
     0%nat, []).
Proof.
  apply (@no_selector_rejected (Stub.env None None 3)); reflexivity.
Defined.

(** X9.  Without a rollup ID, the rollup is looked up by one call: by
    chain ID when it is not [0], whatever the address; by address
    otherwise. The ID the call returns is stored, its error is returned
    as it is. *)
Theorem rollup_lookup_precedence `{Env} g a r h w c x :
  nonEmpty (in_rollupID g) = None ->
  chainIDValue (in_rollupChainID g) = Some c ->
  rollupAddressValue (in_rollupAddress a) = Some x ->
  rollupManager r = Some h ->
  (c <> 0 ->
   forall id err w1, rm_ChainIDToRollupID h c w = ((id, err), w1) ->
     parseRollupArgs g a (Some r) w
     = (Ret match err with
            | Some _ => (None, err)
            | None => (Some {| rollupID := id; rollupChainID := c; rollupAddress := x |},
                       None)
            end,
        w1, [EvRollupManager (RM_ChainIDToRollupID c) (VUint32 id) err])) /\
  (c = 0 -> x <> zeroAddress ->
   forall id err w1, rm_RollupAddressToID h x w = ((id, err), w1) ->
     parseRollupArgs g a (Some r) w
     = (Ret match err with
            | Some _ => (None, err)
            | None => (Some {| rollupID := id; rollupChainID := c; rollupAddress := x |},
                       None)
            end,
        w1, [EvRollupManager (RM_RollupAddressToID x) (VUint32 id) err])).
Proof.
  intros Hs Hc Hx Hh. split.
  - intros Hne id err w1 Hcall. rewrite parseRollupArgs_steps, Hc, Hx.
    unfold parseRollupArgs_rollupID. rewrite Hs.
    destruct (Z.eqb_spec c 0) as [|_]; [contradiction|]. cbn [andb negb].
    unfold_go. rewrite Hh, Hcall. destruct err; reflexivity.
  - intros -> Hne id err w1 Hcall. rewrite parseRollupArgs_steps, Hc, Hx.
    unfold parseRollupArgs_rollupID. rewrite Hs.
    destruct (Z.eqb_spec x zeroAddress) as [|_]; [contradiction|]. cbn.
    unfold_go. rewrite Hh, Hcall. destruct err; reflexivity.
Qed.

Lemma rollup_lookup_precedence_witness :
  @parseRollupArgs (Stub.env None None 3)
    (selectorArgs EmptyString "1002" "0x000000000000000000000000000000000000c001")
    (selectorArgs EmptyString "1002" "0x000000000000000000000000000000000000c001")
    (Some {| rollupManager := Some (Stub.rollupManager None 3);
             rollupManagerAddress := 0xAAAA |}) 0%nat
  = (Ret (Some {| rollupID := 2; rollupChainID := 1002; rollupAddress := 0xc001 |}, None),
     1%nat, [EvRollupManager (RM_ChainIDToRollupID 1002) (VUint32 2) None]) /\
  @parseRollupArgs (Stub.env None None 3)
    (selectorArgs EmptyString "0" "0x000000000000000000000000000000000000c001")
    (selectorArgs EmptyString "0" "0x000000000000000000000000000000000000c001")
    (Some {| rollupManager := Some (Stub.rollupManager None 3);
             rollupManagerAddress := 0xAAAA |}) 0%nat
  = (Ret (Some {| rollupID := 1; rollupChainID := 0; rollupAddress := 0xc001 |}, None),
     1%nat, [EvRollupManager (RM_RollupAddressToID 0xc001) (VUint32 1) None]).
Proof.
  split.
  - apply (proj1 (@rollup_lookup_precedence (Stub.env None None 3)
             (selectorArgs EmptyString "1002" "0x000000000000000000000000000000000000c001")
             (selectorArgs EmptyString "1002" "0x000000000000000000000000000000000000c001")
             {| rollupManager := Some (Stub.rollupManager None 3);
                rollupManagerAddress := 0xAAAA |}
             (Stub.rollupManager None 3) 0%nat 1002 0xc001
             eq_refl eq_refl eq_refl eq_refl) ltac:(lia) 2 None 1%nat eq_refl).
  - apply (proj2 (@rollup_lookup_precedence (Stub.env None None 3)
             (selectorArgs EmptyString "0" "0x000000000000000000000000000000000000c001")
             (selectorArgs EmptyString "0" "0x000000000000000000000000000000000000c001")
             {| rollupManager := Some (Stub.rollupManager None 3);
                rollupManagerAddress := 0xAAAA |}
             (Stub.rollupManager None 3) 0%nat 0 0xc001
             eq_refl eq_refl eq_refl eq_refl) eq_refl ltac:(unfold zeroAddress; lia)
             1 None 1%nat eq_refl).
Defined.

(** X10.  Without a rollup ID, a lookup is due as soon as one of the
    other two selectors is given; with no rollup-manager arguments, or
    with the nil handle that [parseRollupManagerArgs] leaves for a fork
    outside its switch, the lookup is a nil dereference: the function
    panics before any call. *)
Theorem rollup_lookup_needs_handle `{Env} g a rma w c x :
  nonEmpty (in_rollupID g) = None ->
  chainIDValue (in_rollupChainID g) = Some c ->
  rollupAddressValue (in_rollupAddress a) = Some x ->
  c <> 0 \/ x <> zeroAddress ->
  rma ≫= rollupManager = None ->
  parseRollupArgs g a rma w = (Panic nilDereference, w, []).
Proof.
  intros Hs Hc Hx Hsel Hh. rewrite parseRollupArgs_steps, Hc, Hx.
  unfold parseRollupArgs_rollupID. rewrite Hs.
  destruct (Z.eqb_spec c 0) as [->|Hc0]; cbn [andb negb].
  - destruct (Z.eqb_spec x zeroAddress) as [->|Hx0]; [destruct Hsel; contradiction|].
    unfold_go. destruct rma as [r|]; cbn in *; [|reflexivity].
    rewrite Hh. reflexivity.
  - unfold_go. destruct rma as [r|]; cbn in *; [|reflexivity].
    rewrite Hh. reflexivity.
Qed.

Lemma rollup_lookup_needs_handle_witness :
  @parseRollupArgs (Stub.env None None 3)
    (selectorArgs EmptyString "1002" EmptyString)
    (selectorArgs EmptyString "1002" EmptyString)
    (Some {| rollupManager := None; rollupManagerAddress := 0xAAAA |}) 0%nat
  = (Panic nilDereference, 0%nat, []).
Proof.
  apply (@rollup_lookup_needs_handle (Stub.env None None 3)
           (selectorArgs EmptyString "1002" EmptyString)
           (selectorArgs EmptyString "1002" EmptyString)
           (Some {| rollupManager := None; rollupManagerAddress := 0xAAAA |})
           0%nat 1002 zeroAddress); try reflexivity.
  left. lia.
Defined.

(** ** The snapshots and the enumerations, run by run *)

Section SnapshotRuns.
Context `{Env}.

Lemma getRollupManagerData_run h w o w' t :
  getRollupManagerData h w = (o, w', t) ->
  sleeps t = replicate (length (List.filter succeeded t)) contractRequestInterval /\
  match o with
  | Ret (Some d, None) => t = rollupManagerSnapshotTrace d
  | Ret (None, Some e) => failures t = [e]
  | Ret _ => False
  | Panic _ => h = None /\ t = []
  | _ => False
  end.
Proof.
  unfold getRollupManagerData. unfold_go.
  destruct h as [h|]; cbn; [|intros [= <- <- <-]; auto].
  repeat run_read; intros [= <- <- <-]; split; reflexivity.
Qed.

Lemma getGERData_run h w o w' t :
  getGERData h w = (o, w', t) ->
  sleeps t = replicate (length (List.filter succeeded t)) contractRequestInterval /\
  match o with
  | Ret (Some d, None) => t = gerSnapshotTrace d
  | Ret (None, Some e) => failures t = [e]
  | Ret _ => False
  | Panic _ => h = None /\ t = []
  | _ => False
  end.
Proof.
  unfold getGERData. unfold_go.
  destruct h as [h|]; cbn; [|intros [= <- <- <-]; auto].
  repeat run_read; intros [= <- <- <-]; split; reflexivity.
Qed.

End SnapshotRuns.

Section EnumerationRuns.
Context `{Env}.

Lemma rollupsLoop_run h N fuel : forall i acc w o w' t,
  rollupsLoop fuel h N i acc w = (o, w', t) ->
  sleeps t = replicate (length (rollupValues t)) contractRequestInterval /\
  exclusiveResult o.
Proof.
  induction fuel as [|fuel IH]; intros i acc w o w' t; cbn [rollupsLoop].
  - intros [= <- <- <-]. cbn. auto.
  - destruct (i <=? N); [|intros [= <- <- <-]; cbn; auto].
    unfold_go. destruct h as [h|]; cbn; [|intros [= <- <- <-]; cbn; auto].
    destruct (rm_RollupIDToRollupData h i w) as [[v [e|]] w1]; cbn.
    + intros [= <- <- <-]. cbn. auto.
    + destruct (rollupsLoop fuel (Some h) N (uint32 (i + 1)) (acc ++ [toRollupData v]) w1)
        as [[o2 w2] t2] eqn:Hloop.
      apply IH in Hloop as (Hs & Hres).
      intros [= <- <- <-].
      unfold sleeps, rollupValues in *. cbn.
      rewrite Hs. auto.
Qed.

Lemma rollupTypesLoop_run h N fuel : forall i acc w o w' t,
  rollupTypesLoop fuel h N i acc w = (o, w', t) ->
  sleeps t = replicate (length (rollupTypeValues t)) contractRequestInterval /\
  exclusiveResult o.
Proof.
  induction fuel as [|fuel IH]; intros i acc w o w' t; cbn [rollupTypesLoop].
  - intros [= <- <- <-]. cbn. auto.
  - destruct (i <=? N); [|intros [= <- <- <-]; cbn; auto].
    unfold_go. destruct h as [h|]; cbn; [|intros [= <- <- <-]; cbn; auto].
    destruct (rm_RollupTypeMap h i w) as [[v [e|]] w1]; cbn.
    + intros [= <- <- <-]. cbn. auto.
    + destruct (rollupTypesLoop fuel (Some h) N (uint32 (i + 1))
                  (acc ++ [toRollupTypeData v]) w1) as [[o2 w2] t2] eqn:Hloop.
      apply IH in Hloop as (Hs & Hres).
      intros [= <- <- <-].
      unfold sleeps, rollupTypeValues in *. cbn.
      rewrite Hs. auto.
Qed.

Lemma getRollupManagerRollups_run h fuel w o w' t :
  getRollupManagerRollups fuel h w = (o, w', t) ->
  sleeps t = replicate (length (rollupValues t)) contractRequestInterval /\
  exclusiveResult o.
Proof.
  unfold getRollupManagerRollups. unfold_go.
  destruct h as [h|]; cbn; [|intros [= <- <- <-]; cbn; auto].
  destruct (rm_RollupCount h w) as [[n [e|]] w1]; cbn.
  - intros [= <- <- <-]. cbn. auto.
  - rewrite makeslice_run.
    destruct ((n =? 0) || allocates TRollupData n); [|intros [= <- <- <-]; cbn; auto].
    destruct (rollupsLoop fuel (Some h) n (uint32 1) [] w1) as [[o2 w2] t2] eqn:Hloop.
    apply rollupsLoop_run in Hloop as (Hs & Hres).
    intros [= <- <- <-]. unfold sleeps, rollupValues in *. cbn.
    rewrite Hs. auto.
Qed.

Lemma getRollupManagerRollupTypes_run h fuel w o w' t :
  getRollupManagerRollupTypes fuel h w = (o, w', t) ->
  sleeps t = replicate (length (rollupTypeValues t)) contractRequestInterval /\
  exclusiveResult o.
Proof.
  unfold getRollupManagerRollupTypes. unfold_go.
  destruct h as [h|]; cbn; [|intros [= <- <- <-]; cbn; auto].
  destruct (rm_RollupTypeCount h w) as [[n [e|]] w1]; cbn.
  - intros [= <- <- <-]. cbn. auto.
  - rewrite makeslice_run.
    destruct ((n =? 0) || allocates TRollupTypeData n); [|intros [= <- <- <-]; cbn; auto].
    destruct (rollupTypesLoop fuel (Some h) n (uint32 1) [] w1) as [[o2 w2] t2] eqn:Hloop.
    apply rollupTypesLoop_run in Hloop as (Hs & Hres).
    intros [= <- <- <-]. unfold sleeps, rollupTypeValues in *. cbn.
    rewrite Hs. auto.
Qed.

(** At a count of [2^32 - 1] or more the loop condition holds for every
    value of the 32-bit counter: the loop has no normal exit. *)
Lemma rollupsLoop_no_exit h N fuel :
  maxUint32 <= N ->
  forall i acc w l err w' t,
    0 <= i <= maxUint32 ->
    rollupsLoop fuel h N i acc w <> (Ret (Some l, err), w', t).
Proof.
  intros HN. induction fuel as [|fuel IH]; intros i acc w l err w' t Hi;
    cbn [rollupsLoop]; [discriminate|].
  destruct (Z.leb_spec i N) as [_|Hgt]; [|lia].
  unfold_go. destruct h as [h|]; cbn; [|discriminate].
  destruct (rm_RollupIDToRollupData h i w) as [[v [e|]] w1]; cbn; [discriminate|].
  destruct (rollupsLoop fuel (Some h) N (uint32 (i + 1)) (acc ++ [toRollupData v]) w1)
    as [[o2 w2] t2] eqn:Hloop.
  intros [= -> -> <-]. exact (IH _ _ _ _ _ _ _ (uint32_range _) Hloop).
Qed.

Lemma rollupTypesLoop_no_exit h N fuel :
  maxUint32 <= N ->
  forall i acc w l err w' t,
    0 <= i <= maxUint32 ->
    rollupTypesLoop fuel h N i acc w <> (Ret (Some l, err), w', t).
Proof.
  intros HN. induction fuel as [|fuel IH]; intros i acc w l err w' t Hi;
    cbn [rollupTypesLoop]; [discriminate|].
  destruct (Z.leb_spec i N) as [_|Hgt]; [|lia].
  unfold_go. destruct h as [h|]; cbn; [|discriminate].
  destruct (rm_RollupTypeMap h i w) as [[v [e|]] w1]; cbn; [discriminate|].
  destruct (rollupTypesLoop fuel (Some h) N (uint32 (i + 1)) (acc ++ [toRollupTypeData v]) w1)
    as [[o2 w2] t2] eqn:Hloop.
  intros [= -> -> <-]. exact (IH _ _ _ _ _ _ _ (uint32_range _) Hloop).
Qed.


(** A loop that returned a list made one turn per index from [i] to the
    count. *)
Lemma rollupsLoop_inv h N fuel : forall i acc w l err w' t,
  0 <= i <= maxUint32 ->
  rollupsLoop fuel h N i acc w = (Ret (l, err), w', t) ->
  err = None ->
  exists vs,
    length vs = Z.to_nat (N + 1 - i) /\
    t = concat (zip_with rollupTurn (seqZ i (N + 1 - i)) vs) /\
    l = Some (acc ++ map toRollupData vs).
Proof.
  induction fuel as [|fuel IH]; intros i acc w l err w' t Hi; cbn [rollupsLoop];
    [discriminate|].
  destruct (Z.leb_spec i N) as [Hle|Hgt].
  2:{ intros [= <- <- <- <-] _. exists []. rewrite app_nil_r.
      replace (Z.to_nat (N + 1 - i)) with 0%nat by lia.
      rewrite seqZ_nil by lia. auto. }
  unfold_go. destruct h as [h|]; cbn; [|discriminate].
  destruct (rm_RollupIDToRollupData h i w) as [[v [e|]] w1]; cbn.
  { intros [= <- <- <- <-]. discriminate. }
  destruct (rollupsLoop fuel (Some h) N (uint32 (i + 1)) (acc ++ [toRollupData v]) w1)
    as [[o2 w2] t2] eqn:Hloop.
  intros [= -> -> <-] ->.
  destruct (Z.le_gt_cases maxUint32 N) as [Hbig|Hsmall].
  { destruct l as [l|].
    - destruct (rollupsLoop_no_exit _ _ _ Hbig _ _ _ _ _ _ _ (uint32_range _) Hloop).
    - exfalso. apply rollupsLoop_run in Hloop as (_ & []). }
  rewrite uint32_small in Hloop by (unfold maxUint32 in *; lia).
  apply IH in Hloop as (vs & Hlen & -> & ->); [|lia|reflexivity].
  exists (v :: vs). split; [cbn; lia|].
  rewrite (seqZ_cons i) by lia.
  replace (Z.succ i) with (i + 1) by lia.
  replace (Z.pred (N + 1 - i)) with (N + 1 - (i + 1)) by lia.
  split; [reflexivity|]. now rewrite <- app_assoc.
Qed.

Lemma rollupTypesLoop_inv h N fuel : forall i acc w l err w' t,
  0 <= i <= maxUint32 ->
  rollupTypesLoop fuel h N i acc w = (Ret (l, err), w', t) ->
  err = None ->
  exists vs,
    length vs = Z.to_nat (N + 1 - i) /\
    t = concat (zip_with rollupTypeTurn (seqZ i (N + 1 - i)) vs) /\
    l = Some (acc ++ map toRollupTypeData vs).
Proof.
  induction fuel as [|fuel IH]; intros i acc w l err w' t Hi; cbn [rollupTypesLoop];
    [discriminate|].
  destruct (Z.leb_spec i N) as [Hle|Hgt].
  2:{ intros [= <- <- <- <-] _. exists []. rewrite app_nil_r.
      replace (Z.to_nat (N + 1 - i)) with 0%nat by lia.
      rewrite seqZ_nil by lia. auto. }
  unfold_go. destruct h as [h|]; cbn; [|discriminate].
  destruct (rm_RollupTypeMap h i w) as [[v [e|]] w1]; cbn.
  { intros [= <- <- <- <-]. discriminate. }
  destruct (rollupTypesLoop fuel (Some h) N (uint32 (i + 1)) (acc ++ [toRollupTypeData v]) w1)
    as [[o2 w2] t2] eqn:Hloop.
  intros [= -> -> <-] ->.
  destruct (Z.le_gt_cases maxUint32 N) as [Hbig|Hsmall].
  { destruct l as [l|].
    - destruct (rollupTypesLoop_no_exit _ _ _ Hbig _ _ _ _ _ _ _ (uint32_range _) Hloop).
    - exfalso. apply rollupTypesLoop_run in Hloop as (_ & []). }
  rewrite uint32_small in Hloop by (unfold maxUint32 in *; lia).
  apply IH in Hloop as (vs & Hlen & -> & ->); [|lia|reflexivity].
  exists (v :: vs). split; [cbn; lia|].
  rewrite (seqZ_cons i) by lia.
  replace (Z.succ i) with (i + 1) by lia.
  replace (Z.pred (N + 1 - i)) with (N + 1 - (i + 1)) by lia.
  split; [reflexivity|]. now rewrite <- app_assoc.
Qed.

Lemma getRollupManagerRollups_inv fuel h l err w w' t :
  getRollupManagerRollups fuel h w = (Ret (l, err), w', t) ->
  err = None ->
  exists N vs,
    length vs = Z.to_nat N /\ t = rollupsTrace N vs /\ l = Some (map toRollupData vs).
Proof.
  unfold getRollupManagerRollups. unfold_go.
  destruct h as [h|]; cbn; [|discriminate].
  destruct (rm_RollupCount h w) as [[N [e|]] w1]; cbn.
  { intros [= <- <- <- <-]. discriminate. }
  rewrite makeslice_run.
  destruct ((N =? 0) || allocates TRollupData N); [|discriminate].
  destruct (rollupsLoop fuel (Some h) N (uint32 1) [] w1) as [[o2 w2] t2] eqn:Hloop.
  intros [= -> -> <-] ->.
  change (uint32 1) with 1 in Hloop.
  apply rollupsLoop_inv in Hloop as (vs & Hlen & -> & ->);
    [|unfold maxUint32; lia|reflexivity].
  exists N, vs. replace (N + 1 - 1) with N in * by lia. auto.
Qed.

Lemma getRollupManagerRollupTypes_inv fuel h l err w w' t :
  getRollupManagerRollupTypes fuel h w = (Ret (l, err), w', t) ->
  err = None ->
  exists N vs,
    length vs = Z.to_nat N /\ t = rollupTypesTrace N vs /\
    l = Some (map toRollupTypeData vs).
Proof.
  unfold getRollupManagerRollupTypes. unfold_go.
  destruct h as [h|]; cbn; [|discriminate].
  destruct (rm_RollupTypeCount h w) as [[N [e|]] w1]; cbn.
  { intros [= <- <- <- <-]. discriminate. }
  rewrite makeslice_run.
  destruct ((N =? 0) || allocates TRollupTypeData N); [|discriminate].
  destruct (rollupTypesLoop fuel (Some h) N (uint32 1) [] w1) as [[o2 w2] t2] eqn:Hloop.
  intros [= -> -> <-] ->.
  change (uint32 1) with 1 in Hloop.
  apply rollupTypesLoop_inv in Hloop as (vs & Hlen & -> & ->);
    [|unfold maxUint32; lia|reflexivity].
  exists N, vs. replace (N + 1 - 1) with N in * by lia. auto.
Qed.

End EnumerationRuns.

(** X11.  A snapshot of the rollup manager that is returned holds, field
    by field, the value its own read returned: the run is the eight
    reads in the order of the source, none failing, each followed by the
    200 ms pause, and nothing else. *)
Theorem rollupManager_snapshot_holds_the_reads `{Env} h w d err :
  outcome_of (getRollupManagerData h w) = Ret (Some d, err) ->
  trace_of (getRollupManagerData h w) = rollupManagerSnapshotTrace d.
Proof.
  destruct (getRollupManagerData h w) as [[o w'] t] eqn:Hrun. cbn. intros ->.
  apply getRollupManagerData_run in Hrun as [_ Hrun].
  destruct err; [destruct Hrun|exact Hrun].
Qed.

Lemma rollupManager_snapshot_holds_the_reads_witness :
  trace_of (@getRollupManagerData (Stub.env None None 3)
              (Some (Stub.rollupManager None 3)) 0%nat)
  = rollupManagerSnapshotTrace
      {| Pol := 0x9999; BridgeAddress := Stub.bridgeAddress; RollupCount := 3;
         BatchFee := Some 100; TotalSequencedBatches := 70; TotalVerifiedBatches := 60;
         LastAggregationTimestamp := 1700000000;
         LastDeactivatedEmergencyStateTimestamp := 0 |}.
Proof.
  apply (@rollupManager_snapshot_holds_the_reads (Stub.env None None 3)
           (Some (Stub.rollupManager None 3)) 0%nat _ None).
  reflexivity.
Defined.

(** X12.  A snapshot of the global exit root manager that is returned
    holds, field by field, the value its own read returned: the run is
    the seven reads in the order of the source, none failing, each
    followed by the 200 ms pause, and nothing else. *)
Theorem ger_snapshot_holds_the_reads `{Env} h w d err :
  outcome_of (getGERData h w) = Ret (Some d, err) ->
  trace_of (getGERData h w) = gerSnapshotTrace d.
Proof.
  destruct (getGERData h w) as [[o w'] t] eqn:Hrun. cbn. intros ->.
  apply getGERData_run in Hrun as [_ Hrun].
  destruct err; [destruct Hrun|exact Hrun].
Qed.

Lemma ger_snapshot_holds_the_reads_witness :
  trace_of (@getGERData (Stub.env None None 3) (Some (Stub.gerContract None)) 0%nat)
  = gerSnapshotTrace
      {| gerBridgeAddress := Stub.bridgeAddress; DepositCount := Some 5;
         GetLastGlobalExitRoot := 0x1111; Root := 0x2222;
         LastMainnetExitRoot := 0x3333; LastRollupExitRoot := 0x4444;
         RollupManager := 0xAAAA |}.
Proof.
  apply (@ger_snapshot_holds_the_reads (Stub.env None None 3)
           (Some (Stub.gerContract None)) 0%nat _ None).
  reflexivity.
Defined.

(** X13.  The four getters pause for 200 ms after every read that
    succeeded and at no other time: never after a failed read, and the
    enumerations not after reading the count. So the time a getter
    sleeps is 200 ms times the fields, or records, it has read. *)
Theorem pause_after_each_successful_read `{Env} :
  (forall h w,
      sleeps (trace_of (getRollupManagerData h w))
      = replicate (length (List.filter succeeded (trace_of (getRollupManagerData h w))))
          contractRequestInterval) /\
  (forall h w,
      sleeps (trace_of (getGERData h w))
      = replicate (length (List.filter succeeded (trace_of (getGERData h w))))
          contractRequestInterval) /\
  (forall fuel h w,
      sleeps (trace_of (getRollupManagerRollups fuel h w))
      = replicate (length (rollupValues (trace_of (getRollupManagerRollups fuel h w))))
          contractRequestInterval) /\
  (forall fuel h w,
      sleeps (trace_of (getRollupManagerRollupTypes fuel h w))
      = replicate
          (length (rollupTypeValues (trace_of (getRollupManagerRollupTypes fuel h w))))
          contractRequestInterval).
Proof.
  split; [|split; [|split]].
  - intros h w. destruct (getRollupManagerData h w) as [[o w'] t] eqn:Hrun.
    now apply getRollupManagerData_run in Hrun as [Hs _].
  - intros h w. destruct (getGERData h w) as [[o w'] t] eqn:Hrun.
    now apply getGERData_run in Hrun as [Hs _].
  - intros fuel h w. destruct (getRollupManagerRollups fuel h w) as [[o w'] t] eqn:Hrun.
    now apply getRollupManagerRollups_run in Hrun as [Hs _].
  - intros fuel h w.
    destruct (getRollupManagerRollupTypes fuel h w) as [[o w'] t] eqn:Hrun.
    now apply getRollupManagerRollupTypes_run in Hrun as [Hs _].
Qed.



Section Inversion.
Context `{Env}.

Lemma bind_Ret_inv {A B} (m : M A) (k : A -> M B) w b w' t :
  (m ≫= k) w = (Ret b, w', t) ->
  exists a w1 t1 t2, m w = (Ret a, w1, t1) /\ k a w1 = (Ret b, w', t2) /\ t = t1 ++ t2.
Proof.
  unfold mbind, M_bind, bind.
  destruct (m w) as [[[a|msg|c|] w1] t1]; try discriminate.
  destruct (k a w1) as [[o w2] t2] eqn:Hk.
  intros [= -> -> <-]. eauto 10.
Qed.

Lemma ret_inv {A} (a b : A) w w' t :
  ret a w = (Ret b, w', t) -> b = a /\ w' = w /\ t = [].
Proof. intros [= <- <- <-]. auto. Qed.

Lemma deref_inv {A} (p : option A) a w w' t :
  deref p w = (Ret a, w', t) -> p = Some a /\ w' = w /\ t = [].
Proof. destruct p; intros [= <- <- <-]. auto. Qed.

Lemma emit_inv ev u w w' t :
  emit ev w = (Ret u, w', t) -> w' = w /\ t = [ev].
Proof. intros [= <- <- <-]. auto. Qed.

Lemma mustGetRPCClient_inv url c w w' t :
  mustGetRPCClient url w = (Ret c, w', t) -> t = [EvDial url None].
Proof.
  unfold mustGetRPCClient, ethclient_DialContext. unfold_go.
  destruct (DialContext url w) as [[c' [e|]] w1]; cbn; [discriminate|].
  intros [= <- <- <-]. reflexivity.
Qed.

Lemma parseCDKArgs_inv args a err w w' t :
  parseCDKArgs args w = (Ret (Some a, err), w', t) ->
  err = None /\ in_rpcURL args = Some (rpcURL a) /\ t = [EvDial (rpcURL a) None].
Proof.
  unfold parseCDKArgs, mustGetRPCClient, ethclient_DialContext. unfold_go.
  destruct (in_rpcURL args) as [url|]; cbn; [|discriminate].
  destruct (DialContext url w) as [[c [e|]] w1]; cbn; [discriminate|].
  destruct (in_forkID args) as [f|]; cbn; [|intros [= <- <- <- <-]; auto].
  destruct (len f >? 0); cbn; [|intros [= <- <- <- <-]; auto].
  match goal with
  | |- context [match ?m !! f with _ => _ end] => destruct (m !! f)
  end; cbn; [|discriminate].
  intros [= <- <- <- <-]; auto.
Qed.

Lemma parseRollupManagerArgs_inv g c r err w w' t :
  parseRollupManagerArgs g g c w = (Ret (Some r, err), w', t) ->
  err = None /\ w' = w /\ t = [] /\
  in_rollupManagerAddress g ≫= rollupManagerAddressValue = Some (rollupManagerAddress r).
Proof.
  unfold parseRollupManagerArgs, rollupManagerAddressValue, checkAddressArg. unfold_go.
  destruct (in_rollupManagerAddress g) as [key|]; cbn; [|discriminate].
  match goal with
  | |- context [match ?m !! key with _ => _ end] =>
      change m with knownRollupManagerAddresses
  end.
  destruct (knownRollupManagerAddresses !! key) as [known|]; cbn.
  - repeat run_any; intros [= <- <- <- <-]; auto.
  - destruct (IsHexAddress key) eqn:Hhex; cbn; [|discriminate].
    repeat run_any; intros [= <- <- <- <-]; auto.
Qed.

Lemma resolveRollupManager_inv a c x r w w' t :
  resolveRollupManager a c x w = (Ret r, w', t) ->
  w' = w /\ t = [EvResolve KRollupManager x r.2].
Proof. intros [= <- <- <-]. auto. Qed.

Lemma resolveBridge_inv a c x r w w' t :
  resolveBridge a c x w = (Ret r, w', t) ->
  w' = w /\ t = [EvResolve KBridge x r.2].
Proof. intros [= <- <- <-]. auto. Qed.

Lemma resolveGER_inv a c x r w w' t :
  resolveGER a c x w = (Ret r, w', t) ->
  w' = w /\ t = [EvResolve KGER x r.2].
Proof. intros [= <- <- <-]. auto. Qed.

Lemma callGetBridgeData_inv b d err w w' t :
  callGetBridgeData b w = (Ret (d, err), w', t) ->
  t = [EvGetBridgeData (GlobalExitRootManager <$> d) err].
Proof.
  unfold callGetBridgeData. destruct (getBridgeData b w) as [[d' e] w1].
  intros [= -> -> <- <-]. reflexivity.
Qed.

Lemma callWatchNewLogs_inv c f err w w' t :
  callWatchNewLogs c f w = (Ret err, w', t) ->
  t = [EvWatch (blockchainFilter_Addresses f) err].
Proof.
  unfold callWatchNewLogs. destruct (watchNewLogs c f w) as [e w1].
  intros [= -> <- <-]. reflexivity.
Qed.

Lemma getRollupManagerData_inv h d err w w' t :
  getRollupManagerData h w = (Ret (d, err), w', t) ->
  err = None ->
  exists d', d = Some d' /\ t = rollupManagerSnapshotTrace d'.
Proof.
  intros Hrun ->. apply getRollupManagerData_run in Hrun as [_ Hrun].
  destruct d as [d|]; [eauto|destruct Hrun].
Qed.

Lemma getGERData_inv h d err w w' t :
  getGERData h w = (Ret (d, err), w', t) ->
  err = None ->
  exists d', d = Some d' /\ t = gerSnapshotTrace d'.
Proof.
  intros Hrun ->. apply getGERData_run in Hrun as [_ Hrun].
  destruct d as [d|]; [eauto|destruct Hrun].
Qed.

End Inversion.

(** One step back through a run that returned. *)
Ltac back H :=
  let a := fresh "a" in
  let w1 := fresh "w" in
  let t1 := fresh "t" in
  let t2 := fresh "t" in
  let H1 := fresh "Hstep" in
  apply bind_Ret_inv in H as (a & w1 & t1 & t2 & H1 & H & ->).

(** Back through the whole of a run that returned [nil]: [H] is the run
    of the rest of the command. *)
Ltac advance H :=
  cbv beta zeta in H;
  lazymatch type of H with
  | (match ?x with _ => _ end) _ = _ => destruct x; advance H
  | (mbind _ _) _ = _ => back H; advance H
  | ret _ _ = (Ret _, _, _) => apply ret_inv in H as (? & ? & ?); try discriminate
  end.

(** What each finished step says. *)
Ltac digest :=
  repeat (subst; match goal with
         | H : deref _ _ = (Ret _, _, _) |- _ => apply deref_inv in H as (? & ? & ?)
         | H : parseCDKArgs _ _ = (Ret _, _, _) |- _ =>
             apply parseCDKArgs_inv in H as (_ & ? & ?)
         | H : mustGetRPCClient _ _ = (Ret _, _, _) |- _ =>
             apply mustGetRPCClient_inv in H
         | H : parseRollupManagerArgs _ _ _ _ = (Ret _, _, _) |- _ =>
             apply parseRollupManagerArgs_inv in H as (_ & ? & ? & ?)
         | H : resolveRollupManager _ _ _ _ = (Ret _, _, _) |- _ =>
             apply resolveRollupManager_inv in H as (? & ?)
         | H : resolveBridge _ _ _ _ = (Ret _, _, _) |- _ =>
             apply resolveBridge_inv in H as (? & ?)
         | H : resolveGER _ _ _ _ = (Ret _, _, _) |- _ =>
             apply resolveGER_inv in H as (? & ?)
         | H : callGetBridgeData _ _ = (Ret _, _, _) |- _ =>
             apply callGetBridgeData_inv in H
         | H : callWatchNewLogs _ _ _ = (Ret _, _, _) |- _ =>
             apply callWatchNewLogs_inv in H
         | H : getRollupManagerData _ _ = (Ret _, _, _) |- _ =>
             apply getRollupManagerData_inv in H as (? & ? & ?); [|reflexivity]
         | H : getGERData _ _ = (Ret _, _, _) |- _ =>
             apply getGERData_inv in H as (? & ? & ?); [|reflexivity]
         | H : getRollupManagerRollups _ _ _ = (Ret _, _, _) |- _ =>
             apply getRollupManagerRollups_inv in H as (? & ? & ? & ? & ?); [|reflexivity]
         | H : getRollupManagerRollupTypes _ _ _ = (Ret _, _, _) |- _ =>
             apply getRollupManagerRollupTypes_inv in H as (? & ? & ? & ? & ?);
             [|reflexivity]
         | H : mustLogJSONIndent _ _ = (Ret _, _, _) |- _ => apply emit_inv in H as (? & ?)
         | H : mustPrintJSONIndent _ _ = (Ret _, _, _) |- _ => apply emit_inv in H as (? & ?)
         | H : Some _ = Some _ |- _ => injection H as ?
         end); subst.

(** ** Runs that return nil

    The witnesses run the stub chain under fork [banana], where every
    step succeeds. *)

(** X15.  A run of [rollupManagerInspect] that returns nil has dialled
    the RPC URL twice, resolved the rollup manager at the address of the
    flag, read the eight fields with their pauses and logged, last, the
    snapshot made of exactly the values read. *)
Theorem rollupManagerInspect_success `{Env} args w w' t :
  rollupManagerInspect args w = (Ret None, w', t) ->
  exists url address d,
    in_rpcURL args = Some url /\
    in_rollupManagerAddress args ≫= rollupManagerAddressValue = Some address /\
    t = opening url address ++ rollupManagerSnapshotTrace d
        ++ [EvLogJSON (OutRollupManagerData (Some d))].
Proof.
  unfold rollupManagerInspect. intros Hrun.
  advance Hrun. digest. cbn. eauto 10.
Qed.

Lemma rollupManagerInspect_success_witness :
  exists url address d,
    in_rpcURL (Stub.args "banana") = Some url /\
    in_rollupManagerAddress (Stub.args "banana") ≫= rollupManagerAddressValue
      = Some address /\
    trace_of (@rollupManagerInspect (Stub.env None None 3) (Stub.args "banana") 0%nat)
    = opening url address ++ rollupManagerSnapshotTrace d
      ++ [EvLogJSON (OutRollupManagerData (Some d))].
Proof.
  eapply (@rollupManagerInspect_success (Stub.env None None 3) (Stub.args "banana") 0%nat).
  vm_compute. reflexivity.
Defined.







(** X19.  A run of [gerInspect] that returns nil: the rollup-manager
    snapshot, the descent to the exit-root manager through the bridge
    address of that snapshot, the seven reads of the exit-root manager
    with their pauses, and the snapshot of exactly those values printed
    last. *)
Theorem gerInspect_success `{Env} args w w' t :
  gerInspect args w = (Ret None, w', t) ->
  exists url address d g gd,
    in_rpcURL args = Some url /\
    in_rollupManagerAddress args ≫= rollupManagerAddressValue = Some address /\
    t = opening url address ++ rollupManagerSnapshotTrace d
        ++ descent (BridgeAddress d) g ++ gerSnapshotTrace gd
        ++ [EvPrintJSON (OutGERData (Some gd))].
Proof.
  unfold gerInspect. intros Hrun.
  advance Hrun. digest. cbn. do 5 eexists. repeat split; eauto.
Qed.

Lemma gerInspect_success_witness :
  exists url address d g gd,
    in_rpcURL (Stub.args "banana") = Some url /\
    in_rollupManagerAddress (Stub.args "banana") ≫= rollupManagerAddressValue
      = Some address /\
    trace_of (@gerInspect (Stub.env None None 3) (Stub.args "banana") 0%nat)
    = opening url address ++ rollupManagerSnapshotTrace d
      ++ descent (BridgeAddress d) g ++ gerSnapshotTrace gd
      ++ [EvPrintJSON (OutGERData (Some gd))].
Proof.
  eapply (@gerInspect_success (Stub.env None None 3) (Stub.args "banana") 0%nat).
  vm_compute. reflexivity.
Defined.

(** X20.  [gerDump] does what [gerInspect] does and prints the snapshot
    inside a dump record. *)
Theorem gerDump_success `{Env} args w w' t :
  gerDump args w = (Ret None, w', t) ->
  exists url address d g gd,
    in_rpcURL args = Some url /\
    in_rollupManagerAddress args ≫= rollupManagerAddressValue = Some address /\
    t = opening url address ++ rollupManagerSnapshotTrace d
        ++ descent (BridgeAddress d) g ++ gerSnapshotTrace gd
        ++ [EvPrintJSON (OutGERDump {| gerDump_Data := Some gd |})].
Proof.
  unfold gerDump. intros Hrun.
  advance Hrun. digest. cbn. do 5 eexists. repeat split; eauto.
Qed.

Lemma gerDump_success_witness :
  exists url address d g gd,
    in_rpcURL (Stub.args "banana") = Some url /\
    in_rollupManagerAddress (Stub.args "banana") ≫= rollupManagerAddressValue
      = Some address /\
    trace_of (@gerDump (Stub.env None None 3) (Stub.args "banana") 0%nat)
    = opening url address ++ rollupManagerSnapshotTrace d
      ++ descent (BridgeAddress d) g ++ gerSnapshotTrace gd
      ++ [EvPrintJSON (OutGERDump {| gerDump_Data := Some gd |})].
Proof.
  eapply (@gerDump_success (Stub.env None None 3) (Stub.args "banana") 0%nat).
  vm_compute. reflexivity.
Defined.

(** X21.  A run of [gerMonitor] that returns nil never read the
    exit-root manager: after the descent it watched the one address of
    the manager, and printed nothing itself. *)
Theorem gerMonitor_success `{Env} args w w' t :
  gerMonitor args w = (Ret None, w', t) ->
  exists url address d g,
    in_rpcURL args = Some url /\
    in_rollupManagerAddress args ≫= rollupManagerAddressValue = Some address /\
    t = opening url address ++ rollupManagerSnapshotTrace d
        ++ descent (BridgeAddress d) g ++ [EvWatch [g] None].
Proof.
  unfold gerMonitor. intros Hrun.
  advance Hrun. digest. cbn. do 4 eexists. repeat split; eauto.
Qed.

Lemma gerMonitor_success_witness :
  exists url address d g,
    in_rpcURL (Stub.args "banana") = Some url /\
    in_rollupManagerAddress (Stub.args "banana") ≫= rollupManagerAddressValue
      = Some address /\
    trace_of (@gerMonitor (Stub.env None None 3) (Stub.args "banana") 0%nat)
    = opening url address ++ rollupManagerSnapshotTrace d
      ++ descent (BridgeAddress d) g ++ [EvWatch [g] None].
Proof.
  eapply (@gerMonitor_success (Stub.env None None 3) (Stub.args "banana") 0%nat).
  vm_compute. reflexivity.
Defined.

(** ** What the commands print, and what they return when a step fails *)

Section Tidy.
Context `{Env}.

Lemma writes_app t1 t2 : writes (t1 ++ t2) = writes t1 ++ writes t2.
Proof. apply List.filter_app. Qed.

Lemma endsWith_after t1 code t2 :
  writes t1 = [] -> endsWith code t2 -> endsWith code (t1 ++ t2).
Proof.
  intros Ht1 (pre & Hpre & Hend). exists (t1 ++ pre). split.
  - now rewrite writes_app, Ht1, Hpre.
  - destruct Hend as [[-> ->]|[-> ->]]; [left|right]; now rewrite app_assoc.
Qed.

Lemma tidy_ret {A} (a : A) : tidy (ret a).
Proof. intros w. reflexivity. Qed.

Lemma tidy_panic {A} msg : tidy (@panic _ A msg).
Proof. intros w. reflexivity. Qed.

Lemma tidy_out_of_fuel {A} : tidy (fun w : W => (@OutOfFuel A, w, [])).
Proof. intros w. reflexivity. Qed.

Lemma tidy_emit ev : written ev = false -> tidy (emit ev).
Proof. intros Hev w. cbn. now rewrite Hev. Qed.

Lemma tidy_invoke {Hd T} (h : option Hd) (op : Hd -> read W T) ev :
  (forall v err, written (ev v err) = false) -> tidy (invoke h op ev).
Proof.
  intros Hev w. unfold invoke. destruct h as [h|]; cbn; [|reflexivity].
  destruct (op h w) as [[v err] w1]; cbn. now rewrite Hev.
Qed.

Lemma tidy_bind {A B} (m : M A) (k : A -> M B) :
  tidy m -> (forall a, tidy (k a)) -> tidy (m ≫= k).
Proof.
  intros Hm Hk w. unfold mbind, M_bind, bind. specialize (Hm w).
  destruct (m w) as [[[a|msg|c|] w1] t1]; cbn [outcome_of trace_of fst snd] in Hm |- *;
    try exact Hm.
  specialize (Hk a w1). destruct (k a w1) as [[o2 w2] t2].
  cbn [outcome_of trace_of fst snd] in Hk |- *.
  destruct o2; try (now rewrite writes_app, Hm, Hk).
  now apply endsWith_after.
Qed.

Lemma tidy_mustGetRPCClient url : tidy (mustGetRPCClient url).
Proof.
  intros w. unfold mustGetRPCClient, ethclient_DialContext. unfold_go.
  destruct (DialContext url w) as [[c [e|]] w1]; cbn; [|reflexivity].
  exists [EvDial url (Some e)]. auto.
Qed.

Lemma tidy_makeslice T cap : tidy (makeslice T cap).
Proof.
  intros w. rewrite makeslice_run.
  destruct ((cap =? 0) || allocates T cap); cbn; [reflexivity|].
  exists []. auto.
Qed.

Lemma tidy_callGetBridgeData b : tidy (callGetBridgeData b).
Proof.
  intros w. unfold callGetBridgeData.
  destruct (getBridgeData b w) as [[d err] w1]. reflexivity.
Qed.

Lemma reporting_ret e : reporting (ret (Some e)).
Proof. intros w. reflexivity. Qed.

Lemma reporting_panic msg : reporting (panic msg).
Proof. intros w. reflexivity. Qed.

Lemma reporting_bind {A} (m : M A) (k : A -> M (option error)) :
  tidy m -> (forall a, reporting (k a)) -> reporting (m ≫= k).
Proof.
  intros Hm Hk w. unfold mbind, M_bind, bind. specialize (Hm w).
  destruct (m w) as [[[a|msg|c|] w1] t1]; cbn [outcome_of trace_of fst snd] in Hm |- *;
    try exact Hm.
  specialize (Hk a w1). destruct (k a w1) as [[o2 w2] t2].
  cbn [outcome_of trace_of fst snd] in Hk |- *.
  destruct o2 as [[e|]|msg|c|]; try (now rewrite writes_app, Hm, Hk).
  - destruct Hk as (pre & v & -> & Hpre & Hv). exists (t1 ++ pre), v.
    rewrite app_assoc, writes_app, Hm, Hpre. auto.
  - now apply endsWith_after.
Qed.

(** The last two statements of a printing command. *)
Lemma reporting_print ev : isDocument ev = true -> reporting (emit ev ≫= λ _, ret None).
Proof. intros Hev w. exists [], ev. auto. Qed.

End Tidy.

(** [tidy] and [reporting] by the structure of the computation. *)
Ltac tidy_step :=
  lazymatch goal with
  | |- tidy (mbind _ _) => apply tidy_bind; [|intros ?]
  | |- tidy (ret _) => apply tidy_ret
  | |- tidy (panic _) => apply tidy_panic
  | |- tidy (emit _) => apply tidy_emit; reflexivity
  | |- tidy (invoke _ _ _) => apply tidy_invoke; reflexivity
  | |- tidy (makeslice _ _) => apply tidy_makeslice
  | |- tidy (mustGetRPCClient _) => apply tidy_mustGetRPCClient
  | |- tidy (callGetBridgeData _) => apply tidy_callGetBridgeData
  | |- tidy (match ?x with _ => _ end) => destruct x
  | |- tidy _ => solve [auto]
  | |- reporting (mbind _ (emit (EvLogJSON _))) => apply reporting_print; reflexivity
  | |- reporting (mbind _ (emit (EvPrintJSON _))) => apply reporting_print; reflexivity
  | |- reporting (mbind _ _) => apply reporting_bind; [|intros ?]
  | |- reporting (ret (Some _)) => apply reporting_ret
  | |- reporting (panic _) => apply reporting_panic
  | |- reporting (match ?x with _ => _ end) => destruct x
  end.

Ltac tidy_tac := cbv beta zeta; repeat (tidy_step; cbv beta zeta).

Section TidyFunctions.
Context `{Env}.

Lemma tidy_getRollupManagerData h : tidy (getRollupManagerData h).
Proof. unfold getRollupManagerData, rmCall, time_Sleep. tidy_tac. Qed.

Lemma tidy_getGERData h : tidy (getGERData h).
Proof. unfold getGERData, gerCall, time_Sleep. tidy_tac. Qed.

Lemma tidy_rollupsLoop fuel h N : forall i acc, tidy (rollupsLoop fuel h N i acc).
Proof.
  induction fuel as [|fuel IH]; intros i acc; cbn [rollupsLoop].
  - apply tidy_out_of_fuel.
  - unfold rmCall, time_Sleep. tidy_tac.
Qed.

Lemma tidy_rollupTypesLoop fuel h N :
  forall i acc, tidy (rollupTypesLoop fuel h N i acc).
Proof.
  induction fuel as [|fuel IH]; intros i acc; cbn [rollupTypesLoop].
  - apply tidy_out_of_fuel.
  - unfold rmCall, time_Sleep. tidy_tac.
Qed.

Lemma tidy_getRollupManagerRollups fuel h : tidy (getRollupManagerRollups fuel h).
Proof.
  pose proof (tidy_rollupsLoop fuel h).
  unfold getRollupManagerRollups, rmCall. tidy_tac.
Qed.

Lemma tidy_getRollupManagerRollupTypes fuel h :
  tidy (getRollupManagerRollupTypes fuel h).
Proof.
  pose proof (tidy_rollupTypesLoop fuel h).
  unfold getRollupManagerRollupTypes, rmCall. tidy_tac.
Qed.

Lemma tidy_parseCDKArgs args : tidy (parseCDKArgs args).
Proof. unfold parseCDKArgs, deref. tidy_tac. Qed.

Lemma tidy_parseRollupManagerArgs g a c : tidy (parseRollupManagerArgs g a c).
Proof. unfold parseRollupManagerArgs, deref. tidy_tac. Qed.

Lemma tidy_resolveRollupManager a c x : tidy (resolveRollupManager a c x).
Proof. unfold resolveRollupManager. tidy_tac. Qed.

Lemma tidy_resolveBridge a c x : tidy (resolveBridge a c x).
Proof. unfold resolveBridge. tidy_tac. Qed.

Lemma tidy_resolveGER a c x : tidy (resolveGER a c x).
Proof. unfold resolveGER. tidy_tac. Qed.

End TidyFunctions.

(** X22.  In every run of the six commands that print a document, the
    program writes at most once to the log, to standard output or to
    standard error, and what it writes is the last event of the run: the
    JSON document when the command returns nil; the line
    "Unable to Dial RPC" of [log.Fatal] when the process exits with
    status 1; the out-of-memory message of the runtime when it exits with
    status 2.  A run that returns an error has written nothing, and a run
    that panics has written nothing when it panics; so the document is
    written only by a run that returns nil. *)
Theorem written_only_at_the_end `{Env} (fuel : nat)
    (cmd : inputArgs -> M (option error)) (args : inputArgs) (w w' : W) o t :
  In cmd (printingCommands fuel) ->
  cmd args w = (o, w', t) ->
  match o with
  | Ret None => exists pre v, t = pre ++ [v] /\ writes pre = [] /\ isDocument v = true
  | Exit code =>
      exists pre,
        writes pre = [] /\
        (code = 1 /\ t = pre ++ [EvFatal "Unable to Dial RPC"] \/
         code = 2 /\ t = pre ++ [EvThrow "runtime: out of memory"])
  | _ => writes t = []
  end.
Proof.
  intros Hcmd Hrun.
  enough (Hrep : reporting (cmd args)).
  { specialize (Hrep w). rewrite Hrun in Hrep. exact Hrep. }
  clear Hrun.
  pose proof tidy_getRollupManagerData. pose proof tidy_getGERData.
  pose proof tidy_getRollupManagerRollups. pose proof tidy_getRollupManagerRollupTypes.
  pose proof tidy_parseCDKArgs. pose proof tidy_parseRollupManagerArgs.
  pose proof tidy_resolveRollupManager. pose proof tidy_resolveBridge.
  pose proof tidy_resolveGER.
  unfold printingCommands in Hcmd. cbn [In] in Hcmd.
  repeat match type of Hcmd with
         | _ \/ _ => destruct Hcmd as [<-|Hcmd]
         | False => destruct Hcmd
         end.
  - unfold rollupManagerListRollups, deref, mustLogJSONIndent. tidy_tac.
  - unfold rollupManagerListRollupTypes, deref, mustLogJSONIndent. tidy_tac.
  - unfold rollupManagerInspect, deref, mustLogJSONIndent. tidy_tac.
  - unfold rollupManagerDump, deref, mustLogJSONIndent. tidy_tac.
  - unfold gerInspect, deref, mustPrintJSONIndent. tidy_tac.
  - unfold gerDump, deref, mustPrintJSONIndent. tidy_tac.
Qed.

(** Three runs on the stubs: [rollupManagerDump] when the dial fails,
    [rollupManagerListRollups] when the contract reports [2^32 - 2]
    rollups and the machine has room for [2^20], [gerInspect] when the
    fourth read fails. *)
Lemma written_only_at_the_end_witness :
  (exists pre,
      writes pre = [] /\
      (1 = 1 /\
       trace_of (@rollupManagerDump (Stub.env (Some (errors_New "connection refused"))
                                        None 3) 10 (Stub.args "banana") 0%nat)
       = pre ++ [EvFatal "Unable to Dial RPC"] \/
       1 = 2 /\
       trace_of (@rollupManagerDump (Stub.env (Some (errors_New "connection refused"))
                                        None 3) 10 (Stub.args "banana") 0%nat)
       = pre ++ [EvThrow "runtime: out of memory"])) /\
  (exists pre,
      writes pre = [] /\
      (2 = 1 /\
       trace_of (@rollupManagerListRollups (Stub.env None None (2 ^ 32 - 2)) 10
                   (Stub.args "banana") 0%nat)
       = pre ++ [EvFatal "Unable to Dial RPC"] \/
       2 = 2 /\
       trace_of (@rollupManagerListRollups (Stub.env None None (2 ^ 32 - 2)) 10
                   (Stub.args "banana") 0%nat)
       = pre ++ [EvThrow "runtime: out of memory"])) /\
  writes (trace_of (@gerInspect (Stub.env None (Some 3%nat) 3) (Stub.args "banana") 0%nat))
  = [].
Proof.
  split; [|split].
  - apply (@written_only_at_the_end (Stub.env (Some (errors_New "connection refused")) None 3)
             10 (rollupManagerDump 10) (Stub.args "banana") 0%nat 0%nat (Exit 1)).
    + do 3 right. left. reflexivity.
    + reflexivity.
  - apply (@written_only_at_the_end (Stub.env None None (2 ^ 32 - 2))
             10 (rollupManagerListRollups 10) (Stub.args "banana") 0%nat 1%nat (Exit 2)).
    + left. reflexivity.
    + reflexivity.
  - apply (@written_only_at_the_end (Stub.env None (Some 3%nat) 3)
             10 gerInspect (Stub.args "banana") 0%nat 4%nat (Ret (Some Stub.reverted))).
    + do 4 right. left. reflexivity.
    + reflexivity.
Defined.

Section Guarded.
Context `{Env}.

Lemma returnsTheFailure_free (m : M (option error)) :
  free step_error m -> returnsTheFailure m.
Proof. intros Hm w e Hin. unfold failures in Hin. rewrite (Hm w) in Hin. destruct Hin. Qed.

Lemma last_after (t1 t2 : list event) e :
  last t2 ≫= step_error = Some e -> last (t1 ++ t2) ≫= step_error = Some e.
Proof.
  intros Hlast. rewrite last_app. destruct (last t2); [exact Hlast|discriminate].
Qed.

Lemma returnsTheFailure_bind {A} (m : M A) (k : A -> M (option error)) :
  free step_error m -> (forall a, returnsTheFailure (k a)) ->
  returnsTheFailure (m ≫= k).
Proof.
  intros Hm Hk w e. unfold mbind, M_bind, bind. specialize (Hm w).
  destruct (m w) as [[[a|msg|c|] w1] t1]; change (failures t1 = []) in Hm;
    try (unfold trace_of; cbn [snd]; rewrite Hm; intros []).
  specialize (Hk a w1 e). destruct (k a w1) as [[o2 w2] t2].
  change (In e (failures t2) ->
          o2 = Ret (Some e) /\ failures t2 = [e] /\ last t2 ≫= step_error = Some e) in Hk.
  change (In e (failures (t1 ++ t2)) ->
          o2 = Ret (Some e) /\ failures (t1 ++ t2) = [e] /\
          last (t1 ++ t2) ≫= step_error = Some e).
  unfold failures in *. rewrite omap_app, Hm. cbn [app].
  intros Hin. destruct (Hk Hin) as (Ho & Hf & Hlast).
  auto using last_after.
Qed.

(** A guarded step followed by [if err != nil { return err }]. *)
Lemma returnsTheFailure_guard {A} (err : A -> option error) (m : M A)
    (k : A -> M (option error)) :
  guarded err m ->
  (forall a e, err a = Some e -> k a = ret (Some e)) ->
  (forall a, err a = None -> returnsTheFailure (k a)) ->
  returnsTheFailure (m ≫= k).
Proof.
  intros Hm Hret Hk w e. unfold mbind, M_bind, bind. specialize (Hm w).
  destruct (m w) as [[[a|msg|c|] w1] t1]; cbn [outcome_of trace_of fst snd] in Hm;
    try (unfold trace_of; cbn [snd]; rewrite Hm; intros []).
  destruct (err a) as [e0|] eqn:Herr.
  - rewrite (Hret a e0 Herr). unfold ret. cbn [outcome_of trace_of fst snd].
    rewrite app_nil_r. destruct Hm as [Hf Hlast]. rewrite Hf. intros [<-|[]]. auto.
  - specialize (Hk a Herr w1 e). destruct (k a w1) as [[o2 w2] t2].
    change (In e (failures t2) ->
            o2 = Ret (Some e) /\ failures t2 = [e] /\ last t2 ≫= step_error = Some e)
      in Hk.
    change (In e (failures (t1 ++ t2)) ->
            o2 = Ret (Some e) /\ failures (t1 ++ t2) = [e] /\
            last (t1 ++ t2) ≫= step_error = Some e).
    unfold failures in *. rewrite omap_app, Hm. cbn [app].
    intros Hin. destruct (Hk Hin) as (Ho & Hf & Hlast).
    auto using last_after.
Qed.

Lemma guarded_resolveRollupManager a c x : guarded snd (resolveRollupManager a c x).
Proof.
  intros w. unfold resolveRollupManager. unfold_go.
  destruct (getRollupManager a c x) as [[h abi] [e|]]; cbn; auto.
Qed.

Lemma guarded_getRollupManagerData h : guarded snd (getRollupManagerData h).
Proof.
  intros w. unfold getRollupManagerData. unfold_go.
  destruct h as [h|]; cbn; [|reflexivity].
  repeat run_read; auto.
Qed.

Lemma guarded_rollupsLoop fuel h N :
  forall i acc, guarded snd (rollupsLoop fuel h N i acc).
Proof.
  induction fuel as [|fuel IH]; intros i acc w; cbn [rollupsLoop]; [reflexivity|].
  destruct (i <=? N); [|reflexivity].
  unfold_go. destruct h as [h|]; cbn; [|reflexivity].
  destruct (rm_RollupIDToRollupData h i w) as [[v [e|]] w1]; cbn; [auto|].
  specialize (IH (uint32 (i + 1)) (acc ++ [toRollupData v]) w1).
  destruct (rollupsLoop fuel (Some h) N (uint32 (i + 1)) (acc ++ [toRollupData v]) w1)
    as [[[[l [e|]]|msg|c|] w2] t2]; cbn in *; auto.
  destruct IH as [Hf Hlast]. split; [exact Hf|].
  destruct t2; [discriminate|exact Hlast].
Qed.

Lemma guarded_rollupTypesLoop fuel h N :
  forall i acc, guarded snd (rollupTypesLoop fuel h N i acc).
Proof.
  induction fuel as [|fuel IH]; intros i acc w; cbn [rollupTypesLoop]; [reflexivity|].
  destruct (i <=? N); [|reflexivity].
  unfold_go. destruct h as [h|]; cbn; [|reflexivity].
  destruct (rm_RollupTypeMap h i w) as [[v [e|]] w1]; cbn; [auto|].
  specialize (IH (uint32 (i + 1)) (acc ++ [toRollupTypeData v]) w1).
  destruct (rollupTypesLoop fuel (Some h) N (uint32 (i + 1))
              (acc ++ [toRollupTypeData v]) w1)
    as [[[[l [e|]]|msg|c|] w2] t2]; cbn in *; auto.
  destruct IH as [Hf Hlast]. split; [exact Hf|].
  destruct t2; [discriminate|exact Hlast].
Qed.

Lemma guarded_getRollupManagerRollups fuel h :
  guarded snd (getRollupManagerRollups fuel h).
Proof.
  intros w. unfold getRollupManagerRollups. unfold_go.
  destruct h as [h|]; cbn; [|reflexivity].
  destruct (rm_RollupCount h w) as [[N [e|]] w1]; cbn; [auto|].
  rewrite makeslice_run.
  destruct ((N =? 0) || allocates TRollupData N); [|reflexivity].
  pose proof (guarded_rollupsLoop fuel (Some h) N (uint32 1) [] w1) as Hloop.
  destruct (rollupsLoop fuel (Some h) N (uint32 1) [] w1)
    as [[[[l [e|]]|msg|c|] w2] t2]; cbn in *; auto.
  destruct Hloop as [Hf Hlast]. split; [exact Hf|].
  destruct t2; [discriminate|exact Hlast].
Qed.

Lemma guarded_getRollupManagerRollupTypes fuel h :
  guarded snd (getRollupManagerRollupTypes fuel h).
Proof.
  intros w. unfold getRollupManagerRollupTypes. unfold_go.
  destruct h as [h|]; cbn; [|reflexivity].
  destruct (rm_RollupTypeCount h w) as [[N [e|]] w1]; cbn; [auto|].
  rewrite makeslice_run.
  destruct ((N =? 0) || allocates TRollupTypeData N); [|reflexivity].
  pose proof (guarded_rollupTypesLoop fuel (Some h) N (uint32 1) [] w1) as Hloop.
  destruct (rollupTypesLoop fuel (Some h) N (uint32 1) [] w1)
    as [[[[l [e|]]|msg|c|] w2] t2]; cbn in *; auto.
  destruct Hloop as [Hf Hlast]. split; [exact Hf|].
  destruct t2; [discriminate|exact Hlast].
Qed.

Lemma clean_mustGetRPCClient url : free step_error (mustGetRPCClient url).
Proof. unfold mustGetRPCClient, log_Fatal. free_tac. Qed.

Lemma clean_parseCDKArgs args : free step_error (parseCDKArgs args).
Proof.
  pose proof clean_mustGetRPCClient. unfold parseCDKArgs, deref. free_tac.
Qed.

Lemma clean_parseRollupManagerArgs g a c : free step_error (parseRollupManagerArgs g a c).
Proof. unfold parseRollupManagerArgs, deref. free_tac. Qed.

End Guarded.

(** [returnsTheFailure] by the structure of a command. *)
Ltac guard_with H :=
  eapply (returnsTheFailure_guard snd);
  [ apply H
  | intros ? ? Herr;
    repeat match goal with p : (_ * _)%type |- _ => destruct p end;
    cbn in Herr; subst; reflexivity
  | intros ? Herr;
    repeat match goal with p : (_ * _)%type |- _ => destruct p end;
    cbn in Herr; subst; cbv beta iota zeta ].

Ltac failure_step :=
  lazymatch goal with
  | |- returnsTheFailure (mbind _ (resolveRollupManager _ _ _)) =>
      guard_with guarded_resolveRollupManager
  | |- returnsTheFailure (mbind _ (getRollupManagerData _)) =>
      guard_with guarded_getRollupManagerData
  | |- returnsTheFailure (mbind _ (getRollupManagerRollups _ _)) =>
      guard_with guarded_getRollupManagerRollups
  | |- returnsTheFailure (mbind _ (getRollupManagerRollupTypes _ _)) =>
      guard_with guarded_getRollupManagerRollupTypes
  | |- returnsTheFailure (mbind _ _) =>
      apply returnsTheFailure_bind;
      [ first [ apply clean_parseCDKArgs | apply clean_mustGetRPCClient
              | apply clean_parseRollupManagerArgs | solve [unfold deref, mustLogJSONIndent; free_tac] ]
      | intros ? ]
  | |- returnsTheFailure (match ?x with _ => _ end) => destruct x
  | |- returnsTheFailure _ =>
      apply returnsTheFailure_free; unfold mustLogJSONIndent; solve [free_tac]
  end.

(** X23.  In the four rollup-manager commands that read the chain, a
    step that fails, the resolution of the contract or any read, is the
    last event of the run and its only failure, and the command returns
    the error of that step as it is. *)
Theorem rollupManager_commands_return_the_failure `{Env} (fuel : nat)
    (cmd : inputArgs -> M (option error)) (args : inputArgs) (w : W) (e : error) :
  In cmd (rollupManagerCommands fuel) ->
  In e (failures (trace_of (cmd args w))) ->
  outcome_of (cmd args w) = Ret (Some e) /\
  failures (trace_of (cmd args w)) = [e] /\
  last (trace_of (cmd args w)) ≫= step_error = Some e.
Proof.
  intros Hcmd. revert w e. change (returnsTheFailure (cmd args)).
  unfold rollupManagerCommands in Hcmd. cbn [In] in Hcmd.
  repeat match type of Hcmd with
         | _ \/ _ => destruct Hcmd as [<-|Hcmd]
         | False => destruct Hcmd
         end.
  - unfold rollupManagerListRollups. cbv beta zeta. repeat (failure_step; cbv beta zeta).
  - unfold rollupManagerListRollupTypes. cbv beta zeta.
    repeat (failure_step; cbv beta zeta).
  - unfold rollupManagerInspect. cbv beta zeta. repeat (failure_step; cbv beta zeta).
  - unfold rollupManagerDump. cbv beta zeta. repeat (failure_step; cbv beta zeta).
Qed.

(** [rollupManagerListRollups] on a stub whose third call, the read of
    rollup [2], fails. *)
Lemma rollupManager_commands_return_the_failure_witness :
  outcome_of (@rollupManagerListRollups (Stub.env None (Some 2%nat) 3) 10
                (Stub.args "banana") 0%nat) = Ret (Some Stub.reverted) /\
  failures (trace_of (@rollupManagerListRollups (Stub.env None (Some 2%nat) 3) 10
                        (Stub.args "banana") 0%nat)) = [Stub.reverted] /\
  last (trace_of (@rollupManagerListRollups (Stub.env None (Some 2%nat) 3) 10
                    (Stub.args "banana") 0%nat)) ≫= step_error = Some Stub.reverted.
Proof.
  apply (@rollupManager_commands_return_the_failure (Stub.env None (Some 2%nat) 3) 10
           (rollupManagerListRollups 10) (Stub.args "banana") 0%nat Stub.reverted).
  - left. reflexivity.
  - vm_compute. left. reflexivity.
Defined.

(** ** The start of every command *)

Section Opening.
Context `{Env}.

Lemma parseCDKArgs_known_fork args url w :
  in_rpcURL args = Some url ->
  (DialContext url w).1.2 = None ->
  (forall f, nonEmpty (in_forkID args) = Some f -> is_Some (knownForks !! f)) ->
  exists a, parseCDKArgs args w
            = (Ret (Some a, None), (DialContext url w).2, [EvDial url None]) /\
            rpcURL a = url.
Proof.
  intros Hurl Hdial Hfork.
  unfold parseCDKArgs, mustGetRPCClient, ethclient_DialContext. unfold_go.
  rewrite Hurl. cbn. destruct (DialContext url w) as [[c e] w1]. cbn in Hdial. subst e.
  cbn. unfold nonEmpty in Hfork.
  destruct (in_forkID args) as [f|]; cbn; [|eauto].
  destruct (len f >? 0); cbn; [|eauto].
  destruct (Hfork f eq_refl) as [id Hid].
  match goal with
  | |- context [match ?m !! f with _ => _ end] => change m with knownForks
  end.
  rewrite Hid. cbn. eauto.
Qed.

Lemma mustGetRPCClient_reached url w :
  (DialContext url w).1.2 = None ->
  mustGetRPCClient url w
  = (Ret (DialContext url w).1.1, (DialContext url w).2, [EvDial url None]).
Proof.
  intros Hdial. unfold mustGetRPCClient, ethclient_DialContext. unfold_go.
  destruct (DialContext url w) as [[c e] w1]. cbn in *. subst e. reflexivity.
Qed.

End Opening.

(** The start of a command whose dials succeed and whose rollup-manager
    address is refused. *)
Ltac refused_opening Hurl Hdial Hfork Hkey Hbad :=
  unfold mbind, M_bind, bind;
  match goal with
  | |- context [parseCDKArgs ?args ?w] =>
      let a := fresh "a" in
      let Hrun := fresh "Hrun" in
      destruct (parseCDKArgs_known_fork args _ w Hurl (Hdial w) Hfork) as (a & Hrun & <-);
      rewrite Hrun; cbn
  end;
  rewrite mustGetRPCClient_reached by apply Hdial; cbn;
  rewrite (parseRollupManagerArgs_run _ _ _ _ Hkey), Hbad; cbn;
  split; reflexivity.

(** X24.  With a rollup-manager address that is refused, every command
    that walks the chain ends the same way: it dials the RPC URL twice,
    once in [parseCDKArgs] and once itself, and only then returns the
    invalid-address error; it resolves, reads and prints nothing. *)
Theorem bad_address_refused_after_two_dials `{Env} fuel cmd args url key w :
  In cmd (chainCommands fuel) ->
  in_rpcURL args = Some url ->
  (forall w, (DialContext url w).1.2 = None) ->
  (forall f, nonEmpty (in_forkID args) = Some f -> is_Some (knownForks !! f)) ->
  in_rollupManagerAddress args = Some key ->
  rollupManagerAddressValue key = None ->
  outcome_of (cmd args w)
  = Ret (Some (errors_New "invalid flag rollup-manager-address: invalid address")) /\
  trace_of (cmd args w) = [EvDial url None; EvDial url None].
Proof.
  intros Hcmd Hurl Hdial Hfork Hkey Hbad.
  unfold chainCommands in Hcmd. cbn [In] in Hcmd.
  repeat match type of Hcmd with
         | _ \/ _ => destruct Hcmd as [<-|Hcmd]
         | False => destruct Hcmd
         end.
  - unfold rollupManagerListRollups. refused_opening Hurl Hdial Hfork Hkey Hbad.
  - unfold rollupManagerListRollupTypes. refused_opening Hurl Hdial Hfork Hkey Hbad.
  - unfold rollupManagerInspect. refused_opening Hurl Hdial Hfork Hkey Hbad.
  - unfold rollupManagerDump. refused_opening Hurl Hdial Hfork Hkey Hbad.
  - unfold gerInspect. refused_opening Hurl Hdial Hfork Hkey Hbad.
  - unfold gerDump. refused_opening Hurl Hdial Hfork Hkey Hbad.
  - unfold gerMonitor. refused_opening Hurl Hdial Hfork Hkey Hbad.
Qed.

(** [rollupManagerDump] with the flags at the defaults of [init]. *)
Lemma bad_address_refused_after_two_dials_witness :
  outcome_of (@rollupManagerDump (Stub.env None None 3) 10 (managerArgs EmptyString) 0%nat)
  = Ret (Some (errors_New "invalid flag rollup-manager-address: invalid address")) /\
  trace_of (@rollupManagerDump (Stub.env None None 3) 10 (managerArgs EmptyString) 0%nat)
  = [EvDial defaultRPCURL None; EvDial defaultRPCURL None].
Proof.
  apply (@bad_address_refused_after_two_dials (Stub.env None None 3) 10
           (rollupManagerDump 10) (managerArgs EmptyString) defaultRPCURL EmptyString 0%nat).
  - do 3 right. left. reflexivity.
  - reflexivity.
  - intros w. reflexivity.
  - intros f [= <-]. exists banana. reflexivity.
  - reflexivity.
  - reflexivity.
Defined.
